(** * QGIS-IndexCalculation: formula resolver, save worker and task scheduler

    A shallow embedding of [RasterIndexCalculator.py], [RasterSaveTask.py]
    and [RasterIndexCalculatorTask.py].

    Conventions of the embedding.
    - A Python [str] is a Rocq [string] of ASCII characters; character codes
      of 128 and more are outside the modelled domain (they count as neither
      word characters nor white space).
    - A Python [dict] that is only read is an association list in the order
      of its literal; [dict_get] is the subscript [d[k]], [None] standing for
      [KeyError].
    - A Python [float] that the program only prints with [str()] (band
      statistics) is carried as that text.
    - Memory sizes are exact rationals ([Q]).  The source computes a size as
      [width * height * bands * bytes / 1024 / 1024] plus that over the band
      count: a whole number of [2^-20] megabytes.  Sums and differences of
      such numbers are exact in double precision as long as they stay within
      [2^53] bytes ([2^33] megabytes), so that the rationals follow the
      floats of the source on every run whose task sizes add up to at most
      that ([double_exact]); what is stated of the value of a size or of the
      memory counter is stated for such runs.  [Doubles] has the same
      arithmetic in binary64, for what happens above that size.
    - A call that can raise returns an [outcome]; a [while] loop that may not
      terminate takes fuel and answers [Diverges] when it runs out.
    - An object that several threads share (a task, the save worker) is a
      value in the state of the whole process; each access under a lock, and
      each look of the control loop at it, is one step. *)

From Stdlib Require Import String Ascii List Bool Arith Lia ZArith QArith Lqa.
Import ListNotations.

Local Open Scope nat_scope.
Local Open Scope list_scope.
Local Open Scope string_scope.

(** ** Exceptions and outcomes *)

Inductive exn : Type :=
| KeyError (key : string)
| IndexError
| ZeroDivisionError
| ValueError (msg : string)
| QgsProcessingException (msg : string).

Inductive outcome (A : Type) : Type :=
| Returns (a : A)
| Raises (e : exn)
| Diverges.

Arguments Returns {A} a.
Arguments Raises {A} e.
Arguments Diverges {A}.

Definition bind {A B : Type} (m : outcome A) (k : A -> outcome B) : outcome B :=
  match m with
  | Returns a => k a
  | Raises e => Raises e
  | Diverges => Diverges
  end.

Notation "x <- m ;; k" := (bind m (fun x => k))
  (at level 61, m at next level, right associativity).

(** ** Python strings *)

Module PyStr.

(** [\w] of [re] on ASCII text: letters, digits and the underscore. *)
Definition is_word (c : ascii) : bool :=
  let n := nat_of_ascii c in
  (((48 <=? n) && (n <=? 57)) || ((65 <=? n) && (n <=? 90))
   || ((97 <=? n) && (n <=? 122)) || (n =? 95))%nat.

(** [str.isspace] on ASCII text: tab to carriage return, the four
    separators 28..31 and the blank. *)
Definition is_space (c : ascii) : bool :=
  let n := nat_of_ascii c in
  (((9 <=? n) && (n <=? 13)) || ((28 <=? n) && (n <=? 32)))%nat.

(** The longest prefix whose characters all satisfy [p], and the rest. *)
Fixpoint span (p : ascii -> bool) (s : string) : string * string :=
  match s with
  | EmptyString => (EmptyString, EmptyString)
  | String c s' =>
      if p c then let (a, b) := span p s' in (String c a, b)
      else (EmptyString, s)
  end.

Fixpoint lstrip (s : string) : string :=
  match s with
  | EmptyString => EmptyString
  | String c s' => if is_space c then lstrip s' else s
  end.

Fixpoint rstrip (s : string) : string :=
  match s with
  | EmptyString => EmptyString
  | String c s' =>
      match rstrip s' with
      | EmptyString => if is_space c then EmptyString else String c EmptyString
      | r => String c r
      end
  end.

(** [s.strip()] *)
Definition strip (s : string) : string := rstrip (lstrip s).

(** [s.split(sep)] for a one-character separator: never the empty list. *)
Fixpoint split (sep : ascii) (s : string) : list string :=
  match s with
  | EmptyString => [EmptyString]
  | String c s' =>
      if Ascii.eqb c sep then EmptyString :: split sep s'
      else match split sep s' with
           | h :: t => String c h :: t
           | [] => [String c EmptyString]
           end
  end.

(** [s.startswith(p)] *)
Fixpoint startswith (p s : string) : bool :=
  match p with
  | EmptyString => true
  | String a p' =>
      match s with
      | EmptyString => false
      | String b s' => Ascii.eqb a b && startswith p' s'
      end
  end.

(** [s[len(p):]] when [s] starts with [p]. *)
Fixpoint drop_prefix (p s : string) : option string :=
  match p with
  | EmptyString => Some s
  | String a p' =>
      match s with
      | EmptyString => None
      | String b s' => if Ascii.eqb a b then drop_prefix p' s' else None
      end
  end.

(** [s.replace(old, new)]: every occurrence of [old], left to right, without
    overlap.  [skip] counts the characters of a replaced occurrence that are
    still to be stepped over. *)
Fixpoint replace_from (skip : nat) (old new s : string) : string :=
  match s with
  | EmptyString => EmptyString
  | String c s' =>
      match skip with
      | S k => replace_from k old new s'
      | O =>
          if startswith old s
          then new ++ replace_from (String.length old - 1) old new s'
          else String c (replace_from 0 old new s')
      end
  end.

(** With an empty [old] Python puts [new] before every character and at the
    end. *)
Fixpoint intersperse (new s : string) : string :=
  match s with
  | EmptyString => new
  | String c s' => new ++ String c (intersperse new s')
  end.

Definition replace (old new s : string) : string :=
  match old with
  | EmptyString => intersperse new s
  | String _ _ => replace_from 0 old new s
  end.

(** [all(p(c) for c in s)] *)
Fixpoint all_chars (p : ascii -> bool) (s : string) : bool :=
  match s with
  | EmptyString => true
  | String c s' => p c && all_chars p s'
  end.

(** [p in s] for strings. *)
Fixpoint occurs (p s : string) : bool :=
  startswith p s ||
  match s with
  | EmptyString => false
  | String _ s' => occurs p s'
  end.

(** No occurrence of [p] starts inside [x] when [x] is followed by [y]. *)
Fixpoint starts_nowhere (p x y : string) : bool :=
  match x with
  | EmptyString => true
  | String _ x' => negb (startswith p (x ++ y)) && starts_nowhere p x' y
  end.

End PyStr.

(** ** Read-only dictionaries *)

Definition dict (V : Type) : Type := list (string * V).

Fixpoint dict_get {V : Type} (d : dict V) (k : string) : option V :=
  match d with
  | [] => None
  | (k', v) :: d' => if String.eqb k k' then Some v else dict_get d' k
  end.

Definition dict_mem {V : Type} (d : dict V) (k : string) : bool :=
  match dict_get d k with Some _ => true | None => false end.

(** ** The raster layer, as far as the program reads it *)

Record QgsRasterBandStats : Type := {
  maximumValue : string;
  minimumValue : string;
  mean : string;
  stdDev : string
}.

Record QgsRasterLayer : Type := {
  xSize : N;
  ySize : N;
  bandCount : N;
  dataTypeSize : N;
  bandStatistics : Z -> QgsRasterBandStats
}.

(** ** RasterIndexCalculatorTask.py *)

Module RasterIndexCalculatorTask.

(** The dictionary a task leaves in [self.result]. *)
Record task_result : Type := {
  result_index : string;
  calculation_status : string;
  message : option string;
  result_output_file : option string;
  time_spent : Q;
  saving_status : option string
}.

(** A task object.  [tid] stands for the identity of the object: the
    scheduler numbers the tasks in the order it creates them.  The progress
    and the result, which the execution backend sets, are kept with the
    backend. *)
Record t : Type := {
  tid : nat;
  description : string;
  raster_layer : QgsRasterLayer;
  total_memory_usage : Q;
  index : string;
  formula : string;
  band_mapping : dict Z;
  output_in_memory_file : string;
  output_file : string
}.

(** What [QgsRasterCalculator.processCalculation] does for [run]: it
    succeeds, returns another code (with [lastError]), or something in the
    [try] block raises once the clock is started ([e] is the text of the
    exception). *)
Inductive evaluation : Type :=
| Success
| Failure (lastError : string)
| Crash (e : string).

(** The result [run] leaves in the task before it sets the progress to
    100 (lines 38-83 of RasterIndexCalculatorTask.py). *)
Definition run (self : t) (ev : evaluation) (elapsed : Q) : task_result :=
  match ev with
  | Success =>
      {| result_index := index self; calculation_status := "success";
         message := None; result_output_file := None;
         time_spent := elapsed; saving_status := None |}
  | Failure lastError =>
      {| result_index := index self; calculation_status := "error";
         message := Some lastError; result_output_file := None;
         time_spent := elapsed; saving_status := None |}
  | Crash e =>
      {| result_index := index self; calculation_status := "exception";
         message := Some e; result_output_file := None;
         time_spent := elapsed; saving_status := None |}
  end.

End RasterIndexCalculatorTask.

(** ** RasterSaveTask.py *)

Module RasterSaveTask.

Import RasterIndexCalculatorTask.

(** The tuple [add_tasks] puts in the queue. *)
Record queue_item : Type := {
  item_output_file : string;
  item_output_in_memory_file : string;
  estimated_size : Q;
  item_description : string;
  item_result : task_result
}.

(** The dictionary [run] appends to [__saved_rasters]. *)
Record saved_raster : Type := {
  total_saved_size : Q;
  saved_description : string;
  saved_output_file : string;
  result : task_result
}.

Record t : Type := {
  task_queue : list queue_item;
  running : bool;
  saved_rasters : list saved_raster
}.

Definition init : t :=
  {| task_queue := []; running := true; saved_rasters := [] |}.

(** [add_tasks] (lines 26-34).  A finished task is passed with the result
    it holds. *)
Definition add_tasks (tasks : list (RasterIndexCalculatorTask.t * task_result))
    (self : t) : t :=
  {| task_queue :=
       task_queue self ++
       map (fun tr =>
              {| item_output_file := output_file (fst tr);
                 item_output_in_memory_file := output_in_memory_file (fst tr);
                 estimated_size := total_memory_usage (fst tr);
                 item_description := description (fst tr);
                 item_result := snd tr |}) tasks;
     running := running self;
     saved_rasters := saved_rasters self |}.

(** [with self.lock: self.__saved_rasters.append(record)] *)
Definition append_saved (record : saved_raster) (self : t) : t :=
  {| task_queue := task_queue self;
     running := running self;
     saved_rasters := saved_rasters self ++ [record] |}.

Definition with_saving_status (r : task_result) (s : string) : task_result :=
  {| result_index := result_index r;
     calculation_status := calculation_status r;
     message := message r;
     result_output_file := result_output_file r;
     time_spent := time_spent r;
     saving_status := Some s |}.

(** One pass of the loop of [run] (lines 43-72) once the queue holds an
    item.
    [conversion] is what [gdal.Translate] does: [None] when it returns,
    [Some e] when it raises [e].  With an empty queue the worker waits, and
    once [running] is cleared it leaves the loop: in both cases there is no
    pass. *)
Definition run_pass (conversion : option string) (self : t) : option t :=
  if running self then
    match task_queue self with
    | [] => None
    | item :: queue =>
        let status :=
          match conversion with
          | None => "success"
          | Some e => "error - " ++ e
          end in
        Some (append_saved
                {| total_saved_size := estimated_size item;
                   saved_description := item_description item;
                   saved_output_file := item_output_file item;
                   result := with_saving_status (item_result item) status |}
                {| task_queue := queue;
                   running := running self;
                   saved_rasters := saved_rasters self |})
    end
  else None.

Definition cancel (self : t) : t :=
  {| task_queue := task_queue self;
     running := false;
     saved_rasters := saved_rasters self |}.

(** [get_and_reset_saved_rasters] (lines 86-94): the copy that is
    returned, and the object with its list cleared. *)
Definition get_and_reset_saved_rasters (self : t) : list saved_raster * t :=
  (saved_rasters self,
   {| task_queue := task_queue self;
      running := running self;
      saved_rasters := [] |}).

(** Accesses to the completion buffer, in the order the lock grants them. *)
Inductive buffer_op : Type :=
| Append (record : saved_raster)
| Drain.

(** The lists the drains of [ops] return, in order, and the object after
    [ops]. *)
Fixpoint run_ops (ops : list buffer_op) (self : t)
  : list (list saved_raster) * t :=
  match ops with
  | [] => ([], self)
  | Append record :: ops' => run_ops ops' (append_saved record self)
  | Drain :: ops' =>
      let (out, self') := get_and_reset_saved_rasters self in
      let (outs, self'') := run_ops ops' self' in
      (out :: outs, self'')
  end.

(** The records [ops] appends, in order. *)
Fixpoint appended (ops : list buffer_op) : list saved_raster :=
  match ops with
  | [] => []
  | Append record :: ops' => record :: appended ops'
  | Drain :: ops' => appended ops'
  end.

End RasterSaveTask.

(** ** RasterIndexCalculator.py *)

Module RasterIndexCalculator.

Import PyStr.

(** *** The formula resolver *)

(** The class attribute [indices_formulas] (lines 9-42). *)
Definition indices_formulas : dict string := [
  ("Rnorm", "R / func_band_max(R)");
  ("Gnorm", "G / func_band_max(G)");
  ("Bnorm", "B / func_band_max(B)");
  ("Rrefl_stary", "R / (R + G + B)");
  ("Grefl_stary", "G / (R + G + B)");
  ("Brefl_stary", "B / (R + G + B)");
  ("ExR_stary", "MISSING");
  ("ExG_stary", "2 * func_index(Grefl_stary) - func_index(Rrefl_stary) - func_index(Brefl_stary)");
  ("ExGR_stary", "func_index(ExG_stary) - func_index(ExR_stary)");
  ("ExR_wernette", "1.4 * R - G");
  ("ExG_wernette", "2 * G - R - B");
  ("ExB_wernette", "1.4 * B - G");
  ("ExGR_wernette", "func_index(ExG_wernette) - func_index(ExR_wernette)");
  ("NGRDI_wernette", "(G - R) / (G + R)");
  ("MGRVI_wernette", "(G^2 - R^2) / (G^2 + R^2)");
  ("GLI_wernette", "(2 * G - R - B) / (2 * G + R + B)");
  ("GLI_stary", "((G - R)+ (G - B)) / (2 * G + R + B)");
  ("RGBVI_wernette", "(G - (B * R)) / (G^2 + (B * R))");
  ("RGBVI_stary", "(G ^ 2 - (B * R)) / (G ^ 2 + (B * R))");
  ("IKAW_wernette", "(R - B) / (R + B)");
  ("GLA_wernette", "((G - R) + (G - B)) / ((G + R) + (G + B))");
  ("Gperc_stary", "G / (R + G + B)");
  ("VARI_stary", "(G - R) / (G + R - B)");
  ("TGI_stary", "G - 0.39 * R - 0.61 * B");
  ("ExR_george", "1.4 * func_index(r_george) - func_index(g_george)");
  ("ExG_george", "2 * func_index(g_george) - func_index(r_george) - func_index(b_george)");
  ("ExGR_george", "func_index(ExG_george) - func_index(ExR_george)");
  ("r_george", "func_index(Rnorm) / (func_index(Rnorm) + func_index(Gnorm) + func_index(Bnorm))");
  ("g_george", "func_index(Gnorm) / (func_index(Rnorm) + func_index(Gnorm) + func_index(Bnorm))");
  ("b_george", "func_index(Bnorm) / (func_index(Rnorm) + func_index(Gnorm) + func_index(Bnorm))");
  ("NGRDI_stary", "(G - R) / (G + R)");
  ("ExGRnorm_george", "(func_index(ExGR_george) + 2.4) / 5.4")
].

(** One element of the list [extract_special_functions] returns. *)
Record special_function : Type := {
  whole_match : string;
  function_name : string;
  parameters : list string
}.

(** The three groups of one match of the pattern of
    [extract_special_functions]: the whole match, the word after [func_]
    and the text between the parentheses. *)
Record re_groups : Type := {
  full_match : string;
  func_name : string;
  params : string
}.

Definition not_rparen (c : ascii) : bool := negb (Ascii.eqb c ")").

(** The text of a call [func_<name>(<args>)]. *)
Definition call_text (name args : string) : string :=
  "func_" ++ name ++ "(" ++ args ++ ")".

(** A match of the pattern anchored at the start of [s], with the text after
    it: [func_], one or more word characters, an opening parenthesis, any
    characters other than a closing parenthesis, a closing parenthesis.  Both
    runs are greedy and each is followed by a character outside its class,
    so the longest run is the only one that can match: backtracking to a
    shorter run leaves a word character where the opening parenthesis is
    due, or a character other than the closing parenthesis where that one
    is due. *)
Definition match_here (s : string) : option (re_groups * string) :=
  match drop_prefix "func_" s with
  | Some r1 =>
      let (name, r2) := span is_word r1 in
      match name, r2 with
      | String _ _, String "(" r3 =>
          let (args, r4) := span not_rparen r3 in
          match r4 with
          | String ")" r5 =>
              Some ({| full_match := call_text name args;
                       func_name := name;
                       params := args |}, r5)
          | _ => None
          end
      | _, _ => None
      end
  | None => None
  end.

(** [re.findall]: the matches from left to right, the scan resuming after
    each match. *)
Fixpoint findall_from (skip : nat) (s : string) : list re_groups :=
  match s with
  | EmptyString => []
  | String _ s' =>
      match skip with
      | S k => findall_from k s'
      | O =>
          match match_here s with
          | Some (g, _) =>
              g :: findall_from (String.length (full_match g) - 1) s'
          | None => findall_from 0 s'
          end
      end
  end.

Definition findall (s : string) : list re_groups := findall_from 0 s.

(** [[param.strip() for param in params.split(",") if param.strip()]] *)
Definition param_list (params : string) : list string :=
  map strip
    (filter (fun p => negb (String.eqb (strip p) "")) (split "," params)).

(** [extract_special_functions] (lines 144-168) *)
Definition extract_special_functions (expression : string)
  : list special_function :=
  map (fun g => {| whole_match := full_match g;
                   function_name := func_name g;
                   parameters := param_list (params g) |})
      (findall expression).

(** [band_mapping[params[0]]] and [indices_formulas[params[0]]]. *)
Definition subscript0 (l : list string) : outcome string :=
  match l with
  | [] => Raises IndexError
  | p :: _ => Returns p
  end.

Definition subscript {V : Type} (d : dict V) (k : string) : outcome V :=
  match dict_get d k with
  | Some v => Returns v
  | None => Raises (KeyError k)
  end.

(** The body of [for func in special_functions] (lines 118-137).  A name
    that is none of the five leaves [built_index] as it is. *)
Definition apply_function (formulas : dict string) (raster : QgsRasterLayer)
    (band_mapping : dict Z) (built_index : string) (func : special_function)
  : outcome string :=
  let full := whole_match func in
  let func_name := function_name func in
  let params := parameters func in
  let band_stat (field : QgsRasterBandStats -> string) :=
    p <- subscript0 params ;;
    b <- subscript band_mapping p ;;
    Returns (replace full (field (bandStatistics raster b)) built_index) in
  if String.eqb func_name "band_max" then band_stat maximumValue
  else if String.eqb func_name "band_min" then band_stat minimumValue
  else if String.eqb func_name "band_mean" then band_stat mean
  else if String.eqb func_name "band_stddev" then band_stat stdDev
  else if String.eqb func_name "index" then
    p <- subscript0 params ;;
    index_val <- subscript formulas p ;;
    Returns (replace full ("(" ++ index_val ++ ")") built_index)
  else Returns built_index.

Fixpoint apply_functions (formulas : dict string) (raster : QgsRasterLayer)
    (band_mapping : dict Z) (built_index : string)
    (special_functions : list special_function) : outcome string :=
  match special_functions with
  | [] => Returns built_index
  | func :: rest =>
      b <- apply_function formulas raster band_mapping built_index func ;;
      apply_functions formulas raster band_mapping b rest
  end.

(** The [while len(special_functions) > 0] loop (lines 116-139); one unit
    of fuel is one round. *)
Fixpoint expansion_loop (fuel : nat) (formulas : dict string)
    (raster : QgsRasterLayer) (band_mapping : dict Z) (built_index : string)
    (special_functions : list special_function) : outcome string :=
  match special_functions with
  | [] => Returns built_index
  | _ :: _ =>
      match fuel with
      | O => Diverges
      | S fuel' =>
          b <- apply_functions formulas raster band_mapping built_index
                 special_functions ;;
          expansion_loop fuel' formulas raster band_mapping b
            (extract_special_functions b)
      end
  end.

(** [calculate_special_functions(raster, index, band_mapping)] (lines
    110-142), over the formula table it reads. *)
Definition calculate_special_functions_in (formulas : dict string)
    (fuel : nat) (raster : QgsRasterLayer) (index : string)
    (band_mapping : dict Z) : outcome string :=
  expansion_loop fuel formulas raster band_mapping index
    (extract_special_functions index).

Definition calculate_special_functions :=
  calculate_special_functions_in indices_formulas.

(** *** The scheduler *)

Import RasterIndexCalculatorTask.

(** What the program takes from its platform: the raster loader
    ([QgsRasterLayer(file, ...)], [None] when [isValid()] is false),
    [os.path.split(os.path.splitext(file)[0])[-1]], [os.path.join], and the
    number of rounds the expansion loop of the resolver is followed for. *)
Record platform : Type := {
  load : string -> option QgsRasterLayer;
  file_stem : string -> string;
  path_join : string -> string -> string;
  resolver_fuel : nat
}.

Record t : Type := {
  input_files : list string;
  selected_indices : list string;
  self_band_mapping : dict Z;
  output_dir : string;
  results : list task_result;
  max_memory_usage : Q;
  max_active_tasks : Z;
  active_tasks : list RasterIndexCalculatorTask.t;
  saving_tasks_queue : list (RasterIndexCalculatorTask.t * task_result);
  memory_usage : Q;
  number_of_tasks : nat;
  progress : Q;
  progress_step : Q;
  raster_save_task : RasterSaveTask.t
}.

Definition set_results (v : list task_result) (self : t) : t :=
  {| input_files := input_files self;
     selected_indices := selected_indices self;
     self_band_mapping := self_band_mapping self;
     output_dir := output_dir self;
     results := v;
     max_memory_usage := max_memory_usage self;
     max_active_tasks := max_active_tasks self;
     active_tasks := active_tasks self;
     saving_tasks_queue := saving_tasks_queue self;
     memory_usage := memory_usage self;
     number_of_tasks := number_of_tasks self;
     progress := progress self;
     progress_step := progress_step self;
     raster_save_task := raster_save_task self |}.

Definition set_active_tasks (v : list RasterIndexCalculatorTask.t) (self : t)
  : t :=
  {| input_files := input_files self;
     selected_indices := selected_indices self;
     self_band_mapping := self_band_mapping self;
     output_dir := output_dir self;
     results := results self;
     max_memory_usage := max_memory_usage self;
     max_active_tasks := max_active_tasks self;
     active_tasks := v;
     saving_tasks_queue := saving_tasks_queue self;
     memory_usage := memory_usage self;
     number_of_tasks := number_of_tasks self;
     progress := progress self;
     progress_step := progress_step self;
     raster_save_task := raster_save_task self |}.

Definition set_saving_tasks_queue
    (v : list (RasterIndexCalculatorTask.t * task_result)) (self : t) : t :=
  {| input_files := input_files self;
     selected_indices := selected_indices self;
     self_band_mapping := self_band_mapping self;
     output_dir := output_dir self;
     results := results self;
     max_memory_usage := max_memory_usage self;
     max_active_tasks := max_active_tasks self;
     active_tasks := active_tasks self;
     saving_tasks_queue := v;
     memory_usage := memory_usage self;
     number_of_tasks := number_of_tasks self;
     progress := progress self;
     progress_step := progress_step self;
     raster_save_task := raster_save_task self |}.

Definition set_memory_usage (v : Q) (self : t) : t :=
  {| input_files := input_files self;
     selected_indices := selected_indices self;
     self_band_mapping := self_band_mapping self;
     output_dir := output_dir self;
     results := results self;
     max_memory_usage := max_memory_usage self;
     max_active_tasks := max_active_tasks self;
     active_tasks := active_tasks self;
     saving_tasks_queue := saving_tasks_queue self;
     memory_usage := v;
     number_of_tasks := number_of_tasks self;
     progress := progress self;
     progress_step := progress_step self;
     raster_save_task := raster_save_task self |}.

Definition set_progress (v : Q) (self : t) : t :=
  {| input_files := input_files self;
     selected_indices := selected_indices self;
     self_band_mapping := self_band_mapping self;
     output_dir := output_dir self;
     results := results self;
     max_memory_usage := max_memory_usage self;
     max_active_tasks := max_active_tasks self;
     active_tasks := active_tasks self;
     saving_tasks_queue := saving_tasks_queue self;
     memory_usage := memory_usage self;
     number_of_tasks := number_of_tasks self;
     progress := v;
     progress_step := progress_step self;
     raster_save_task := raster_save_task self |}.

Definition set_raster_save_task (v : RasterSaveTask.t) (self : t) : t :=
  {| input_files := input_files self;
     selected_indices := selected_indices self;
     self_band_mapping := self_band_mapping self;
     output_dir := output_dir self;
     results := results self;
     max_memory_usage := max_memory_usage self;
     max_active_tasks := max_active_tasks self;
     active_tasks := active_tasks self;
     saving_tasks_queue := saving_tasks_queue self;
     memory_usage := memory_usage self;
     number_of_tasks := number_of_tasks self;
     progress := progress self;
     progress_step := progress_step self;
     raster_save_task := v |}.

(** [__calculate_progress_step] (lines 248-249):
    [100 / self.number_of_tasks] *)
Definition calculate_progress_step (number_of_tasks : nat) : outcome Q :=
  match number_of_tasks with
  | O => Raises ZeroDivisionError
  | S _ => Returns ((100 # 1) / inject_Z (Z.of_nat number_of_tasks))%Q
  end.

(** [__init__] (lines 44-60) *)
Definition init (input_files : list string) (selected_indices : string)
    (band_mapping : dict Z) (output_dir : string) (max_memory_usage : Q)
    (max_active_tasks : Z) : outcome t :=
  let selected := split "," selected_indices in
  let number_of_tasks := (List.length input_files * List.length selected)%nat in
  step <- calculate_progress_step number_of_tasks ;;
  Returns
    {| input_files := input_files;
       selected_indices := selected;
       self_band_mapping := band_mapping;
       output_dir := output_dir;
       results := [];
       max_memory_usage := max_memory_usage;
       max_active_tasks := max_active_tasks;
       active_tasks := [];
       saving_tasks_queue := [];
       memory_usage := 0%Q;
       number_of_tasks := number_of_tasks;
       progress := 0%Q;
       progress_step := step;
       raster_save_task := RasterSaveTask.init |}.

(** [load_raster_layer(file)] (lines 69-75) *)
Definition load_raster_layer (P : platform) (file : string)
  : outcome QgsRasterLayer :=
  match load P file with
  | Some raster_layer => Returns raster_layer
  | None => Raises (QgsProcessingException ("Invalid raster file: " ++ file))
  end.

(** [__validate_indices] (lines 77-81) *)
Fixpoint validate_indices (selected_indices : list string) : outcome unit :=
  match selected_indices with
  | [] => Returns tt
  | index :: rest =>
      if dict_mem indices_formulas index then validate_indices rest
      else Raises (ValueError ("Unsupported index: " ++ index))
  end.

(** [__calculate_raster_memory_usage] (lines 293-306), in megabytes. *)
Definition calculate_raster_memory_usage (raster : QgsRasterLayer) : Q :=
  let width := ySize raster in
  let height := xSize raster in
  let bands := bandCount raster in
  let bytes_per_pixel := dataTypeSize raster in
  let memory_usage :=
    inject_Z (Z.of_N (width * height * bands * bytes_per_pixel)) in
  (memory_usage / (1024 # 1) / (1024 # 1))%Q.

(** The generator [create_tasks] returns (lines 83-108): the input files
    it has not opened yet, the raster it is working on with the indices
    still to do for it, and the number of tasks it has created. *)
Record opened_raster : Type := {
  input_file_name : string;
  opened_layer : QgsRasterLayer;
  opened_memory_usage : Q;
  indices_left : list string
}.

Record generator : Type := {
  gen_output_dir : string;
  gen_band_mapping : dict Z;
  gen_selected_indices : list string;
  files_left : list string;
  opened : option opened_raster;
  created : nat
}.

Definition create_tasks (input_files : list string) (output_dir : string)
    (band_mapping : dict Z) (selected_indices : list string) : generator :=
  {| gen_output_dir := output_dir;
     gen_band_mapping := band_mapping;
     gen_selected_indices := selected_indices;
     files_left := input_files;
     opened := None;
     created := 0 |}.

(** The body of the inner loop up to [yield task]. *)
Definition make_task (P : platform) (g : generator) (name : string)
    (raster_layer : QgsRasterLayer) (total : Q) (index : string)
  : outcome RasterIndexCalculatorTask.t :=
  template <- subscript indices_formulas index ;;
  formula <- calculate_special_functions (resolver_fuel P) raster_layer
               template (gen_band_mapping g) ;;
  Returns
    {| tid := created g;
       description := "Calculate " ++ index;
       raster_layer := raster_layer;
       total_memory_usage := total;
       index := index;
       formula := formula;
       band_mapping := gen_band_mapping g;
       output_in_memory_file := "/vsimem/" ++ name ++ "_" ++ index ++ ".tiff";
       output_file :=
         path_join P (gen_output_dir g) (name ++ "_" ++ index ++ ".tiff") |}.

Definition yield (g : generator) (files : list string)
    (o : opened_raster) (rest : list string)
    (task : RasterIndexCalculatorTask.t)
  : option (RasterIndexCalculatorTask.t * generator) :=
  Some (task,
        {| gen_output_dir := gen_output_dir g;
           gen_band_mapping := gen_band_mapping g;
           gen_selected_indices := gen_selected_indices g;
           files_left := files;
           opened :=
             Some {| input_file_name := input_file_name o;
                     opened_layer := opened_layer o;
                     opened_memory_usage := opened_memory_usage o;
                     indices_left := rest |};
           created := S (created g) |}).

(** The outer loop from its head: open the next file and go on to the
    first index. *)
Fixpoint next_file (P : platform) (g : generator) (files : list string)
  : outcome (option (RasterIndexCalculatorTask.t * generator)) :=
  match files with
  | [] => Returns None
  | input_file :: files' =>
      raster_layer <- load_raster_layer P input_file ;;
      let raster_memory_usage := calculate_raster_memory_usage raster_layer in
      total <- (if N.eqb (bandCount raster_layer) 0
                then Raises ZeroDivisionError
                else Returns (raster_memory_usage +
                              raster_memory_usage /
                              inject_Z (Z.of_N (bandCount raster_layer)))%Q) ;;
      match gen_selected_indices g with
      | [] => next_file P g files'
      | index :: rest =>
          let name := file_stem P input_file in
          task <- make_task P g name raster_layer total index ;;
          Returns (yield g files'
                     {| input_file_name := name;
                        opened_layer := raster_layer;
                        opened_memory_usage := total;
                        indices_left := rest |} rest task)
      end
  end.

(** [next(task_generator)]: [None] is [StopIteration]. *)
Definition next (P : platform) (g : generator)
  : outcome (option (RasterIndexCalculatorTask.t * generator)) :=
  match opened g with
  | Some o =>
      match indices_left o with
      | index :: rest =>
          task <- make_task P g (input_file_name o) (opened_layer o)
                    (opened_memory_usage o) index ;;
          Returns (yield g (files_left g) o rest task)
      | [] => next_file P g (files_left g)
      end
  | None => next_file P g (files_left g)
  end.

(** [round(x, 1)]: to the nearest tenth, ties to the even one.  The
    progress is a value for display; it is rounded here as a rational. *)
Definition round_half_even (q : Q) : Z :=
  let n := Qnum q in
  let d := Zpos (Qden q) in
  let f := (n / d)%Z in
  match (2 * (n mod d) ?= d)%Z with
  | Lt => f
  | Gt => (f + 1)%Z
  | Eq => if Z.even f then f else (f + 1)%Z
  end.

Definition round1 (q : Q) : Q :=
  (inject_Z (round_half_even (q * (10 # 1))) / (10 # 1))%Q.

(** [__increase_progress] *)
Definition increase_progress (self : t) : t :=
  set_progress (round1 (progress self + progress_step self)) self.

(** [list.remove(task)] on a list of task objects: the first element that
    is this object goes. *)
Fixpoint remove (task : RasterIndexCalculatorTask.t)
    (l : list RasterIndexCalculatorTask.t) : list RasterIndexCalculatorTask.t :=
  match l with
  | [] => []
  | x :: l' => if Nat.eqb (tid x) (tid task) then l' else x :: remove task l'
  end.

(** What the backend has set in the task objects: [finished id] is the
    result of the task [id] once its progress is 100, and [None] before. *)
Definition progress_table : Type := list (nat * task_result).

Fixpoint finished (table : progress_table) (id : nat) : option task_result :=
  match table with
  | [] => None
  | (id', r) :: table' => if Nat.eqb id id' then Some r else finished table' id
  end.

(** The body of [for task in self.active_tasks] of
    [__transfer_finished_tasks_to_saving_queue] (lines 280-291).  The list is changed while
    it is iterated: the iterator holds a position [i] and stops when [i] is
    past the end of the list as it then is.  Each pass moves the position
    one up, so the loop makes at most as many passes as the list was long
    at the start. *)
Fixpoint transfer_from (passes i : nat) (table : progress_table) (self : t)
  : t :=
  match passes with
  | O => self
  | S passes' =>
      match nth_error (active_tasks self) i with
      | None => self
      | Some task =>
          match finished table (tid task) with
          | Some r =>
              let self1 :=
                if String.eqb (calculation_status r) "success"
                then set_saving_tasks_queue
                       (saving_tasks_queue self ++ [(task, r)]) self
                else increase_progress
                       (set_results (results self ++ [r])
                          (set_memory_usage
                             (memory_usage self - total_memory_usage task)%Q
                             self)) in
              transfer_from passes' (S i) table
                (set_active_tasks (remove task (active_tasks self1)) self1)
          | None => transfer_from passes' (S i) table self
          end
      end
  end.

Definition transfer_finished_tasks_to_saving_queue (table : progress_table)
    (self : t) : t :=
  transfer_from (List.length (active_tasks self)) 0 table self.

(** [__save_rasters_from_memory_to_disk] (lines 241-246) *)
Definition save_rasters_from_memory_to_disk (self : t) : t :=
  set_saving_tasks_queue []
    (set_raster_save_task
       (RasterSaveTask.add_tasks (saving_tasks_queue self)
          (raster_save_task self)) self).

(** [__get_saved_rasters] (lines 234-239) *)
Definition take_saved (self : t) (saved : RasterSaveTask.saved_raster) : t :=
  set_memory_usage
    (memory_usage self - RasterSaveTask.total_saved_size saved)%Q
    (increase_progress
       (set_results (results self ++ [RasterSaveTask.result saved]) self)).

Definition get_saved_rasters (self : t) : t :=
  let (saved, save_task) :=
    RasterSaveTask.get_and_reset_saved_rasters (raster_save_task self) in
  fold_left take_saved saved (set_raster_save_task save_task self).

(** The result recorded for a task that is too large for the budget
    (line 184). *)
Definition rejection (task : RasterIndexCalculatorTask.t) : task_result :=
  {| result_index := index task;
     calculation_status := "error";
     message := Some ("Task " ++ description task
                      ++ " exceeds the maximum memory usage");
     result_output_file := None;
     time_spent := 0%Q;
     saving_status := None |}.

(** [a > b] and [a >= b] on sizes. *)
Definition gt (a b : Q) : bool := negb (Qle_bool a b).
Definition ge (a b : Q) : bool := Qle_bool b a.

(** The two tests of the wait after a sweep (lines 200-201). *)
Definition over_either (self : t) : bool :=
  ge (memory_usage self) (max_memory_usage self)
  || (max_active_tasks self <=? Z.of_nat (List.length (active_tasks self)))%Z.

Definition over_both (self : t) : bool :=
  ge (memory_usage self) (max_memory_usage self)
  && (max_active_tasks self <=? Z.of_nat (List.length (active_tasks self)))%Z.

Definition none_finished (table : progress_table) (self : t) : bool :=
  forallb (fun task => match finished table (tid task) with
                       | Some _ => false
                       | None => true
                       end) (active_tasks self).

(** *** [execute], one step at a time

    The control loop runs next to the execution backend and the save
    worker.  Its state is [self], the task generator, what it has handed to
    the task manager, and the place it has reached in [execute]: before
    the validation of the indices ([Start]), at the head of the [for] loop
    over the generator ([NextTask]), in one of the three calls of a sweep,
    at the [if] or the [while] of the wait after a sweep or in its sleep,
    at the test or in the sleep of one of the two closing loops, or out of
    [execute], which has returned or raised.  [Hung] stands for the
    expansion loop of the resolver not coming to an end. *)

Inductive sweep_of : Type :=
| ForLoop       (* the sweep after an admission *)
| ActiveLoop    (* the sweep of [while len(self.active_tasks) > 0] *)
| ResultsLoop.  (* the drain of [while len(self.results) < ...] *)

Inductive place : Type :=
| Start
| NextTask
| Transfer (k : sweep_of)
| Save (k : sweep_of)
| GetSaved (k : sweep_of)
| WaitIf
| WaitWhile
| WaitSleep
| ActiveWhile
| ActiveSleep
| ResultsWhile
| ResultsSleep
| Returned
| Raised (e : exn)
| Hung.

Record process : Type := {
  self : t;
  task_generator : generator;
  save_task_added : bool;
  submitted : list RasterIndexCalculatorTask.t;
  table : progress_table;
  at_place : place
}.

Definition goto (p : place) (w : process) : process :=
  {| self := self w; task_generator := task_generator w;
     save_task_added := save_task_added w; submitted := submitted w;
     table := table w; at_place := p |}.

Definition with_self (p : place) (s : t) (w : process) : process :=
  {| self := s; task_generator := task_generator w;
     save_task_added := save_task_added w; submitted := submitted w;
     table := table w; at_place := p |}.

Definition after_sweep (k : sweep_of) : place :=
  match k with
  | ForLoop => WaitIf
  | ActiveLoop => ActiveWhile
  | ResultsLoop => ResultsWhile
  end.

(** The next step of [execute] (lines 171-232). *)
Definition execute_step (P : platform) (w : process) : process :=
  match at_place w with
  | Start =>
      match validate_indices (selected_indices (self w)) with
      | Raises e => goto (Raised e) w
      | Diverges => goto Hung w
      | Returns _ =>
          {| self := self w;
             task_generator := task_generator w;
             save_task_added := true;
             submitted := submitted w;
             table := table w;
             at_place := NextTask |}
      end
  | NextTask =>
      match next P (task_generator w) with
      | Raises e => goto (Raised e) w
      | Diverges => goto Hung w
      | Returns None => goto ActiveWhile w
      | Returns (Some (task, g)) =>
          if gt (total_memory_usage task) (max_memory_usage (self w))
          then
            {| self := set_results (results (self w) ++ [rejection task])
                         (self w);
               task_generator := g;
               save_task_added := save_task_added w;
               submitted := submitted w;
               table := table w;
               at_place := NextTask |}
          else
            {| self :=
                 set_active_tasks (active_tasks (self w) ++ [task])
                   (set_memory_usage
                      (memory_usage (self w) + total_memory_usage task)%Q
                      (self w));
               task_generator := g;
               save_task_added := save_task_added w;
               submitted := submitted w ++ [task];
               table := table w;
               at_place := Transfer ForLoop |}
      end
  | Transfer k =>
      with_self (Save k)
        (transfer_finished_tasks_to_saving_queue (table w) (self w)) w
  | Save k =>
      with_self (GetSaved k) (save_rasters_from_memory_to_disk (self w)) w
  | GetSaved k =>
      with_self (after_sweep k) (get_saved_rasters (self w)) w
  | WaitIf =>
      if over_either (self w) then goto WaitWhile w else goto NextTask w
  | WaitWhile =>
      if over_both (self w) && none_finished (table w) (self w)
      then goto WaitSleep w else goto NextTask w
  | WaitSleep => goto WaitWhile w
  | ActiveWhile =>
      if (0 <? List.length (active_tasks (self w)))%nat
      then goto ActiveSleep w else goto ResultsWhile w
  | ActiveSleep => goto (Transfer ActiveLoop) w
  | ResultsWhile =>
      if (List.length (results (self w)) <? number_of_tasks (self w))%nat
      then goto ResultsSleep w else goto Returned w
  | ResultsSleep => goto (GetSaved ResultsLoop) w
  | Returned => w
  | Raised _ => w
  | Hung => w
  end.

(** The state in which [execute] is called on a fresh object.  Calling
    [create_tasks] only builds the generator, nothing of its body runs
    before the first [next]: the generator is there from the start. *)
Definition start (s : t) : process :=
  {| self := s;
     task_generator :=
       create_tasks (input_files s) (output_dir s) (self_band_mapping s)
         (selected_indices s);
     save_task_added := false;
     submitted := [];
     table := [];
     at_place := Start |}.

(** What can happen next: the control loop takes its step, a task that
    was submitted finishes, or the save worker makes a pass.

    A sweep is one step of the control loop although tasks may finish while
    it runs.  Tasks finish independently of each other, a task that has
    finished stays so, and a sweep reads each task at most once: a sweep
    that overlaps with tasks finishing sees what an undivided sweep sees
    when the tasks it found finished had finished before it and the others
    finish after it.  A pass of the save worker is one step too: the
    control loop sees nothing of it before the record is in the completion
    buffer. *)
Inductive event : Type :=
| Control
| TaskFinishes (id : nat) (ev : evaluation) (elapsed : Q)
| SaveWorker (conversion : option string).

Definition find_task (id : nat) (l : list RasterIndexCalculatorTask.t)
  : option RasterIndexCalculatorTask.t :=
  find (fun task => Nat.eqb (tid task) id) l.

Definition fire (P : platform) (e : event) (w : process) : option process :=
  match e with
  | Control => Some (execute_step P w)
  | TaskFinishes id ev elapsed =>
      match find_task id (submitted w), finished (table w) id with
      | Some task, None =>
          Some {| self := self w; task_generator := task_generator w;
                  save_task_added := save_task_added w;
                  submitted := submitted w;
                  table := (id, RasterIndexCalculatorTask.run task ev elapsed)
                           :: table w;
                  at_place := at_place w |}
      | _, _ => None
      end
  | SaveWorker conversion =>
      if save_task_added w then
        match RasterSaveTask.run_pass conversion (raster_save_task (self w))
        with
        | Some save_task =>
            Some (with_self (at_place w)
                    (set_raster_save_task save_task (self w)) w)
        | None => None
        end
      else None
  end.

Fixpoint run (P : platform) (events : list event) (w : process)
  : option process :=
  match events with
  | [] => Some w
  | e :: events' =>
      match fire P e w with
      | Some w' => run P events' w'
      | None => None
      end
  end.

(** The states a run of [execute] on [s] passes through. *)
Definition reachable (P : platform) (s : t) (w : process) : Prop :=
  exists events, run P events (start s) = Some w.

End RasterIndexCalculator.


(** ** Well-formed templates

    The resolver handles five macros.  A template is well formed when every
    place where [func_] occurs in it begins a call of one of them whose
    argument text holds no further [func_] and whose first argument is a
    band symbol of the mapping (statistics) or the name of a formula that
    is well formed in turn ([index]).  The nesting of [index] references is
    bounded by a depth, which is what an acyclic dependency graph gives. *)

Module FormulaSpec.

Import PyStr RasterIndexCalculator.

(** The statistic a macro name stands for. *)
Definition band_field (name : string)
  : option (QgsRasterBandStats -> string) :=
  if String.eqb name "band_max" then Some maximumValue
  else if String.eqb name "band_min" then Some minimumValue
  else if String.eqb name "band_mean" then Some mean
  else if String.eqb name "band_stddev" then Some stdDev
  else None.

Definition good_call (ok_index : string -> bool) (band_mapping : dict Z)
    (g : re_groups) : bool :=
  negb (occurs "func_" (params g)) &&
  match param_list (params g) with
  | [] => false
  | p :: _ =>
      match band_field (func_name g) with
      | Some _ => dict_mem band_mapping p
      | None => String.eqb (func_name g) "index" && ok_index p
      end
  end.

Fixpoint calls_good (ok_index : string -> bool) (band_mapping : dict Z)
    (s : string) : bool :=
  match s with
  | EmptyString => true
  | String _ s' =>
      (if startswith "func_" s then
         match match_here s with
         | Some (g, _) => good_call ok_index band_mapping g
         | None => false
         end
       else true)
      && calls_good ok_index band_mapping s'
  end.

(** The formula [name] exists and expands completely in at most [depth]
    levels of [index] references. *)
Fixpoint expands_within (depth : nat) (formulas : dict string)
    (band_mapping : dict Z) (name : string) : bool :=
  match depth with
  | O => false
  | S d =>
      match dict_get formulas name with
      | None => false
      | Some template =>
          calls_good (expands_within d formulas band_mapping) band_mapping
            template
      end
  end.

Definition well_formed (depth : nat) (formulas : dict string)
    (band_mapping : dict Z) (template : string) : bool :=
  calls_good (expands_within depth formulas band_mapping) band_mapping
    template.

(** The text [str()] gives for a finite float: digits, sign, point and
    exponent mark. *)
Definition number_char (c : ascii) : bool :=
  let n := nat_of_ascii c in
  (((48 <=? n) && (n <=? 57)) || (n =? 46) || (n =? 101) || (n =? 43)
   || (n =? 45))%nat.

Definition number_text (s : string) : bool :=
  match s with
  | EmptyString => false
  | String _ _ => all_chars number_char s
  end.

Definition finite_statistics (raster : QgsRasterLayer) : Prop :=
  forall b : Z,
    number_text (maximumValue (bandStatistics raster b)) = true /\
    number_text (minimumValue (bandStatistics raster b)) = true /\
    number_text (mean (bandStatistics raster b)) = true /\
    number_text (stdDev (bandStatistics raster b)) = true.

(** The same notion as a derivation, with the number of substitutions the
    template still needs. *)
Inductive resolvable (formulas : dict string) (band_mapping : dict Z)
  : string -> nat -> Prop :=
| res_nil : resolvable formulas band_mapping EmptyString 0
| res_chr c s w :
    startswith "func_" (String c s) = false ->
    resolvable formulas band_mapping s w ->
    resolvable formulas band_mapping (String c s) w
| res_band name fld args p ps b rest w :
    band_field name = Some fld ->
    occurs "func_" args = false ->
    all_chars not_rparen args = true ->
    param_list args = p :: ps ->
    dict_get band_mapping p = Some b ->
    resolvable formulas band_mapping rest w ->
    resolvable formulas band_mapping (call_text name args ++ rest) (S w)
| res_index args p ps template wt rest w :
    occurs "func_" args = false ->
    all_chars not_rparen args = true ->
    param_list args = p :: ps ->
    dict_get formulas p = Some template ->
    resolvable formulas band_mapping template wt ->
    resolvable formulas band_mapping rest w ->
    resolvable formulas band_mapping (call_text "index" args ++ rest)
      (S (wt + w)).

(** The five macro names. *)
Definition is_macro (name : string) : bool :=
  match band_field name with
  | Some _ => true
  | None => String.eqb name "index"
  end.

(** A character outside [func_]. *)
Definition barrier (c : ascii) : bool :=
  all_chars (fun a => negb (Ascii.eqb a c)) "func_".

(** [e] is the text the resolver puts in place of the call
    [func_<name>(<args>)], and needs [we] further substitutions. *)
Definition expansion_of (formulas : dict string) (raster : QgsRasterLayer)
    (band_mapping : dict Z) (name args e : string) (we : nat) : Prop :=
  occurs "func_" args = false /\
  all_chars not_rparen args = true /\
  exists p ps, param_list args = p :: ps /\
    ((exists fld b, band_field name = Some fld /\
        dict_get band_mapping p = Some b /\
        e = fld (bandStatistics raster b) /\ we = 0)
     \/
     (name = "index" /\ exists template,
        dict_get formulas p = Some template /\
        e = "(" ++ template ++ ")" /\
        resolvable formulas band_mapping template we)).

Definition special_function_of (name args : string) : special_function :=
  {| whole_match := call_text name args;
     function_name := name;
     parameters := param_list args |}.

Definition to_special_function (g : re_groups) : special_function :=
  {| whole_match := full_match g;
     function_name := func_name g;
     parameters := param_list (params g) |}.


(** A match of the pattern that is a call the resolver expands. *)
Definition expandable (formulas : dict string) (raster : QgsRasterLayer)
    (band_mapping : dict Z) (g : re_groups) : Prop :=
  full_match g = call_text (func_name g) (params g) /\
  exists e we,
    expansion_of formulas raster band_mapping (func_name g) (params g) e we.

End FormulaSpec.

(** ** Bookkeeping of the scheduler *)

Module SchedulerSpec.

Import RasterIndexCalculatorTask RasterIndexCalculator.

(** Tasks the generator has still to create. *)
Definition pending (g : generator) : nat :=
  (match opened g with
   | Some o => List.length (indices_left o)
   | None => 0
   end
   + List.length (files_left g) * List.length (gen_selected_indices g))%nat.

(** Tasks that were admitted and whose result is not recorded yet: active,
    waiting to be handed to the save worker, in its queue, or saved and not
    collected. *)
Definition in_flight (s : t) : nat :=
  (List.length (active_tasks s) + List.length (saving_tasks_queue s)
   + List.length (RasterSaveTask.task_queue (raster_save_task s))
   + List.length (RasterSaveTask.saved_rasters (raster_save_task s)))%nat.

Fixpoint total (l : list Q) : Q :=
  match l with
  | [] => 0%Q
  | x :: l' => (x + total l')%Q
  end.

(** Places of [execute] after the [for] loop over the generator. *)
Definition past_generation (p : place) : bool :=
  match p with
  | Transfer ActiveLoop | Transfer ResultsLoop
  | Save ActiveLoop | Save ResultsLoop
  | GetSaved ActiveLoop | GetSaved ResultsLoop
  | ActiveWhile | ActiveSleep | ResultsWhile | ResultsSleep | Returned => true
  | _ => false
  end.

(** The exceptions the resolver can raise. *)
Definition resolver_exn (e : exn) : Prop :=
  match e with
  | KeyError _ | IndexError => True
  | _ => False
  end.

(** The tasks the generator yields from [g] on, when it yields at most
    [bound] of them and then stops. *)
Fixpoint remaining_tasks (bound : nat) (P : platform) (g : generator)
  : outcome (list RasterIndexCalculatorTask.t) :=
  match next P g with
  | Raises e => Raises e
  | Diverges => Diverges
  | Returns None => Returns []
  | Returns (Some (task, g')) =>
      match bound with
      | O => Diverges
      | S b =>
          rest <- remaining_tasks b P g' ;;
          Returns (task :: rest)
      end
  end.

(** Valid inputs: the selected indices are supported and the generator
    yields a task for every raster and index, without raising. *)
Definition valid_inputs (P : platform) (s : t) : Prop :=
  validate_indices (selected_indices s) = Returns tt /\
  exists tasks,
    remaining_tasks (number_of_tasks s) P
      (create_tasks (input_files s) (output_dir s) (self_band_mapping s)
         (selected_indices s)) = Returns tasks.

(** The object [__init__] returns has nothing recorded and nothing in
    flight. *)
Record fresh (s : t) : Prop := {
  fresh_results : results s = [];
  fresh_active : active_tasks s = [];
  fresh_saving : saving_tasks_queue s = [];
  fresh_save_task : raster_save_task s = RasterSaveTask.init;
  fresh_memory : memory_usage s = 0%Q;
  fresh_number :
    number_of_tasks s
    = (List.length (input_files s) * List.length (selected_indices s))%nat
}.

(** Every task is accounted for: recorded, in flight, or still to be
    created. *)
Record counted (P : platform) (s : t) (w : process) : Prop := {
  counted_inputs : input_files (self w) = input_files s;
  counted_selected : selected_indices (self w) = selected_indices s;
  counted_generator :
    gen_selected_indices (task_generator w) = selected_indices s;
  counted_number :
    number_of_tasks (self w)
    = (List.length (input_files s) * List.length (selected_indices s))%nat;
  counted_created :
    (List.length (results (self w)) + in_flight (self w)
     = created (task_generator w))%nat;
  counted_pending :
    (created (task_generator w) + pending (task_generator w)
     = List.length (input_files s) * List.length (selected_indices s))%nat;
  counted_files :
    exists opened_files,
      input_files s = (opened_files ++ files_left (task_generator w))%list /\
      forall f, In f opened_files -> load P f <> None;
  counted_submitted :
    forall task, In task (submitted w) ->
                 (tid task < created (task_generator w))%nat;
  counted_start :
    at_place w = Start -> created (task_generator w) = 0%nat;
  counted_past :
    past_generation (at_place w) = true -> pending (task_generator w) = 0%nat;
  counted_returned :
    at_place w = Returned ->
    (number_of_tasks (self w) <= List.length (results (self w)))%nat;
  counted_raised :
    forall e, at_place w = Raised e ->
      (validate_indices (selected_indices s) = Raises e /\
       created (task_generator w) = 0%nat)
      \/ next P (task_generator w) = Raises e
}.

(** The memory counter is the sum of the sizes of the tasks in flight,
    none of which is negative; the active tasks are distinct objects created
    before the [n]-th. *)
Record balanced (n : nat) (s : t) : Prop := {
  balanced_memory :
    (memory_usage s
     == total (map total_memory_usage (active_tasks s))
        + total (map (fun tr => total_memory_usage (fst tr))
                   (saving_tasks_queue s))
        + total (map RasterSaveTask.estimated_size
                   (RasterSaveTask.task_queue (raster_save_task s)))
        + total (map RasterSaveTask.total_saved_size
                   (RasterSaveTask.saved_rasters (raster_save_task s))))%Q;
  balanced_active :
    Forall (fun task => (0 <= total_memory_usage task)%Q) (active_tasks s);
  balanced_saving :
    Forall (fun tr => (0 <= total_memory_usage (fst tr))%Q)
      (saving_tasks_queue s);
  balanced_queue :
    Forall (fun i => (0 <= RasterSaveTask.estimated_size i)%Q)
      (RasterSaveTask.task_queue (raster_save_task s));
  balanced_saved :
    Forall (fun r => (0 <= RasterSaveTask.total_saved_size r)%Q)
      (RasterSaveTask.saved_rasters (raster_save_task s));
  balanced_tids : forall task, In task (active_tasks s) -> (tid task < n)%nat;
  balanced_nodup : NoDup (map tid (active_tasks s))
}.


Definition accounted (w : process) : Prop :=
  balanced (created (task_generator w)) (self w) /\
  forall o, opened (task_generator w) = Some o ->
            (0 <= opened_memory_usage o)%Q.

(** The fields a sweep does not touch. *)
Record same_setup (s s' : t) : Prop := {
  same_inputs : input_files s' = input_files s;
  same_selected : selected_indices s' = selected_indices s;
  same_number : number_of_tasks s' = number_of_tasks s;
  same_budget : max_memory_usage s' = max_memory_usage s;
  same_cap : max_active_tasks s' = max_active_tasks s
}.


(** What one [next] that yields does to the generator. *)
Record yields (P : platform) (g : generator)
    (task : RasterIndexCalculatorTask.t) (g' : generator) : Prop := {
  yields_created : created g' = S (created g);
  yields_tid : tid task = created g;
  yields_selected : gen_selected_indices g' = gen_selected_indices g;
  yields_pending : pending g = S (pending g');
  yields_files :
    exists newly, files_left g = (newly ++ files_left g')%list /\
                  forall f, In f newly -> load P f <> None;
  yields_size :
    (forall o, opened g = Some o -> (0 <= opened_memory_usage o)%Q) ->
    (0 <= total_memory_usage task)%Q /\
    forall o, opened g' = Some o -> (0 <= opened_memory_usage o)%Q;
  yields_description :
    description task = "Calculate " ++ RasterIndexCalculatorTask.index task
}.


(** Only tasks within the budget have been submitted. *)
Definition within_budget (s : t) (w : process) : Prop :=
  max_memory_usage (self w) = max_memory_usage s /\
  forall task, In task (submitted w) ->
    gt (total_memory_usage task) (max_memory_usage s) = false.

(** Between two tasks with nothing in flight. *)
Record idle (w : process) : Prop := {
  idle_place : at_place w = NextTask;
  idle_added : save_task_added w = true;
  idle_active : active_tasks (self w) = [];
  idle_saving : saving_tasks_queue (self w) = [];
  idle_save_task : raster_save_task (self w) = RasterSaveTask.init;
  idle_memory : (memory_usage (self w) == 0)%Q;
  idle_submitted :
    forall x, In x (submitted w) ->
              (tid x < created (task_generator w))%nat;
  idle_table :
    forall x, In x (table w) -> (fst x < created (task_generator w))%nat
}.

End SchedulerSpec.

(** ** Sample inputs *)

Module Samples.

Import RasterIndexCalculatorTask RasterIndexCalculator.

(** A raster of 100 by 100 pixels, three bands of one byte. *)
Definition raster : QgsRasterLayer :=
  {| xSize := 100; ySize := 100; bandCount := 3; dataTypeSize := 1;
     bandStatistics := fun _ =>
       {| maximumValue := "255.0"; minimumValue := "0.0";
          mean := "127.5"; stdDev := "42.25" |} |}.

Definition bands : dict Z := [("R", 1%Z); ("G", 2%Z); ("B", 3%Z)].

(** Only [a.tif] is a valid raster file. *)
Definition files : platform :=
  {| load := fun file => if String.eqb file "a.tif" then Some raster else None;
     file_stem := fun file => "a";
     path_join := fun dir name => dir ++ "/" ++ name;
     resolver_fuel := 8 |}.

Definition calculator (input_files : list string)
    (selected_indices : list string) (budget : Q) (cap : Z) : t :=
  {| input_files := input_files;
     selected_indices := selected_indices;
     self_band_mapping := bands;
     output_dir := "out";
     results := [];
     max_memory_usage := budget;
     max_active_tasks := cap;
     active_tasks := [];
     saving_tasks_queue := [];
     memory_usage := 0%Q;
     number_of_tasks :=
       (List.length input_files * List.length selected_indices)%nat;
     progress := 0%Q;
     progress_step :=
       ((100 # 1)
        / inject_Z (Z.of_nat (List.length input_files
                              * List.length selected_indices)))%Q;
     raster_save_task := RasterSaveTask.init |}.

(** One raster, two indices, the default budget and cap. *)
Definition two_indices : t :=
  calculator ["a.tif"] ["Rnorm"; "ExG_wernette"] (1024 # 1) 5.

(** A valid file followed by an invalid one. *)
Definition two_files : t :=
  calculator ["a.tif"; "b.tif"] ["Rnorm"] (1024 # 1) 5.

(** A budget of a hundredth of a megabyte. *)
Definition small_budget : t :=
  calculator ["a.tif"] ["Rnorm"] (1 # 100) 5.

(** A budget of exactly one task and room for one active task. *)
Definition tight : t :=
  calculator ["a.tif"] ["Rnorm"; "ExG_wernette"] (625 # 16384) 1.

(** The state a list of events leads to, if they can happen in turn. *)
Definition state_after (P : platform) (events : list event) (s : t)
  : process :=
  match run P events (start s) with
  | Some w => w
  | None => start s
  end.

(** Both tasks are computed and saved one after the other. *)
Definition both_saved : list event :=
  [Control; Control; TaskFinishes 0 Success (1 # 2); Control; Control;
   SaveWorker None; Control; Control;
   Control; TaskFinishes 1 Success (1 # 2); Control; Control;
   SaveWorker None; Control; Control;
   Control; Control; Control].

(** The first task is admitted and swept; the generator then comes to the
    second file. *)
Definition second_file_opened : list event :=
  [Control; Control; Control; Control; Control; Control; Control].

(** The first task fills the budget and the cap, the loop sleeps once, and
    the task finishes. *)
Definition finished_while_waiting : list event :=
  [Control; Control; Control; Control; Control; Control; Control; Control;
   TaskFinishes 0 Success (1 # 2)].

Definition record (name : string) (size : Q) : RasterSaveTask.saved_raster :=
  {| RasterSaveTask.total_saved_size := size;
     RasterSaveTask.saved_description := "Calculate " ++ name;
     RasterSaveTask.saved_output_file := "out/a_" ++ name ++ ".tiff";
     RasterSaveTask.result :=
       {| result_index := name; calculation_status := "success";
          message := None; result_output_file := None;
          time_spent := 1 # 2; saving_status := Some "success" |} |}.

Definition buffer_accesses : list RasterSaveTask.buffer_op :=
  [RasterSaveTask.Append (record "Rnorm" (1 # 2)); RasterSaveTask.Drain;
   RasterSaveTask.Append (record "Gnorm" (1 # 2));
   RasterSaveTask.Append (record "Bnorm" (1 # 2));
   RasterSaveTask.Drain; RasterSaveTask.Drain].

End Samples.

(** ** The rest of the three files *)

From Stdlib Require Import DecimalString.

(** *** [RasterIndexCalculatorTask.run]: the calculator entries and the
    formula handed to the raster calculator (lines 21-31) *)

Module TaskRun.

Import PyStr RasterIndexCalculatorTask.

(** [str(band_index)] for an [int]. *)
Definition str_int (z : Z) : string := NilZero.string_of_int (Z.to_int z).

(** The double quote. *)
Definition dquote : ascii := "034"%char.

(** The f-string of [entry.ref]: the band name, an at sign and the band
    number. *)
Definition entry_ref (band_name : string) (band_index : Z) : string :=
  band_name ++ "@" ++ str_int band_index.

(** The f-string of the replacement: the reference between double
    quotes. *)
Definition quoted_ref (band_name : string) (band_index : Z) : string :=
  String dquote (entry_ref band_name band_index ++ String dquote "").

Record QgsRasterCalculatorEntry : Type := {
  ref : string;
  raster : QgsRasterLayer;
  bandNumber : Z
}.

(** The first loop over [self.band_mapping.items()] (lines 22-27). *)
Definition entries (self : t) : list QgsRasterCalculatorEntry :=
  map (fun item => {| ref := entry_ref (fst item) (snd item);
                      raster := raster_layer self;
                      bandNumber := snd item |})
      (band_mapping self).

(** The second loop (lines 29-31): one [str.replace] for each item, each
    on the text the one before has left. *)
Fixpoint replace_bands (items : dict Z) (formula_with_bands : string)
  : string :=
  match items with
  | [] => formula_with_bands
  | (band_name, band_index) :: items' =>
      replace_bands items'
        (replace band_name (quoted_ref band_name band_index)
           formula_with_bands)
  end.

Definition formula_with_bands (self : t) : string :=
  replace_bands (band_mapping self) (formula self).

(** A character that can stand for a band: it is no digit, no minus
    sign, no at sign and no double quote, the characters of the text that
    takes the place of a band name next to the name itself. *)
Definition plain_symbol (c : ascii) : bool :=
  let n := nat_of_ascii c in
  negb (((48 <=? n) && (n <=? 57))%nat
        || Ascii.eqb c "-" || Ascii.eqb c "@" || Ascii.eqb c dquote).

(** The band names of a mapping are single plain characters. *)
Definition plain_names (items : dict Z) : Prop :=
  forall band_name band_index,
    In (band_name, band_index) items ->
    exists c, band_name = String c "" /\ plain_symbol c = true.

(** Every character that is a band name gives way to the quoted reference
    of its band, at once. *)
Definition substitute (items : dict Z) (c : ascii) : string :=
  match dict_get items (String c "") with
  | Some band_index => quoted_ref (String c "") band_index
  | None => String c ""
  end.

Fixpoint substitute_all (items : dict Z) (s : string) : string :=
  match s with
  | EmptyString => EmptyString
  | String c s' => substitute items c ++ substitute_all items s'
  end.

End TaskRun.

(** *** [RasterSaveTask]: [add_task] and the passes of [run] *)

Module SaveWorker.

Import RasterIndexCalculatorTask RasterSaveTask.

(** [add_task] (lines 18-24) *)
Definition add_task (output_file output_in_memory_file : string)
    (estimated_size : Q) (description : string) (result : task_result)
    (self : RasterSaveTask.t) : RasterSaveTask.t :=
  {| task_queue :=
       task_queue self ++
       [{| item_output_file := output_file;
           item_output_in_memory_file := output_in_memory_file;
           estimated_size := estimated_size;
           item_description := description;
           item_result := result |}];
     running := running self;
     saved_rasters := saved_rasters self |}.

(** One call of [add_task] for each finished task of a list, with the
    arguments the scheduler would pass (RasterIndexCalculator.py, lines
    243-244). *)
Definition add_each (tasks : list (RasterIndexCalculatorTask.t * task_result))
    (self : RasterSaveTask.t) : RasterSaveTask.t :=
  fold_left
    (fun save_task saving_task =>
       add_task (output_file (fst saving_task))
         (output_in_memory_file (fst saving_task))
         (total_memory_usage (fst saving_task))
         (description (fst saving_task)) (snd saving_task) save_task)
    tasks self.

(** Passes of the loop of [run] (lines 43-72), one after the other;
    [conversions] is what [gdal.Translate] does in each of them. *)
Fixpoint run_passes (conversions : list (option string))
    (self : RasterSaveTask.t) : option RasterSaveTask.t :=
  match conversions with
  | [] => Some self
  | conversion :: conversions' =>
      match run_pass conversion self with
      | Some self' => run_passes conversions' self'
      | None => None
      end
  end.

(** The tuple [add_tasks] puts in the queue for a finished task. *)
Definition item_of (tr : RasterIndexCalculatorTask.t * task_result)
  : queue_item :=
  {| item_output_file := output_file (fst tr);
     item_output_in_memory_file := output_in_memory_file (fst tr);
     estimated_size := total_memory_usage (fst tr);
     item_description := description (fst tr);
     item_result := snd tr |}.

(** The text a pass leaves in [saving_status]. *)
Definition saving_text (conversion : option string) : string :=
  match conversion with
  | None => "success"
  | Some e => "error - " ++ e
  end.

(** The record a pass appends for a queue item. *)
Definition saved_record (item : queue_item) (conversion : option string)
  : saved_raster :=
  {| total_saved_size := estimated_size item;
     saved_description := item_description item;
     saved_output_file := item_output_file item;
     result :=
       with_saving_status (item_result item) (saving_text conversion) |}.

(** The worker after [conversions] passes on its queue: the items it has
    not come to, and the records of the others after those it held. *)
Definition after_passes (conversions : list (option string))
    (self : RasterSaveTask.t) : RasterSaveTask.t :=
  {| task_queue := skipn (List.length conversions) (task_queue self);
     running := running self;
     saved_rasters :=
       saved_rasters self ++
       map (fun ic => saved_record (fst ic) (snd ic))
         (combine (task_queue self) conversions) |}.

End SaveWorker.

(** *** [load_raster_layers] *)

Module Loading.

Import RasterIndexCalculator.

(** [load_raster_layers] (lines 65-67), on the list [self.raster_layers]:
    the list as the call leaves it, and how the call ends. *)
Fixpoint load_raster_layers (P : platform) (input_files : list string)
    (raster_layers : list QgsRasterLayer)
  : list QgsRasterLayer * outcome unit :=
  match input_files with
  | [] => (raster_layers, Returns tt)
  | file :: input_files' =>
      match load_raster_layer P file with
      | Returns raster_layer =>
          load_raster_layers P input_files' (raster_layers ++ [raster_layer])
      | Raises e => (raster_layers, Raises e)
      | Diverges => (raster_layers, Diverges)
      end
  end.

End Loading.

(** *** What a sweep and a run leave behind *)

Module RunSpec.

Import RasterIndexCalculatorTask RasterIndexCalculator.

(** The active tasks a sweep leaves in the list: those that have not
    finished, and each task that stands right after one the sweep has
    removed. *)
Fixpoint left_active (table : progress_table)
    (tasks : list RasterIndexCalculatorTask.t)
  : list RasterIndexCalculatorTask.t :=
  match tasks with
  | [] => []
  | task :: tasks' =>
      match finished table (tid task) with
      | Some _ =>
          match tasks' with
          | [] => []
          | skipped :: tasks'' => skipped :: left_active table tasks''
          end
      | None => task :: left_active table tasks'
      end
  end.

(** The tasks a sweep removes, with their results, in the order of the
    list. *)
Fixpoint taken (table : progress_table)
    (tasks : list RasterIndexCalculatorTask.t)
  : list (RasterIndexCalculatorTask.t * task_result) :=
  match tasks with
  | [] => []
  | task :: tasks' =>
      match finished table (tid task) with
      | Some r =>
          (task, r) ::
          match tasks' with
          | [] => []
          | _ :: tasks'' => taken table tasks''
          end
      | None => taken table tasks'
      end
  end.

Definition succeeded (tr : RasterIndexCalculatorTask.t * task_result)
  : bool :=
  String.eqb (calculation_status (snd tr)) "success".

(** A result as [RasterIndexCalculatorTask.run] or the rejection of a task
    leaves it. *)
Definition calculated (r : task_result) : Prop :=
  (calculation_status r = "success" \/ calculation_status r = "error" \/
   calculation_status r = "exception") /\
  saving_status r = None /\ result_output_file r = None.

(** A result as the scheduler records it. *)
Definition recorded (r : task_result) : Prop :=
  result_output_file r = None /\
  ((calculation_status r = "success" /\
    (saving_status r = Some "success" \/
     exists e, saving_status r = Some ("error - " ++ e)))
   \/
   ((calculation_status r = "error" \/ calculation_status r = "exception") /\
    saving_status r = None)).

(** What a lookup of the resolver raises: [IndexError] for [params[0]],
    [KeyError] for the subscript of the band mapping or of the formula
    table. *)
Definition lookup_error (formulas : dict string) (band_mapping : dict Z)
    (e : exn) : Prop :=
  e = IndexError \/
  exists key, e = KeyError key /\
    (dict_get band_mapping key = None \/ dict_get formulas key = None).

(** The size [create_tasks] gives a task, in bytes: the raster and one
    more band. *)
Definition task_units (raster : QgsRasterLayer) : Z :=
  Z.of_N (ySize raster * xSize raster * dataTypeSize raster
          * (bandCount raster + 1)).

(** The same in megabytes. *)
Definition task_size (raster : QgsRasterLayer) : Q :=
  (inject_Z (task_units raster) / inject_Z (2 ^ 20))%Q.

(** The task [create_tasks] makes of [input_file] and [index].  Its size
    is the raster and one more band as long as that is at most [2^53]
    bytes: up to there the divisions and the sum of line 89 and of
    [__calculate_raster_memory_usage], which the source makes in doubles,
    are exact. *)
Record named_for (P : platform) (output_dir : string) (band_mapping : dict Z)
    (input_file index : string) (task : RasterIndexCalculatorTask.t)
  : Prop := {
  named_index : RasterIndexCalculatorTask.index task = index;
  named_description : description task = "Calculate " ++ index;
  named_layer : load P input_file = Some (raster_layer task);
  named_bands : RasterIndexCalculatorTask.band_mapping task = band_mapping;
  named_formula :
    exists template,
      dict_get indices_formulas index = Some template /\
      calculate_special_functions (resolver_fuel P) (raster_layer task)
        template band_mapping
      = Returns (formula task);
  named_in_memory :
    output_in_memory_file task
    = "/vsimem/" ++ file_stem P input_file ++ "_" ++ index ++ ".tiff";
  named_output :
    output_file task
    = path_join P output_dir
        (file_stem P input_file ++ "_" ++ index ++ ".tiff");
  named_size :
    (task_units (raster_layer task) <= 2 ^ 53)%Z ->
    (total_memory_usage task == task_size (raster_layer task))%Q
}.

(** [(input_file, index)] for every task, in the order of the two loops of
    [create_tasks]. *)
Definition task_order (input_files selected_indices : list string)
  : list (string * string) :=
  flat_map (fun input_file =>
              map (fun index => (input_file, index)) selected_indices)
           input_files.

(** The indices still to do for the raster the generator has open. *)
Definition current (g : generator) (input_file : string)
  : list (string * string) :=
  match opened g with
  | Some o => map (fun index => (input_file, index)) (indices_left o)
  | None => []
  end.

(** The size as [create_tasks] computes it. *)
Definition total_of (raster : QgsRasterLayer) : Q :=
  (calculate_raster_memory_usage raster
   + calculate_raster_memory_usage raster
     / inject_Z (Z.of_N (bandCount raster)))%Q.

(** Where the generator of [create_tasks(input_files, output_dir,
    band_mapping, _, selected_indices)] stands after [created g] tasks. *)
Record positioned (P : platform) (input_files : list string)
    (output_dir : string) (band_mapping : dict Z)
    (selected_indices : list string) (g : generator) : Prop := {
  positioned_dir : gen_output_dir g = output_dir;
  positioned_bands : gen_band_mapping g = band_mapping;
  positioned_selected : gen_selected_indices g = selected_indices;
  positioned_order :
    exists made input_file,
      task_order input_files selected_indices
      = (made ++ current g input_file
         ++ task_order (files_left g) selected_indices)%list /\
      List.length made = created g /\
      forall o, opened g = Some o ->
        input_file_name o = file_stem P input_file /\
        load P input_file = Some (opened_layer o) /\
        bandCount (opened_layer o) <> 0%N /\
        opened_memory_usage o = total_of (opened_layer o)
}.

(** What a step of [execute] does to the object, the generator and the
    tasks handed to the task manager: it only moves on, takes a task from
    the generator and rejects or admits it, or makes one of the three calls
    of a sweep. *)
Inductive step_effect (P : platform) (w w' : process) : Prop :=
| Moves :
    self w' = self w -> task_generator w' = task_generator w ->
    submitted w' = submitted w -> table w' = table w ->
    step_effect P w w'
| Rejects (task : RasterIndexCalculatorTask.t) :
    at_place w = NextTask ->
    next P (task_generator w) = Returns (Some (task, task_generator w')) ->
    gt (total_memory_usage task) (max_memory_usage (self w)) = true ->
    self w' = set_results (results (self w) ++ [rejection task]) (self w) ->
    submitted w' = submitted w -> table w' = table w ->
    step_effect P w w'
| Admits (task : RasterIndexCalculatorTask.t) :
    at_place w = NextTask ->
    next P (task_generator w) = Returns (Some (task, task_generator w')) ->
    gt (total_memory_usage task) (max_memory_usage (self w)) = false ->
    self w'
    = set_active_tasks (active_tasks (self w) ++ [task])
        (set_memory_usage (memory_usage (self w) + total_memory_usage task)%Q
           (self w)) ->
    submitted w' = (submitted w ++ [task])%list -> table w' = table w ->
    step_effect P w w'
| Sweeps :
    self w' = transfer_finished_tasks_to_saving_queue (table w) (self w) ->
    task_generator w' = task_generator w ->
    submitted w' = submitted w -> table w' = table w ->
    step_effect P w w'
| HandsOver :
    self w' = save_rasters_from_memory_to_disk (self w) ->
    task_generator w' = task_generator w ->
    submitted w' = submitted w -> table w' = table w ->
    step_effect P w w'
| Collects :
    self w' = get_saved_rasters (self w) ->
    task_generator w' = task_generator w ->
    submitted w' = submitted w -> table w' = table w ->
    step_effect P w w'.

(** The results in the list of results and in the queues are of the
    shape the code gives them, and only successes go to the save worker. *)
Record shaped (s : t) : Prop := {
  shaped_results : Forall recorded (results s);
  shaped_saving :
    Forall (fun tr => calculated (snd tr) /\
                      calculation_status (snd tr) = "success")
      (saving_tasks_queue s);
  shaped_queue :
    Forall (fun item =>
              calculated (RasterSaveTask.item_result item) /\
              calculation_status (RasterSaveTask.item_result item)
              = "success")
      (RasterSaveTask.task_queue (raster_save_task s));
  shaped_saved :
    Forall (fun saved =>
              recorded (RasterSaveTask.result saved) /\
              calculation_status (RasterSaveTask.result saved) = "success")
      (RasterSaveTask.saved_rasters (raster_save_task s))
}.

Definition well_shaped (w : process) : Prop :=
  shaped (self w) /\ Forall (fun x => calculated (snd x)) (table w).

(** What the generator raises over the files it has still to open. *)
Definition generator_error (P : platform) (files : list string)
    (band_mapping : dict Z) (e : exn) : Prop :=
  (exists file, In file files /\ load P file = None /\
     e = QgsProcessingException ("Invalid raster file: " ++ file)) \/
  (e = ZeroDivisionError /\
   exists file raster, In file files /\ load P file = Some raster /\
                       bandCount raster = 0%N) \/
  lookup_error indices_formulas band_mapping e.

(** The generator is where the tasks it has made put it, and every task
    handed to the task manager is the task of its number. *)
Record numbered (P : platform) (s : t) (w : process) : Prop := {
  numbered_generator :
    positioned P (input_files s) (output_dir s) (self_band_mapping s)
      (selected_indices s) (task_generator w);
  numbered_submitted :
    forall task, In task (submitted w) ->
      exists input_file index,
        nth_error (task_order (input_files s) (selected_indices s))
          (tid task) = Some (input_file, index) /\
        named_for P (output_dir s) (self_band_mapping s) input_file index
          task
}.

End RunSpec.

(** *** More samples *)

Module MoreSamples.

Import RasterIndexCalculatorTask RasterIndexCalculator RunSpec.

(** The state in which the run of [Samples.both_saved] ends. *)
Definition both_saved_end : process :=
  Samples.state_after Samples.files Samples.both_saved Samples.two_indices.

(** The state after the first three events of that run: the first task
    is active and has finished, and the control loop is at its first
    sweep. *)
Definition one_in_flight : process :=
  Samples.state_after Samples.files (firstn 3 Samples.both_saved)
    Samples.two_indices.

(** The second task of that run. *)
Definition second_task : RasterIndexCalculatorTask.t :=
  {| tid := 1;
     description := "Calculate ExG_wernette";
     raster_layer := Samples.raster;
     total_memory_usage := total_of Samples.raster;
     index := "ExG_wernette";
     formula := "2 * G - R - B";
     band_mapping := Samples.bands;
     output_in_memory_file := "/vsimem/a_ExG_wernette.tiff";
     output_file := "out/a_ExG_wernette.tiff" |}.

(** Three active tasks, all of which have finished with success. *)
Definition task_numbered (n : nat) : RasterIndexCalculatorTask.t :=
  {| tid := n;
     description := "Calculate Rnorm";
     raster_layer := Samples.raster;
     total_memory_usage := total_of Samples.raster;
     index := "Rnorm";
     formula := "R / 255.0";
     band_mapping := Samples.bands;
     output_in_memory_file := "/vsimem/a_Rnorm.tiff";
     output_file := "out/a_Rnorm.tiff" |}.

Definition three_active : t :=
  set_active_tasks [task_numbered 0; task_numbered 1; task_numbered 2]
    Samples.two_indices.

Definition all_finished : progress_table :=
  [(0, RasterIndexCalculatorTask.run (task_numbered 0) Success (1 # 2));
   (1, RasterIndexCalculatorTask.run (task_numbered 1) Success (1 # 2));
   (2, RasterIndexCalculatorTask.run (task_numbered 2)
         (Failure "no such band") (1 # 2))].

(** Two finished tasks wait to be handed to the save worker. *)
Definition two_to_save : t :=
  set_saving_tasks_queue
    [(task_numbered 0,
      RasterIndexCalculatorTask.run (task_numbered 0) Success (1 # 2));
     (task_numbered 1,
      RasterIndexCalculatorTask.run (task_numbered 1) Success (1 # 2))]
    Samples.two_indices.

End MoreSamples.

(** ** One entry for every task *)

From Stdlib Require Import Permutation.

Module TraceSpec.

Import RasterIndexCalculatorTask RasterIndexCalculator SchedulerSpec RunSpec
  SaveWorker.

(** The entry of [self.results] that belongs to a task: the rejection when
    the task is above the budget; otherwise the result the task has left
    when it ran, as it is when the calculation failed, and with the saving
    status the save worker has set when it succeeded. *)
Definition entry_for (budget : Q) (table : progress_table)
    (task : RasterIndexCalculatorTask.t) (r : task_result) : Prop :=
  (gt (total_memory_usage task) budget = true /\ r = rejection task) \/
  (gt (total_memory_usage task) budget = false /\
   exists r0,
     finished table (tid task) = Some r0 /\
     (exists ev elapsed, r0 = RasterIndexCalculatorTask.run task ev elapsed)
     /\
     ((calculation_status r0 <> "success" /\ r = r0) \/
      (calculation_status r0 = "success" /\
       exists conversion,
         r = RasterSaveTask.with_saving_status r0 (saving_text conversion)))).

(** A task on its way through the save worker, with the result it holds:
    it was admitted and its calculation has succeeded. *)
Definition to_be_saved (budget : Q) (table : progress_table)
    (tr : RasterIndexCalculatorTask.t * task_result) : Prop :=
  gt (total_memory_usage (fst tr)) budget = false /\
  finished table (tid (fst tr)) = Some (snd tr) /\
  calculation_status (snd tr) = "success" /\
  exists ev elapsed,
    snd tr = RasterIndexCalculatorTask.run (fst tr) ev elapsed.

(** Which task each entry and each item of the save worker belongs to:
    the tasks whose entry is recorded, in the order of [self.results], the
    tasks in the queue of the worker and the tasks in its completion
    buffer, each of these with what the conversion did. *)
Record ledger : Type := {
  settled : list (RasterIndexCalculatorTask.t * task_result);
  queued : list (RasterIndexCalculatorTask.t * task_result);
  saved :
    list ((RasterIndexCalculatorTask.t * task_result) * option string)
}.

(** The tasks in flight, in the order active, waiting to be saved, in the
    queue of the worker, in its buffer. *)
Definition flight (L : ledger) (s : t) : list RasterIndexCalculatorTask.t :=
  (active_tasks s ++ map fst (saving_tasks_queue s) ++ map fst (queued L)
   ++ map (fun x => fst (fst x)) (saved L))%list.

(** Every task made so far is in exactly one place: its entry is recorded
    or it is in flight. *)
Record traced_object (budget : Q) (table : progress_table)
    (made : list RasterIndexCalculatorTask.t) (L : ledger) (s : t)
  : Prop := {
  traced_results : results s = map snd (settled L);
  traced_queue :
    RasterSaveTask.task_queue (raster_save_task s) = map item_of (queued L);
  traced_saved :
    RasterSaveTask.saved_rasters (raster_save_task s)
    = map (fun x => saved_record (item_of (fst x)) (snd x)) (saved L);
  traced_all : Permutation (map fst (settled L) ++ flight L s) made;
  traced_settled :
    Forall (fun e => entry_for budget table (fst e) (snd e)) (settled L);
  traced_active :
    Forall (fun task => gt (total_memory_usage task) budget = false)
      (active_tasks s);
  traced_saving :
    Forall (to_be_saved budget table)
      (saving_tasks_queue s ++ queued L ++ map fst (saved L))
}.

(** The results in the table are those of the tasks of their number. *)
Definition table_of (all : list RasterIndexCalculatorTask.t)
    (table : progress_table) : Prop :=
  forall id r task,
    finished table id = Some r -> In task all -> tid task = id ->
    exists ev elapsed, r = RasterIndexCalculatorTask.run task ev elapsed.

(** The state of a run in which the generator yields the tasks [all]. *)
Record traced (P : platform) (s : t)
    (all : list RasterIndexCalculatorTask.t) (w : process) : Prop := {
  traced_budget : max_memory_usage (self w) = max_memory_usage s;
  traced_generator :
    exists bound,
      remaining_tasks bound P (task_generator w)
      = Returns (skipn (created (task_generator w)) all);
  traced_submitted :
    forall task, In task (submitted w) ->
      In task (firstn (created (task_generator w)) all);
  traced_table : table_of all (table w);
  traced_ledger :
    exists L,
      traced_object (max_memory_usage s) (table w)
        (firstn (created (task_generator w)) all) L (self w)
}.

(** What a task leaves in [self.results] when it ends as [ev] after
    [elapsed] seconds and, if it is to be saved, the conversion does
    [conversion]. *)
Definition entry_when (budget : Q) (ev : evaluation) (elapsed : Q)
    (conversion : option string) (task : RasterIndexCalculatorTask.t)
  : task_result :=
  if gt (total_memory_usage task) budget then rejection task
  else
    let r := RasterIndexCalculatorTask.run task ev elapsed in
    if String.eqb (calculation_status r) "success"
    then RasterSaveTask.with_saving_status r (saving_text conversion)
    else r.

(** The generator [g] when more input files follow those it has left. *)
Definition followed_by (more : list string) (g : generator) : generator :=
  {| gen_output_dir := gen_output_dir g;
     gen_band_mapping := gen_band_mapping g;
     gen_selected_indices := gen_selected_indices g;
     files_left := (files_left g ++ more)%list;
     opened := opened g;
     created := created g |}.

End TraceSpec.

(** ** The doubles of the source *)

From Stdlib Require PrimFloat SpecFloat FloatOps.

(** The sizes and the memory counter as the source computes them, in
    binary64 with rounding to nearest even. *)
Module Doubles.

Import RasterIndexCalculator.

(** The double nearest to [n * 2^e]. *)
Definition nearest (n e : Z) : PrimFloat.float :=
  FloatOps.SF2Prim
    (SpecFloat.binary_normalize FloatOps.prec FloatOps.emax n e false).

(** An [int] where a double is wanted. *)
Definition of_int (n : Z) : PrimFloat.float := nearest n 0.

(** [__calculate_raster_memory_usage] (lines 293-306).  [memory_usage] is
    an [int]; [memory_usage / 1024] is the true division of two ints, which
    gives the double nearest to the quotient, and the second division is
    one of doubles. *)
Definition calculate_raster_memory_usage (raster : QgsRasterLayer)
  : PrimFloat.float :=
  let width := ySize raster in
  let height := xSize raster in
  let bands := bandCount raster in
  let bytes_per_pixel := dataTypeSize raster in
  let memory_usage := Z.of_N (width * height * bands * bytes_per_pixel) in
  PrimFloat.div (nearest memory_usage (-10)) (of_int 1024).

(** [total_memory_usage] of [create_tasks] (line 89). *)
Definition total_memory_usage (raster : QgsRasterLayer) : PrimFloat.float :=
  let raster_memory_usage := calculate_raster_memory_usage raster in
  PrimFloat.add raster_memory_usage
    (PrimFloat.div raster_memory_usage (of_int (Z.of_N (bandCount raster)))).

(** The updates of [self.memory_usage]: [+=] when a task is admitted
    (line 186), [-=] when a failed task is taken off the active list
    (line 286) and when a saved raster is collected (line 239). *)
Inductive update : Type :=
| Admit (size : PrimFloat.float)
| Release (size : PrimFloat.float).

Fixpoint memory_usage_after (updates : list update)
    (memory_usage : PrimFloat.float) : PrimFloat.float :=
  match updates with
  | [] => memory_usage
  | Admit size :: updates' =>
      memory_usage_after updates' (PrimFloat.add memory_usage size)
  | Release size :: updates' =>
      memory_usage_after updates' (PrimFloat.sub memory_usage size)
  end.

(** A raster of 2147483647 by 2147483647 pixels, three bands of eight
    bytes. *)
Definition huge : QgsRasterLayer :=
  {| xSize := 2147483647; ySize := 2147483647; bandCount := 3;
     dataTypeSize := 8;
     bandStatistics := bandStatistics Samples.raster |}.

(** Both rasters are admitted, and then the two tasks fail one after the
    other. *)
Definition two_failures : list update :=
  [Admit (total_memory_usage huge); Admit (total_memory_usage Samples.raster);
   Release (total_memory_usage huge);
   Release (total_memory_usage Samples.raster)].

End Doubles.

(** ** Where the doubles are exact

    A double holds every whole number of bytes up to [2^53], and so every
    such number of [2^-20] megabytes; sums and differences of such numbers
    that stay in that range are exact. *)

Module DoubleRange.

Import RasterIndexCalculatorTask RasterIndexCalculator RunSpec.

(** [q] megabytes are [n] bytes. *)
Definition in_units (q : Q) (n : Z) : Prop :=
  (q == inject_Z n / inject_Z (2 ^ 20))%Q.

(** A size that is a whole number of bytes. *)
Definition whole (q : Q) : Prop := exists k : Z, (0 <= k)%Z /\ in_units q k.

(** The bytes of the tasks of a list of files, [indices] tasks for each
    file that is a raster. *)
Fixpoint files_units (P : platform) (indices : nat) (files : list string)
  : Z :=
  match files with
  | [] => 0
  | file :: files' =>
      (match load P file with
       | Some raster => Z.of_nat indices * task_units raster
       | None => 0
       end + files_units P indices files')%Z
  end.

(** The bytes of the tasks the generator has still to make. *)
Definition pending_units (P : platform) (g : generator) : Z :=
  (match opened g with
   | Some o =>
       Z.of_nat (List.length (indices_left o)) * task_units (opened_layer o)
   | None => 0
   end
   + files_units P (List.length (gen_selected_indices g)) (files_left g))%Z.

(** The sizes of all the tasks of a run add up to at most [2^53] bytes. *)
Definition double_exact (P : platform) (s : t) : Prop :=
  (files_units P (List.length (selected_indices s)) (input_files s)
   <= 2 ^ 53)%Z.

(** The sizes of an object are whole numbers of bytes, and its memory
    counter one of at most [limit]. *)
Record ranged (limit : Z) (s : t) : Prop := {
  ranged_memory :
    exists n, in_units (memory_usage s) n /\ (n <= limit)%Z;
  ranged_active :
    Forall (fun task => whole (total_memory_usage task)) (active_tasks s);
  ranged_saving :
    Forall (fun tr => whole (total_memory_usage (fst tr)))
      (saving_tasks_queue s);
  ranged_queue :
    Forall (fun item => whole (RasterSaveTask.estimated_size item))
      (RasterSaveTask.task_queue (raster_save_task s));
  ranged_saved :
    Forall (fun r => whole (RasterSaveTask.total_saved_size r))
      (RasterSaveTask.saved_rasters (raster_save_task s))
}.

(** The same for a state of a run, with the tasks still to come. *)
Record in_range (P : platform) (bound : Z) (w : process) : Prop := {
  range_object :
    ranged (bound - pending_units P (task_generator w)) (self w);
  range_opened :
    forall o, opened (task_generator w) = Some o ->
      opened_memory_usage o = total_of (opened_layer o) /\
      bandCount (opened_layer o) <> 0%N
}.

End DoubleRange.

(** * Properties *)

(** ** Strings *)

Module PyStrFacts.

Import PyStr.

Lemma append_nil_r (s : string) : s ++ "" = s.
Proof. induction s as [|c s IH]; simpl; [reflexivity | now rewrite IH]. Qed.

Lemma append_assoc (a b c : string) : (a ++ b) ++ c = a ++ (b ++ c).
Proof. induction a as [|x a IH]; simpl; [reflexivity | now rewrite IH]. Qed.

Lemma length_append (a b : string) :
  String.length (a ++ b) = String.length a + String.length b.
Proof. induction a as [|x a IH]; simpl; [reflexivity | now rewrite IH]. Qed.

Lemma startswith_refl_app (p s : string) : startswith p (p ++ s) = true.
Proof.
  induction p as [|a p IH]; simpl; [reflexivity|].
  now rewrite Ascii.eqb_refl, IH.
Qed.

Lemma startswith_split (p s : string) :
  startswith p s = true -> exists t, s = p ++ t.
Proof.
  revert s; induction p as [|a p IH]; intros s H; simpl in *.
  - now exists s.
  - destruct s as [|b s]; [discriminate|].
    apply andb_true_iff in H as [Hab Hp].
    apply Ascii.eqb_eq in Hab; subst b.
    destruct (IH _ Hp) as [t ->]. now exists t.
Qed.

Lemma startswith_app_l (p x y : string) :
  startswith p x = true -> startswith p (x ++ y) = true.
Proof.
  intros H. destruct (startswith_split _ _ H) as [t ->].
  rewrite append_assoc. apply startswith_refl_app.
Qed.

Lemma startswith_app_p (p q s : string) :
  startswith (p ++ q) s = true -> startswith p s = true.
Proof.
  intros H. destruct (startswith_split _ _ H) as [t ->].
  rewrite append_assoc. apply startswith_refl_app.
Qed.

(** A character that is not in [p] stops every occurrence of [p]. *)
Lemma startswith_barrier (p x y : string) (c : ascii) :
  all_chars (fun a => negb (Ascii.eqb a c)) p = true ->
  p <> "" ->
  startswith p (x ++ String c y) = startswith p x.
Proof.
  revert x; induction p as [|a p IH]; intros x Hp Hne; [congruence|].
  simpl in Hp. apply andb_true_iff in Hp as [Hac Hp].
  destruct x as [|b x]; simpl.
  - apply negb_true_iff in Hac. now rewrite Hac.
  - destruct (Ascii.eqb a b); simpl; [|reflexivity].
    destruct p as [|a' p']; [reflexivity|].
    apply IH; [assumption | discriminate].
Qed.

Lemma drop_prefix_startswith (p s : string) :
  startswith p s = match drop_prefix p s with Some _ => true | None => false end.
Proof.
  revert s; induction p as [|a p IH]; intros s; simpl; [reflexivity|].
  destruct s as [|b s]; [reflexivity|].
  destruct (Ascii.eqb a b); simpl; [apply IH | reflexivity].
Qed.

Lemma drop_prefix_app (p s : string) : drop_prefix p (p ++ s) = Some s.
Proof.
  induction p as [|a p IH]; simpl; [reflexivity|].
  now rewrite Ascii.eqb_refl.
Qed.

Lemma drop_prefix_some (p s r : string) :
  drop_prefix p s = Some r -> s = p ++ r.
Proof.
  revert s; induction p as [|a p IH]; intros s H; simpl in *.
  - now inversion H.
  - destruct s as [|b s]; [discriminate|].
    destruct (Ascii.eqb a b) eqn:E; [|discriminate].
    apply Ascii.eqb_eq in E; subst b. now rewrite (IH _ H).
Qed.

Lemma span_spec (p : ascii -> bool) (s a b : string) :
  span p s = (a, b) ->
  s = a ++ b /\ all_chars p a = true /\
  match b with EmptyString => True | String c _ => p c = false end.
Proof.
  revert a b; induction s as [|c s IH]; intros a b H; simpl in H.
  - inversion H; subst. repeat split.
  - destruct (p c) eqn:Hc.
    + destruct (span p s) as [a' b'] eqn:E. inversion H; subst.
      destruct (IH _ _ eq_refl) as (-> & Ha & Hb).
      simpl. rewrite Hc. repeat split; assumption.
    + inversion H; subst. simpl. repeat split. assumption.
Qed.

Lemma span_app (p : ascii -> bool) (a r : string) (c : ascii) :
  all_chars p a = true -> p c = false ->
  span p (a ++ String c r) = (a, String c r).
Proof.
  intros Ha Hc. induction a as [|x a IH]; simpl in *.
  - now rewrite Hc.
  - apply andb_true_iff in Ha as [Hx Ha]. now rewrite Hx, (IH Ha).
Qed.

Lemma all_chars_app (p : ascii -> bool) (a b : string) :
  all_chars p (a ++ b) = all_chars p a && all_chars p b.
Proof.
  induction a as [|x a IH]; simpl; [reflexivity|].
  now rewrite IH, andb_assoc.
Qed.

Lemma all_chars_impl (p q : ascii -> bool) (s : string) :
  (forall c, p c = true -> q c = true) ->
  all_chars p s = true -> all_chars q s = true.
Proof.
  intros Hpq. induction s as [|c s IH]; simpl; [reflexivity|].
  intros H. apply andb_true_iff in H as [Hc Hs].
  now rewrite (Hpq _ Hc), (IH Hs).
Qed.

Lemma occurs_cons_false (p : string) (c : ascii) (s : string) :
  occurs p (String c s) = false ->
  startswith p (String c s) = false /\ occurs p s = false.
Proof.
  simpl occurs. intros H. apply orb_false_iff in H. exact H.
Qed.

(** Skipping over a replaced occurrence. *)
Lemma replace_from_skip (old new x s : string) :
  replace_from (String.length x) old new (x ++ s) = replace_from 0 old new s.
Proof. induction x as [|c x IH]; simpl; [reflexivity | exact IH]. Qed.

Lemma replace_from_hit (old new rest : string) :
  old <> "" ->
  replace_from 0 old new (old ++ rest) = new ++ replace_from 0 old new rest.
Proof.
  intros Hne. destruct old as [|c old]; [congruence|].
  change (String c old ++ rest) with (String c (old ++ rest)).
  cbn [replace_from].
  change (String c (old ++ rest)) with (String c old ++ rest).
  rewrite startswith_refl_app. f_equal.
  replace (String.length (String c old) - 1) with (String.length old)
    by (simpl; lia).
  apply replace_from_skip.
Qed.

Lemma replace_from_miss (old new : string) (c : ascii) (s : string) :
  startswith old (String c s) = false ->
  replace_from 0 old new (String c s) = String c (replace_from 0 old new s).
Proof. intros H. cbn [replace_from]. now rewrite H. Qed.

Lemma replace_nonempty (old new s : string) :
  old <> "" -> replace old new s = replace_from 0 old new s.
Proof. destruct old; [congruence | reflexivity]. Qed.

Lemma starts_nowhere_app (p a b y : string) :
  starts_nowhere p (a ++ b) y =
  starts_nowhere p a (b ++ y) && starts_nowhere p b y.
Proof.
  induction a as [|c a IH]; simpl; [reflexivity|].
  now rewrite IH, append_assoc, andb_assoc.
Qed.

Lemma replace_from_pass (old new x y : string) :
  starts_nowhere old x y = true ->
  replace_from 0 old new (x ++ y) = x ++ replace_from 0 old new y.
Proof.
  induction x as [|c x IH]; intros H; [reflexivity|].
  simpl in H. apply andb_true_iff in H as [H1 H2].
  apply negb_true_iff in H1.
  change (String c x ++ y) with (String c (x ++ y)) in *.
  rewrite replace_from_miss by assumption.
  simpl. now rewrite IH.
Qed.

Lemma starts_nowhere_longer (p q x y : string) :
  starts_nowhere p x y = true -> starts_nowhere (p ++ q) x y = true.
Proof.
  induction x as [|c x IH]; simpl; [reflexivity|].
  intros H. apply andb_true_iff in H as [H1 H2].
  rewrite (IH H2), andb_true_r.
  apply negb_true_iff in H1. apply negb_true_iff.
  destruct (startswith (p ++ q) (String c (x ++ y))) eqn:E; [|reflexivity].
  apply startswith_app_p in E. simpl in H1. congruence.
Qed.

(** Text without [p], closed by a character that is not in [p], holds no
    start of [p] whatever follows. *)
Lemma starts_nowhere_closed (p a y : string) (c : ascii) :
  all_chars (fun x => negb (Ascii.eqb x c)) p = true -> p <> "" ->
  occurs p a = false ->
  starts_nowhere p (a ++ String c "") y = true.
Proof.
  intros Hc Hne. induction a as [|x a IH]; intros Ho.
  - pose proof (startswith_barrier p "" y c Hc Hne) as B.
    simpl in *. rewrite B. destruct p; [congruence | reflexivity].
  - apply occurs_cons_false in Ho as [H1 H2].
    pose proof (startswith_barrier p (String x a) y c Hc Hne) as B.
    simpl in *. rewrite (IH H2), andb_true_r.
    rewrite append_assoc. simpl. rewrite B. now rewrite H1.
Qed.

End PyStrFacts.

(** ** The pattern matcher *)

Module MatchFacts.

Import PyStr RasterIndexCalculator FormulaSpec PyStrFacts.

Lemma call_text_app (name args rest : string) :
  call_text name args ++ rest
  = "func_" ++ (name ++ String "(" (args ++ String ")" rest)).
Proof.
  unfold call_text. rewrite !append_assoc. reflexivity.
Qed.

Lemma is_word_not_lparen (c : ascii) : is_word c = true -> c <> "("%char.
Proof. intros H ->. discriminate H. Qed.

Lemma match_here_call (name args rest : string) :
  name <> "" -> all_chars is_word name = true ->
  all_chars not_rparen args = true ->
  match_here (call_text name args ++ rest)
  = Some ({| full_match := call_text name args;
             func_name := name; params := args |}, rest).
Proof.
  intros Hne Hw Ha. rewrite call_text_app. unfold match_here.
  rewrite drop_prefix_app.
  rewrite (span_app is_word name _ "(" Hw eq_refl).
  destruct name as [|c name]; [congruence|].
  rewrite (span_app not_rparen args rest ")" Ha eq_refl).
  reflexivity.
Qed.

Lemma match_here_sound (s : string) (g : re_groups) (rest : string) :
  match_here s = Some (g, rest) ->
  s = full_match g ++ rest /\
  full_match g = call_text (func_name g) (params g) /\
  func_name g <> "" /\
  all_chars is_word (func_name g) = true /\
  all_chars not_rparen (params g) = true.
Proof.
  unfold match_here. intros H.
  destruct (drop_prefix "func_" s) as [r1|] eqn:E1; [|discriminate].
  apply drop_prefix_some in E1.
  destruct (span is_word r1) as [name r2] eqn:E2.
  apply span_spec in E2 as (-> & Hw & _).
  destruct name as [|c name]; [discriminate|].
  destruct r2 as [|c2 r3]; [discriminate|].
  destruct c2 as [[] [] [] [] [] [] [] []]; try discriminate.
  destruct (span not_rparen r3) as [args r4] eqn:E3.
  apply span_spec in E3 as (-> & Ha & _).
  destruct r4 as [|c4 r5]; [discriminate|].
  destruct c4 as [[] [] [] [] [] [] [] []]; try discriminate.
  inversion H; subst; clear H. cbn [full_match func_name params].
  repeat split; try assumption; try discriminate.
  rewrite call_text_app. reflexivity.
Qed.

Lemma match_here_none (s : string) :
  startswith "func_" s = false -> match_here s = None.
Proof.
  intros H. unfold match_here. rewrite drop_prefix_startswith in H.
  destruct (drop_prefix "func_" s); [discriminate | reflexivity].
Qed.

Lemma call_text_inj (n a r n' a' r' : string) :
  n <> "" -> all_chars is_word n = true -> all_chars not_rparen a = true ->
  n' <> "" -> all_chars is_word n' = true -> all_chars not_rparen a' = true ->
  call_text n a ++ r = call_text n' a' ++ r' ->
  n = n' /\ a = a' /\ r = r'.
Proof.
  intros H1 H2 H3 H4 H5 H6 E.
  pose proof (match_here_call n a r H1 H2 H3) as M.
  rewrite E, (match_here_call n' a' r' H4 H5 H6) in M.
  inversion M. auto.
Qed.

Lemma call_text_cons (name args : string) :
  call_text name args = String "f" ("unc_" ++ name ++ "(" ++ args ++ ")").
Proof. reflexivity. Qed.

Lemma findall_from_skip (x s : string) :
  findall_from (String.length x) (x ++ s) = findall_from 0 s.
Proof. induction x as [|c x IH]; simpl; [reflexivity | exact IH]. Qed.

Lemma findall_miss (c : ascii) (s : string) :
  startswith "func_" (String c s) = false ->
  findall (String c s) = findall s.
Proof.
  intros H. unfold findall. cbn [findall_from].
  now rewrite (match_here_none _ H).
Qed.

Lemma findall_hit (s : string) (g : re_groups) (rest : string) :
  match_here s = Some (g, rest) -> findall s = g :: findall rest.
Proof.
  intros H. destruct (match_here_sound _ _ _ H) as (Hs & Hf & _).
  unfold findall. rewrite Hf, call_text_cons in Hs.
  destruct s as [|c s']; [discriminate|].
  cbn [findall_from]. rewrite H. f_equal.
  simpl in Hs. inversion Hs; subst c s'.
  rewrite Hf, call_text_cons.
  replace (String.length (String "f" ("unc_" ++ func_name g ++ "(" ++ params g ++ ")")) - 1)
    with (String.length ("unc_" ++ func_name g ++ "(" ++ params g ++ ")"))
    by (simpl; lia).
  apply (findall_from_skip ("unc_" ++ func_name g ++ "(" ++ params g ++ ")")).
Qed.

Lemma findall_pass (x y : string) :
  starts_nowhere "func_" x y = true -> findall (x ++ y) = findall y.
Proof.
  induction x as [|c x IH]; intros H; [reflexivity|].
  simpl in H. apply andb_true_iff in H as [H1 H2].
  apply negb_true_iff in H1.
  change (String c x ++ y) with (String c (x ++ y)).
  rewrite findall_miss by exact H1. exact (IH H2).
Qed.

Lemma findall_flat (s : string) :
  occurs "func_" s = false -> findall s = [].
Proof.
  induction s as [|c s IH]; intros H; [reflexivity|].
  apply occurs_cons_false in H as [H1 H2].
  rewrite findall_miss by exact H1. exact (IH H2).
Qed.

(** The macro names. *)
Lemma is_macro_cases (name : string) :
  is_macro name = true ->
  name = "band_max" \/ name = "band_min" \/ name = "band_mean" \/
  name = "band_stddev" \/ name = "index".
Proof.
  unfold is_macro, band_field. intros H.
  destruct (String.eqb_spec name "band_max"); [tauto|].
  destruct (String.eqb_spec name "band_min"); [tauto|].
  destruct (String.eqb_spec name "band_mean"); [tauto|].
  destruct (String.eqb_spec name "band_stddev"); [tauto|].
  destruct (String.eqb_spec name "index"); [tauto | discriminate].
Qed.

Lemma is_macro_word (name : string) :
  is_macro name = true -> name <> "" /\ all_chars is_word name = true.
Proof.
  intros H.
  destruct (is_macro_cases _ H) as [->|[->|[->|[->| ->]]]];
    (split; [discriminate | reflexivity]).
Qed.

(** Past its first character, the text of a call holds no start of
    [func_], whatever follows it. *)
Lemma call_interior (name args y : string) :
  is_macro name = true -> occurs "func_" args = false ->
  starts_nowhere "func_" ("unc_" ++ name ++ "(" ++ args ++ ")") y = true.
Proof.
  intros Hm Ho.
  assert (Hc : starts_nowhere "func_" (args ++ ")") y = true).
  { apply starts_nowhere_closed; [reflexivity | discriminate | exact Ho]. }
  destruct (is_macro_cases _ Hm) as [->|[->|[->|[->| ->]]]];
    cbn -[starts_nowhere append];
    simpl; rewrite Hc; reflexivity.
Qed.

End MatchFacts.

(** ** Well-formed templates under substitution *)

Module ResolverFacts.

Import PyStr RasterIndexCalculator FormulaSpec PyStrFacts MatchFacts.

Lemma startswith_same_length (p y z z' : string) :
  String.length p <= String.length y ->
  startswith p (y ++ z) = startswith p (y ++ z').
Proof.
  revert y; induction p as [|a p IH]; intros y H; [reflexivity|].
  destruct y as [|b y]; simpl in H; [lia|].
  simpl. destruct (Ascii.eqb a b); simpl; [|reflexivity].
  apply IH. lia.
Qed.

Lemma number_char_barrier (c : ascii) :
  number_char c = true -> barrier c = true.
Proof.
  destruct c as [[] [] [] [] [] [] [] []]; intros H;
    solve [reflexivity | discriminate H].
Qed.

Lemma barrier_stops (x y : string) (c : ascii) :
  barrier c = true ->
  startswith "func_" (x ++ String c y) = startswith "func_" x.
Proof. intros H. apply startswith_barrier; [exact H | discriminate]. Qed.

Lemma barrier_head (c : ascii) (y : string) :
  barrier c = true -> startswith "func_" (String c y) = false.
Proof. intros H. exact (barrier_stops "" y c H). Qed.

Section Resolver.

Variable formulas : dict string.
Variable raster : QgsRasterLayer.
Variable band_mapping : dict Z.
Hypothesis finite : finite_statistics raster.

Local Abbreviation resolvable :=
  (FormulaSpec.resolvable formulas band_mapping).
Local Abbreviation expansion_of :=
  (FormulaSpec.expansion_of formulas raster band_mapping).

Lemma res_call (name args e : string) (we : nat) (rest : string) (w : nat) :
  expansion_of name args e we -> resolvable rest w ->
  resolvable (call_text name args ++ rest) (S (we + w)).
Proof.
  intros (Ho & Ha & p & ps & Hp & [(fld & b & Hf & Hb & _ & ->)
                                  | (-> & t & Ht & _ & Hr)]) Hrest.
  - exact (res_band _ _ _ _ _ _ _ _ _ _ Hf Ho Ha Hp Hb Hrest).
  - exact (res_index _ _ _ _ _ _ _ _ _ Ho Ha Hp Ht Hr Hrest).
Qed.

(** Induction over a well-formed template, calls taken as one case. *)
Lemma resolvable_cases (P : string -> nat -> Prop) :
  P "" 0 ->
  (forall c s w, startswith "func_" (String c s) = false ->
     resolvable s w -> P s w -> P (String c s) w) ->
  (forall name args e we rest w, expansion_of name args e we ->
     resolvable rest w -> P rest w ->
     P (call_text name args ++ rest) (S (we + w))) ->
  forall s w, resolvable s w -> P s w.
Proof.
  intros Hnil Hchr Hcall s w H.
  induction H as [|c s w H0 H1 IH1
                 |name fld args p ps b rest w Hf Ho Ha Hp Hb Hr IHr
                 |args p ps t wt rest w Ho Ha Hp Ht Hrt _ Hr IHr].
  - exact Hnil.
  - exact (Hchr _ _ _ H0 H1 IH1).
  - apply (Hcall name args (fld (bandStatistics raster b)) 0 rest w);
      [|assumption|assumption].
    repeat split; try assumption. exists p, ps. split; [assumption|].
    left. exists fld, b. auto.
  - apply (Hcall "index" args ("(" ++ t ++ ")") wt rest w);
      [|assumption|assumption].
    repeat split; try assumption. exists p, ps. split; [assumption|].
    right. split; [reflexivity|]. exists t. auto.
Qed.

Lemma expansion_macro (name args e : string) (we : nat) :
  expansion_of name args e we -> is_macro name = true.
Proof.
  intros (_ & _ & p & ps & _ & [(fld & b & Hf & _) | (-> & _)]).
  - unfold is_macro. now rewrite Hf.
  - reflexivity.
Qed.

Lemma expansion_match (name args e : string) (we : nat) (rest : string) :
  expansion_of name args e we ->
  match_here (call_text name args ++ rest)
  = Some ({| full_match := call_text name args;
             func_name := name; params := args |}, rest).
Proof.
  intros H. pose proof (expansion_macro _ _ _ _ H) as Hm.
  destruct (is_macro_word _ Hm) as [Hne Hw].
  destruct H as (_ & Ha & _). now apply match_here_call.
Qed.

Lemma band_field_text (name : string) fld (b : Z) :
  band_field name = Some fld ->
  number_text (fld (bandStatistics raster b)) = true.
Proof.
  unfold band_field. intros H.
  destruct (finite b) as (H1 & H2 & H3 & H4).
  destruct (String.eqb name "band_max"); [now inversion H|].
  destruct (String.eqb name "band_min"); [now inversion H|].
  destruct (String.eqb name "band_mean"); [now inversion H|].
  destruct (String.eqb name "band_stddev"); [now inversion H|].
  discriminate.
Qed.

(** The substituted text starts with a character outside [func_]. *)
Lemma expansion_head (name args e : string) (we : nat) :
  expansion_of name args e we ->
  exists c e', e = String c e' /\ barrier c = true.
Proof.
  intros (_ & _ & p & ps & _ & [(fld & b & Hf & _ & -> & _)
                               | (_ & t & _ & -> & _)]).
  - pose proof (band_field_text _ _ b Hf) as Hn.
    destruct (fld (bandStatistics raster b)) as [|c e']; [discriminate|].
    exists c, e'. split; [reflexivity|].
    simpl in Hn. apply andb_true_iff in Hn as [Hc _].
    now apply number_char_barrier.
  - exists "("%char, (t ++ ")"). split; reflexivity.
Qed.

Lemma expansion_functional (name args e e' : string) (we we' : nat) :
  expansion_of name args e we -> expansion_of name args e' we' -> e = e'.
Proof.
  intros (_ & _ & p & ps & Hp & H) (_ & _ & p' & ps' & Hp' & H').
  rewrite Hp in Hp'. inversion Hp'; subst p' ps'; clear Hp'.
  destruct H as [(fld & b & Hf & Hb & -> & _) | (-> & t & Ht & -> & _)];
  destruct H' as [(fld' & b' & Hf' & Hb' & -> & _) | (Hn & t' & Ht' & -> & _)].
  - congruence.
  - subst name. discriminate Hf.
  - discriminate Hf'.
  - congruence.
Qed.

Lemma number_text_before (e x : string) (w : nat) :
  all_chars number_char e = true ->
  resolvable x w -> resolvable (e ++ x) w.
Proof.
  intros He Hx. induction e as [|c e IH]; [exact Hx|].
  simpl in He. apply andb_true_iff in He as [Hc He].
  simpl. apply res_chr; [|exact (IH He)].
  apply barrier_head. now apply number_char_barrier.
Qed.

Lemma template_before (t x : string) (wt wx : nat) :
  resolvable t wt -> resolvable x wx ->
  resolvable (t ++ String ")" x) (wt + wx).
Proof.
  intros Ht Hx. revert t wt Ht. apply resolvable_cases.
  - simpl. apply res_chr; [reflexivity | exact Hx].
  - intros c s w H0 _ IH. simpl. apply res_chr; [|exact IH].
    change (String c (s ++ String ")" x)) with (String c s ++ String ")" x).
    rewrite barrier_stops by reflexivity. exact H0.
  - intros name args e we rest w He _ IH.
    rewrite append_assoc.
    replace (S (we + w) + wx) with (S (we + (w + wx))) by lia.
    now apply res_call with (e := e).
Qed.

(** The substituted text may stand before any well-formed text. *)
Lemma expansion_before (name args e : string) (we : nat) (x : string)
    (wx : nat) :
  expansion_of name args e we -> resolvable x wx ->
  resolvable (e ++ x) (we + wx).
Proof.
  intros (_ & _ & p & ps & _ & [(fld & b & Hf & _ & -> & ->)
                               | (_ & t & _ & -> & Ht)]) Hx.
  - pose proof (band_field_text _ _ b Hf) as Hn.
    apply number_text_before; [|exact Hx].
    destruct (fld (bandStatistics raster b)); [discriminate | exact Hn].
  - rewrite !append_assoc. simpl. apply res_chr; [reflexivity|].
    now apply template_before.
Qed.

Lemma expansion_apply (name args e : string) (we : nat) (built : string) :
  expansion_of name args e we ->
  apply_function formulas raster band_mapping built
    (special_function_of name args)
  = Returns (replace_from 0 (call_text name args) e built).
Proof.
  intros (_ & _ & p & ps & Hp & [(fld & b & Hf & Hb & -> & _)
                                | (-> & t & Ht & -> & _)]).
  - unfold apply_function, special_function_of.
    cbn [whole_match function_name parameters]. rewrite Hp.
    cbn [subscript0 bind]. unfold subscript. rewrite Hb. cbn [bind].
    unfold band_field in Hf.
    destruct (String.eqb name "band_max"); [now inversion Hf|].
    destruct (String.eqb name "band_min"); [now inversion Hf|].
    destruct (String.eqb name "band_mean"); [now inversion Hf|].
    destruct (String.eqb name "band_stddev"); [now inversion Hf|].
    discriminate.
  - unfold apply_function, special_function_of.
    cbn [whole_match function_name parameters]. rewrite Hp.
    cbn [subscript0 bind]. unfold subscript. rewrite Ht. reflexivity.
Qed.

(** Where the text of a call stands, no other call text starts. *)
Lemma other_call_passes (n a e : string) (we : nat) (n' a' e' : string)
    (we' : nat) (rest new : string) :
  expansion_of n a e we -> expansion_of n' a' e' we' ->
  call_text n' a' <> call_text n a ->
  replace_from 0 (call_text n a) new (call_text n' a' ++ rest)
  = call_text n' a' ++ replace_from 0 (call_text n a) new rest.
Proof.
  intros H H' Hne. apply replace_from_pass.
  pose proof (expansion_macro _ _ _ _ H) as Hm.
  pose proof (expansion_macro _ _ _ _ H') as Hm'.
  destruct (is_macro_word _ Hm) as [Hn Hw].
  destruct (is_macro_word _ Hm') as [Hn' Hw'].
  rewrite (call_text_cons n' a'). cbn [starts_nowhere].
  apply andb_true_iff. split.
  - apply negb_true_iff.
    destruct (startswith (call_text n a)
                (String "f" ("unc_" ++ n' ++ "(" ++ a' ++ ")") ++ rest)) eqn:E;
      [|reflexivity].
    exfalso. apply startswith_split in E as [t E].
    rewrite <- call_text_cons in E.
    destruct H as (_ & Ha & _), H' as (_ & Ha' & _).
    destruct (call_text_inj _ _ _ _ _ _ Hn' Hw' Ha' Hn Hw Ha E) as (-> & -> & _).
    now apply Hne.
  - apply (starts_nowhere_longer "func_" (n ++ "(" ++ a ++ ")")).
    apply call_interior; [exact Hm'|]. now destruct H'.
Qed.

Lemma not_func_not_call (n a : string) (c : ascii) (s : string) :
  startswith "func_" (String c s) = false ->
  startswith (call_text n a) (String c s) = false.
Proof.
  intros H. destruct (startswith (call_text n a) (String c s)) eqn:E;
    [|reflexivity].
  unfold call_text in E. apply startswith_app_p in E. congruence.
Qed.

(** A substitution creates no start of [func_] across its left edge. *)
Lemma replace_keeps_edge (n a e : string) (we : nat) :
  expansion_of n a e we ->
  forall s w, resolvable s w ->
  forall x, startswith "func_" (x ++ replace_from 0 (call_text n a) e s) = true ->
            startswith "func_" (x ++ s) = true.
Proof.
  intros Hm. apply (resolvable_cases
    (fun s _ => forall x,
       startswith "func_" (x ++ replace_from 0 (call_text n a) e s) = true ->
       startswith "func_" (x ++ s) = true)).
  - intros x H. exact H.
  - intros c s w H0 _ IH x H.
    rewrite replace_from_miss in H by now apply not_func_not_call.
    change (String c s) with (String c "" ++ s).
    rewrite <- append_assoc. apply IH.
    rewrite append_assoc. exact H.
  - intros n' a' e' we' rest w He' _ _ x H.
    destruct (string_dec (call_text n' a') (call_text n a)) as [E|E].
    + rewrite E, replace_from_hit in H by discriminate.
      destruct (expansion_head _ _ _ _ Hm) as (c & e0 & -> & Hc).
      cbn [append] in H. rewrite barrier_stops in H by exact Hc.
      now apply startswith_app_l.
    + rewrite (other_call_passes _ _ _ _ _ _ _ _ _ _ Hm He' E) in H.
      rewrite <- append_assoc in H. rewrite <- append_assoc.
      erewrite startswith_same_length; [exact H|].
      rewrite length_append. simpl. lia.
Qed.

(** One substitution keeps the template well formed and, where the call
    occurs, leaves fewer substitutions to do. *)
Lemma replace_resolvable (n a e : string) (we : nat) :
  expansion_of n a e we ->
  forall s w, resolvable s w ->
  exists w', resolvable (replace_from 0 (call_text n a) e s) w' /\
             w' <= w /\
             ((exists g, In g (findall s) /\ full_match g = call_text n a) ->
              w' < w).
Proof.
  intros Hm. apply resolvable_cases.
  - exists 0. repeat split; [constructor | lia |].
    intros (g & [] & _).
  - intros c s w H0 Hs (w' & Hr & Hle & Hlt).
    rewrite replace_from_miss by now apply not_func_not_call.
    exists w'. repeat split; [|exact Hle|].
    + apply res_chr; [|exact Hr].
      destruct (startswith "func_"
                  (String c (replace_from 0 (call_text n a) e s))) eqn:E;
        [|reflexivity].
      apply (replace_keeps_edge _ _ _ _ Hm _ _ Hs (String c "")) in E.
      cbn [append] in E. congruence.
    + rewrite findall_miss by exact H0. exact Hlt.
  - intros n' a' e' we' rest w He' Hrest (w' & Hr & Hle & Hlt).
    destruct (string_dec (call_text n' a') (call_text n a)) as [E|E].
    + rewrite E, replace_from_hit by discriminate.
      pose proof (expansion_macro _ _ _ _ Hm) as Hk.
      pose proof (expansion_macro _ _ _ _ He') as Hk'.
      destruct (is_macro_word _ Hk) as [Hn Hw].
      destruct (is_macro_word _ Hk') as [Hn' Hw'].
      assert (n' = n /\ a' = a) as [-> ->].
      { destruct Hm as (_ & Ha & _), He' as (_ & Ha' & _).
        assert (E' : call_text n' a' ++ "" = call_text n a ++ "")
          by now rewrite E.
        destruct (call_text_inj _ _ _ _ _ _ Hn' Hw' Ha' Hn Hw Ha E')
          as (-> & -> & _). auto. }
      pose proof (expansion_functional _ _ _ _ _ _ Hm He') as Ee.
      subst e'.
      exists (we' + w'). repeat split; [|lia|lia].
      now apply expansion_before with (name := n) (args := a).
    + rewrite (other_call_passes _ _ _ _ _ _ _ _ _ _ Hm He' E).
      exists (S (we' + w')). repeat split; [|lia|].
      * now apply res_call with (e := e').
      * rewrite (findall_hit _ _ _ (expansion_match _ _ _ _ rest He')).
        intros (g & [<- | Hin] & Hg); [now elim E|].
        assert (w' < w) by (apply Hlt; eauto). lia.
Qed.

(** Every match of the pattern in a well-formed template is a call the
    resolver knows how to expand. *)
Lemma findall_resolvable (s : string) (w : nat) :
  resolvable s w ->
  forall g, In g (findall s) ->
  full_match g = call_text (func_name g) (params g) /\
  exists e we, expansion_of (func_name g) (params g) e we.
Proof.
  revert s w. apply (resolvable_cases (fun s _ => forall g, In g (findall s) ->
    full_match g = call_text (func_name g) (params g) /\
    exists e we, expansion_of (func_name g) (params g) e we)).
  - intros g [].
  - intros c s w H0 _ IH g Hg. rewrite findall_miss in Hg by exact H0. auto.
  - intros name args e we rest w He _ IH g Hg.
    rewrite (findall_hit _ _ _ (expansion_match _ _ _ _ rest He)) in Hg.
    destruct Hg as [<- | Hg]; [|auto].
    split; [reflexivity | eauto].
Qed.

Lemma resolvable_flat (s : string) (w : nat) :
  resolvable s w -> findall s = [] -> occurs "func_" s = false.
Proof.
  revert s w. apply (resolvable_cases
    (fun s _ => findall s = [] -> occurs "func_" s = false)).
  - reflexivity.
  - intros c s w H0 _ IH Hf. rewrite findall_miss in Hf by exact H0.
    cbn [occurs]. now rewrite H0, IH.
  - intros name args e we rest w He _ _ Hf.
    rewrite (findall_hit _ _ _ (expansion_match _ _ _ _ rest He)) in Hf.
    discriminate.
Qed.

End Resolver.

End ResolverFacts.

(** ** The expansion loop *)

Module LoopFacts.

Import PyStr RasterIndexCalculator FormulaSpec PyStrFacts MatchFacts
       ResolverFacts.

Section Loop.

Variable formulas : dict string.
Variable raster : QgsRasterLayer.
Variable band_mapping : dict Z.
Hypothesis finite : finite_statistics raster.

Local Abbreviation resolvable :=
  (FormulaSpec.resolvable formulas band_mapping).
Local Abbreviation expansion_of :=
  (FormulaSpec.expansion_of formulas raster band_mapping).

Local Abbreviation expandable :=
  (FormulaSpec.expandable formulas raster band_mapping).

Lemma apply_function_resolvable (g : re_groups) (s : string) (w : nat) :
  expandable g -> resolvable s w ->
  exists s' w',
    apply_function formulas raster band_mapping s (to_special_function g)
    = Returns s' /\
    resolvable s' w' /\ w' <= w /\ (In g (findall s) -> w' < w).
Proof.
  intros (Hf & e & we & He) Hs.
  destruct (replace_resolvable formulas raster band_mapping finite
              _ _ _ _ He _ _ Hs) as (w' & Hr & Hle & Hlt).
  exists (replace_from 0 (call_text (func_name g) (params g)) e s), w'.
  repeat split; try assumption.
  - unfold to_special_function. rewrite Hf.
    exact (expansion_apply formulas raster band_mapping _ _ _ _ s He).
  - intros Hin. apply Hlt. exists g. auto.
Qed.

Lemma apply_functions_resolvable (gs : list re_groups) :
  (forall g, In g gs -> expandable g) ->
  forall s w, resolvable s w ->
  exists s' w',
    apply_functions formulas raster band_mapping s
      (map to_special_function gs) = Returns s' /\
    resolvable s' w' /\ w' <= w.
Proof.
  induction gs as [|g gs IH]; intros Hgs s w Hs.
  - exists s, w. repeat split; [exact Hs | lia].
  - destruct (apply_function_resolvable g s w (Hgs g (or_introl eq_refl)) Hs)
      as (s1 & w1 & E1 & H1 & L1 & _).
    destruct (IH (fun g' H => Hgs g' (or_intror H)) s1 w1 H1)
      as (s2 & w2 & E2 & H2 & L2).
    exists s2, w2. cbn [map apply_functions]. rewrite E1. cbn [bind].
    repeat split; [exact E2 | exact H2 | lia].
Qed.

(** One round of the loop on a template that still holds a call. *)
Lemma round_resolvable (s : string) (w : nat) :
  resolvable s w -> findall s <> [] ->
  exists s' w',
    apply_functions formulas raster band_mapping s
      (extract_special_functions s) = Returns s' /\
    resolvable s' w' /\ w' < w.
Proof.
  intros Hs Hne.
  pose proof (findall_resolvable formulas raster band_mapping _ _ Hs) as Hall.
  unfold extract_special_functions.
  change (fun g : re_groups => _) with to_special_function.
  destruct (findall s) as [|g gs] eqn:E; [congruence|].
  assert (Hin : In g (findall s)) by (rewrite E; now left).
  rewrite E in Hin.
  destruct (apply_function_resolvable g s w (Hall g (or_introl eq_refl)) Hs)
    as (s1 & w1 & E1 & H1 & L1 & S1).
  destruct (apply_functions_resolvable gs
              (fun g' H => Hall g' (or_intror H)) s1 w1 H1)
    as (s2 & w2 & E2 & H2 & L2).
  exists s2, w2. cbn [map apply_functions]. rewrite E1. cbn [bind].
  repeat split; [exact E2 | exact H2 |].
  assert (w1 < w) by (apply S1; rewrite E; now left). lia.
Qed.

Lemma loop_resolvable (w : nat) :
  forall s, resolvable s w ->
  exists r, occurs "func_" r = false /\
    forall fuel, w <= fuel ->
      expansion_loop fuel formulas raster band_mapping s
        (extract_special_functions s) = Returns r.
Proof.
  induction w as [w IH] using lt_wf_ind. intros s Hs.
  destruct (findall s) as [|g gs] eqn:E.
  - exists s. split.
    + exact (resolvable_flat formulas raster band_mapping _ _ Hs E).
    + intros fuel _. unfold extract_special_functions. rewrite E.
      destruct fuel; reflexivity.
  - destruct (round_resolvable s w Hs) as (s' & w' & E' & Hs' & Hlt);
      [rewrite E; discriminate|].
    destruct (IH w' Hlt s' Hs') as (r & Hr & Hloop).
    exists r. split; [exact Hr|].
    intros fuel Hfuel. destruct fuel as [|fuel]; [lia|].
    unfold extract_special_functions at 1. rewrite E.
    cbn [map expansion_loop].
    unfold extract_special_functions in E'. rewrite E in E'.
    cbn [map] in E'. rewrite E'. cbn [bind].
    apply Hloop. lia.
Qed.

(** From the boolean check to a derivation. *)
Lemma calls_good_suffix (ok : string -> bool) (x y : string) :
  calls_good ok band_mapping (x ++ y) = true ->
  calls_good ok band_mapping y = true.
Proof.
  induction x as [|c x IH]; [auto|].
  cbn [append calls_good]. intros H.
  apply andb_true_iff in H as [_ H]. auto.
Qed.

Lemma calls_good_resolvable (ok : string -> bool) :
  (forall p, ok p = true ->
     exists t wt, dict_get formulas p = Some t /\ resolvable t wt) ->
  forall n s, String.length s <= n ->
    calls_good ok band_mapping s = true -> exists w, resolvable s w.
Proof.
  intros Hok. induction n as [|n IH]; intros s Hlen H.
  - destruct s; [|simpl in Hlen; lia]. exists 0. constructor.
  - destruct s as [|c s]; [exists 0; constructor|].
    cbn [calls_good] in H. apply andb_true_iff in H as [Hhead Htail].
    destruct (startswith "func_" (String c s)) eqn:E.
    + destruct (match_here (String c s)) as [[g rest]|] eqn:M; [|discriminate].
      destruct (match_here_sound _ _ _ M) as (Hs & Hf & Hne & Hw & Ha).
      assert (Hrest : exists w, resolvable rest w).
      { apply IH.
        - assert (L : String.length (String c s)
                      = String.length (full_match g) + String.length rest)
            by (rewrite Hs at 1; apply length_append).
          rewrite Hf, call_text_cons in L. simpl in L, Hlen. lia.
        - pose proof (conj Hhead Htail) as Hall.
          apply andb_true_iff in Hall.
          assert (Hc : calls_good ok band_mapping (String c s) = true).
          { cbn [calls_good]. rewrite E, M. exact Hall. }
          rewrite Hs in Hc. exact (calls_good_suffix _ _ _ Hc). }
      destruct Hrest as [w Hrest].
      unfold good_call in Hhead.
      apply andb_true_iff in Hhead as [Hocc Hp].
      apply negb_true_iff in Hocc.
      destruct (param_list (params g)) as [|p ps] eqn:Ep; [discriminate|].
      rewrite Hs, Hf.
      destruct (band_field (func_name g)) as [fld|] eqn:Ef.
      * unfold dict_mem in Hp.
        destruct (dict_get band_mapping p) as [b|] eqn:Eb; [|discriminate].
        exists (S w).
        exact (res_band _ _ _ _ _ _ _ _ _ _ Ef Hocc Ha Ep Eb Hrest).
      * apply andb_true_iff in Hp as [Hn Hp].
        apply String.eqb_eq in Hn. rewrite Hn.
        destruct (Hok p Hp) as (t & wt & Ht & Hrt).
        exists (S (wt + w)).
        exact (res_index _ _ _ _ _ _ _ _ _ Hocc Ha Ep Ht Hrt Hrest).
    + destruct (IH s) as [w Hw]; [simpl in Hlen; lia | exact Htail |].
      exists w. now apply res_chr.
Qed.

Lemma expands_within_resolvable (depth : nat) (p : string) :
  expands_within depth formulas band_mapping p = true ->
  exists t wt, dict_get formulas p = Some t /\ resolvable t wt.
Proof.
  revert p. induction depth as [|d IH]; intros p H; [discriminate|].
  cbn [expands_within] in H.
  destruct (dict_get formulas p) as [t|]; [|discriminate].
  destruct (calls_good_resolvable _ IH (String.length t) t (le_n _) H)
    as [w Hw].
  exists t, w. auto.
Qed.

Lemma well_formed_resolvable (depth : nat) (template : string) :
  well_formed depth formulas band_mapping template = true ->
  exists w, resolvable template w.
Proof.
  intros H.
  exact (calls_good_resolvable _ (expands_within_resolvable depth)
           (String.length template) template (le_n _) H).
Qed.

End Loop.

(** Arguments of a formula reference. *)
Lemma word_not_space (c : ascii) : is_word c = true -> is_space c = false.
Proof.
  destruct c as [[] [] [] [] [] [] [] []]; intros H;
    solve [reflexivity | discriminate H].
Qed.

Lemma word_not_comma (c : ascii) :
  is_word c = true -> Ascii.eqb c "," = false.
Proof.
  destruct c as [[] [] [] [] [] [] [] []]; intros H;
    solve [reflexivity | discriminate H].
Qed.

Lemma word_not_rparen (c : ascii) : is_word c = true -> not_rparen c = true.
Proof.
  destruct c as [[] [] [] [] [] [] [] []]; intros H;
    solve [reflexivity | discriminate H].
Qed.

Lemma split_word (s : string) :
  all_chars is_word s = true -> split "," s = [s].
Proof.
  induction s as [|c s IH]; intros H; [reflexivity|].
  simpl in H. apply andb_true_iff in H as [Hc Hs].
  cbn [split]. now rewrite (word_not_comma _ Hc), (IH Hs).
Qed.

Lemma rstrip_word (s : string) : all_chars is_word s = true -> rstrip s = s.
Proof.
  induction s as [|c s IH]; intros H; [reflexivity|].
  simpl in H. apply andb_true_iff in H as [Hc Hs].
  cbn [rstrip]. rewrite (IH Hs).
  destruct s; [now rewrite (word_not_space _ Hc) | reflexivity].
Qed.

Lemma strip_word (s : string) : all_chars is_word s = true -> strip s = s.
Proof.
  intros H. unfold strip.
  assert (L : lstrip s = s).
  { destruct s as [|c s]; [reflexivity|].
    simpl in H. apply andb_true_iff in H as [Hc _].
    cbn [lstrip]. now rewrite (word_not_space _ Hc). }
  rewrite L. now apply rstrip_word.
Qed.

Lemma param_list_word (s : string) :
  s <> "" -> all_chars is_word s = true -> param_list s = [s].
Proof.
  intros Hne H. unfold param_list. rewrite (split_word _ H).
  cbn [filter]. rewrite (strip_word _ H).
  destruct (String.eqb_spec s ""); [congruence|].
  cbn [negb map]. now rewrite (strip_word _ H).
Qed.

Lemma occurs_closed (a : string) (c : ascii) :
  barrier c = true -> occurs "func_" a = false ->
  occurs "func_" (a ++ String c "") = false.
Proof.
  intros Hc. induction a as [|x a IH]; intros H.
  - cbn [append occurs]. now rewrite (barrier_head c "" Hc).
  - apply occurs_cons_false in H as [H1 H2].
    cbn [append occurs]. rewrite (IH H2), orb_false_r.
    change (String x (a ++ String c "")) with (String x a ++ String c "").
    now rewrite barrier_stops.
Qed.

(** Keys of a dictionary. *)
Lemma dict_get_in {V : Type} (d : dict V) (k : string) (v : V) :
  dict_get d k = Some v -> In k (map fst d).
Proof.
  induction d as [|[k' v'] d IH]; [discriminate|].
  cbn [dict_get map fst]. destruct (String.eqb_spec k k').
  - intros _. now left.
  - intros H. right. auto.
Qed.

Lemma resolve_reference (formulas : dict string) (raster : QgsRasterLayer)
    (band_mapping : dict Z) (a t : string) :
  dict_get formulas a = Some t ->
  a <> "" -> all_chars is_word a = true ->
  occurs "func_" t = false ->
  calculate_special_functions_in formulas 1 raster
    ("func_index(" ++ a ++ ")") band_mapping
  = Returns ("(" ++ t ++ ")").
Proof.
  intros Hd Hne Hw Ht.
  assert (Ha : all_chars not_rparen a = true)
    by (eapply all_chars_impl; [apply word_not_rparen | exact Hw]).
  change ("func_index(" ++ a ++ ")") with (call_text "index" a).
  unfold calculate_special_functions_in, extract_special_functions.
  pose proof (match_here_call "index" a "" ltac:(discriminate) eq_refl Ha)
    as M.
  rewrite append_nil_r in M. rewrite (findall_hit _ _ _ M).
  cbn [findall findall_from map full_match func_name params expansion_loop
       apply_functions].
  unfold apply_function.
  cbn [whole_match function_name parameters].
  rewrite (param_list_word _ Hne Hw).
  cbn [String.eqb Ascii.eqb Bool.eqb andb subscript0 bind].
  unfold subscript. rewrite Hd. cbn [bind].
  rewrite replace_nonempty by discriminate.
  pose proof (replace_from_hit (call_text "index" a) ("(" ++ t ++ ")") ""
                ltac:(discriminate)) as R.
  rewrite append_nil_r in R. rewrite R. cbn [replace_from].
  rewrite append_nil_r. unfold extract_special_functions.
  rewrite findall_flat; [reflexivity|].
  cbn [append occurs]. rewrite (barrier_head "(" _ eq_refl).
  apply (occurs_closed t ")" eq_refl Ht).
Qed.

End LoopFacts.

(** ** The task generator *)

Module GeneratorFacts.

Import PyStr RasterIndexCalculatorTask RasterIndexCalculator SchedulerSpec.

Lemma split_nonempty (sep : ascii) (s : string) : split sep s <> [].
Proof.
  destruct s as [|c s]; cbn [split]; [discriminate|].
  destruct (Ascii.eqb c sep); [discriminate|].
  destruct (split sep s); discriminate.
Qed.

Lemma apply_function_raises formulas raster bm built f e :
  apply_function formulas raster bm built f = Raises e -> resolver_exn e.
Proof.
  unfold apply_function, subscript0, subscript.
  destruct (String.eqb (function_name f) "band_max");
    [|destruct (String.eqb (function_name f) "band_min");
      [|destruct (String.eqb (function_name f) "band_mean");
        [|destruct (String.eqb (function_name f) "band_stddev");
          [|destruct (String.eqb (function_name f) "index");
            [|discriminate]]]]];
    (destruct (parameters f) as [|p ps]; cbn [bind];
     [intros H; inversion H; exact I|]);
    match goal with
    | |- context [dict_get ?d p] => destruct (dict_get d p)
    end; cbn [bind]; intros H; inversion H; exact I.
Qed.

Lemma apply_functions_raises formulas raster bm fs :
  forall built e,
    apply_functions formulas raster bm built fs = Raises e -> resolver_exn e.
Proof.
  induction fs as [|f fs IH]; intros built e H; [discriminate|].
  cbn [apply_functions] in H.
  destruct (apply_function formulas raster bm built f) as [b|e'|] eqn:E;
    cbn [bind] in H.
  - eauto.
  - inversion H; subst. eapply apply_function_raises; eauto.
  - discriminate.
Qed.

Lemma expansion_loop_raises formulas raster bm fuel :
  forall built fs e,
    expansion_loop fuel formulas raster bm built fs = Raises e ->
    resolver_exn e.
Proof.
  induction fuel as [|fuel IH]; intros built fs e H;
    destruct fs as [|f fs]; try discriminate.
  cbn [expansion_loop] in H.
  destruct (apply_functions formulas raster bm built (f :: fs))
    as [b|e'|] eqn:E; cbn [bind] in H.
  - eauto.
  - inversion H; subst. eapply apply_functions_raises; eauto.
  - discriminate.
Qed.

Lemma make_task_raises P g name raster total index e :
  make_task P g name raster total index = Raises e -> resolver_exn e.
Proof.
  unfold make_task, subscript.
  destruct (dict_get indices_formulas index) as [template|]; cbn [bind];
    [|intros H; inversion H; exact I].
  destruct (calculate_special_functions (resolver_fuel P) raster template
              (gen_band_mapping g)) as [f|e'|] eqn:E; cbn [bind];
    try discriminate.
  intros H; inversion H; subst.
  eapply expansion_loop_raises; exact E.
Qed.

Lemma make_task_returns P g name raster total index task :
  make_task P g name raster total index = Returns task ->
  tid task = created g /\ total_memory_usage task = total /\
  description task = "Calculate " ++ index /\
  RasterIndexCalculatorTask.index task = index.
Proof.
  unfold make_task.
  destruct (subscript indices_formulas index); cbn [bind]; try discriminate.
  destruct (calculate_special_functions _ _ _ _); cbn [bind];
    try discriminate.
  intros H; inversion H; subst; cbn. auto.
Qed.

Lemma raster_memory_nonneg (raster : QgsRasterLayer) :
  (0 <= calculate_raster_memory_usage raster)%Q.
Proof.
  unfold calculate_raster_memory_usage.
  assert (H : (0 <= inject_Z (Z.of_N (ySize raster * xSize raster
                      * bandCount raster * dataTypeSize raster)))%Q).
  { change 0%Q with (inject_Z 0). rewrite <- Zle_Qle. apply N2Z.is_nonneg. }
  revert H. generalize (inject_Z (Z.of_N (ySize raster * xSize raster
                      * bandCount raster * dataTypeSize raster))).
  intros q H. unfold Qdiv.
  apply Qmult_le_0_compat; [apply Qmult_le_0_compat|]; try assumption;
    discriminate.
Qed.

Lemma total_memory_nonneg (raster : QgsRasterLayer) :
  (0 <= calculate_raster_memory_usage raster
        + calculate_raster_memory_usage raster
          / inject_Z (Z.of_N (bandCount raster)))%Q.
Proof.
  pose proof (raster_memory_nonneg raster) as H.
  assert (H' : (0 <= / inject_Z (Z.of_N (bandCount raster)))%Q).
  { apply Qinv_le_0_compat. change 0%Q with (inject_Z 0).
    rewrite <- Zle_Qle. apply N2Z.is_nonneg. }
  unfold Qdiv.
  pose proof (Qmult_le_0_compat _ _ H H') as H2.
  lra.
Qed.

Lemma next_file_yields P g files task g' :
  next_file P g files = Returns (Some (task, g')) ->
  created g' = S (created g) /\ tid task = created g /\
  gen_selected_indices g' = gen_selected_indices g /\
  (List.length files * List.length (gen_selected_indices g)
   = S (pending g'))%nat /\
  (exists newly, files = (newly ++ files_left g')%list /\
                 forall f, In f newly -> load P f <> None) /\
  (0 <= total_memory_usage task)%Q /\
  (forall o, opened g' = Some o -> (0 <= opened_memory_usage o)%Q) /\
  description task = "Calculate " ++ RasterIndexCalculatorTask.index task.
Proof.
  induction files as [|f files IH]; [discriminate|].
  cbn [next_file]. unfold load_raster_layer.
  destruct (load P f) as [raster|] eqn:El; cbn [bind]; [|discriminate].
  destruct (N.eqb (bandCount raster) 0) eqn:Eb; cbn [bind]; [discriminate|].
  destruct (gen_selected_indices g) as [|index rest] eqn:Es.
  - intros H. destruct (IH H) as (_ & _ & _ & Hp & _).
    rewrite Nat.mul_0_r in Hp. discriminate.
  - destruct (make_task P g (file_stem P f) raster _ index) as [t| |] eqn:Em;
      cbn [bind]; try discriminate.
    unfold yield. intros H; inversion H; subst; clear H.
    destruct (make_task_returns _ _ _ _ _ _ _ Em) as (Ht & Hm & Hd & Hi).
    cbn. repeat split; try assumption.
    + unfold pending; cbn. rewrite ?Es. cbn. nia.
    + exists [f]. split; [reflexivity|].
      intros f' [<-|[]]. congruence.
    + rewrite Hm. apply total_memory_nonneg.
    + intros o Ho. inversion Ho; subst; cbn. apply total_memory_nonneg.
    + now rewrite Hd, Hi.
Qed.

Lemma next_yields P g task g' :
  next P g = Returns (Some (task, g')) -> yields P g task g'.
Proof.
  unfold next.
  assert (Hfile : next_file P g (files_left g) = Returns (Some (task, g')) ->
                  match opened g with
                  | Some o => indices_left o = []
                  | None => True
                  end ->
                  yields P g task g').
  { intros H Ho.
    destruct (next_file_yields _ _ _ _ _ H)
      as (H1 & H2 & H3 & H4 & H5 & H6 & H7 & H8).
    constructor; try assumption.
    - unfold pending at 1.
      destruct (opened g) as [o|]; [rewrite Ho|]; cbn; lia.
    - auto. }
  destruct (opened g) as [o|] eqn:Eo; [|auto].
  destruct (indices_left o) as [|index rest] eqn:Ei; [auto|].
  destruct (make_task P g _ _ _ index) as [t| |] eqn:Em; cbn [bind];
    try discriminate.
  unfold yield. intros H; inversion H; subst; clear H.
  destruct (make_task_returns _ _ _ _ _ _ _ Em) as (Ht & Hm & Hd & Hi).
  constructor; cbn; try assumption; try reflexivity.
  - unfold pending; cbn. rewrite Eo, Ei. cbn. lia.
  - exists []. split; [reflexivity | intros f []].
  - intros Hn. rewrite Hm. split; [now apply Hn|].
    intros o' Ho'. inversion Ho'; subst; cbn. now apply Hn.
  - now rewrite Hd, Hi.
Qed.

Lemma next_file_stops P g files :
  next_file P g files = Returns None ->
  (List.length files * List.length (gen_selected_indices g) = 0)%nat.
Proof.
  induction files as [|f files IH]; [reflexivity|].
  cbn [next_file]. unfold load_raster_layer.
  destruct (load P f) as [raster|]; cbn [bind]; [|discriminate].
  destruct (N.eqb (bandCount raster) 0); cbn [bind]; [discriminate|].
  destruct (gen_selected_indices g) as [|index rest] eqn:Es.
  - intros _. cbn. lia.
  - destruct (make_task P g _ raster _ index); cbn [bind]; discriminate.
Qed.

Lemma next_stops P g : next P g = Returns None -> pending g = 0%nat.
Proof.
  unfold next, pending.
  destruct (opened g) as [o|].
  - destruct (indices_left o) as [|index rest].
    + intros H. apply next_file_stops in H. cbn. exact H.
    + destruct (make_task P g _ _ _ index); cbn [bind]; discriminate.
  - intros H. apply next_file_stops in H. exact H.
Qed.

(** The generator fails on an invalid raster file when it comes to open
    it. *)
Lemma next_file_invalid P g files msg :
  next_file P g files = Raises (QgsProcessingException msg) ->
  exists skipped f rest,
    files = (skipped ++ f :: rest)%list /\
    (forall x, In x skipped -> load P x <> None) /\
    load P f = None /\ msg = "Invalid raster file: " ++ f /\
    (List.length skipped * List.length (gen_selected_indices g) = 0)%nat.
Proof.
  induction files as [|f files IH]; [discriminate|].
  cbn [next_file]. unfold load_raster_layer.
  destruct (load P f) as [raster|] eqn:El; cbn [bind].
  - destruct (N.eqb (bandCount raster) 0); cbn [bind]; [discriminate|].
    destruct (gen_selected_indices g) as [|index rest] eqn:Es.
    + intros H. destruct (IH H) as (sk & f' & rest & -> & Hsk & Hf & Hm & _).
      exists (f :: sk), f', rest. repeat split; try assumption.
      * intros x [<-|Hx]; [congruence | auto].
      * apply Nat.mul_0_r.
    + destruct (make_task P g _ raster _ index) as [t|e|] eqn:Em;
        cbn [bind]; try discriminate.
      intros H; inversion H; subst.
      now apply make_task_raises in Em.
  - intros H; inversion H; subst.
    exists [], f, files. repeat split; auto.
Qed.

Lemma next_invalid P g msg :
  next P g = Raises (QgsProcessingException msg) ->
  exists skipped f rest,
    files_left g = (skipped ++ f :: rest)%list /\
    (forall x, In x skipped -> load P x <> None) /\
    load P f = None /\ msg = "Invalid raster file: " ++ f /\
    (List.length skipped * List.length (gen_selected_indices g) = 0)%nat /\
    pending g
    = (List.length (files_left g) * List.length (gen_selected_indices g))%nat.
Proof.
  unfold next, pending.
  destruct (opened g) as [o|].
  - destruct (indices_left o) as [|index rest].
    + intros H. destruct (next_file_invalid _ _ _ _ H)
        as (sk & f & rest & H1 & H2 & H3 & H4 & H5).
      exists sk, f, rest. repeat split; assumption.
    + destruct (make_task P g _ _ _ index) as [t|e|] eqn:Em; cbn [bind];
        try discriminate.
      intros H; inversion H; subst. now apply make_task_raises in Em.
  - intros H. destruct (next_file_invalid _ _ _ _ H)
      as (sk & f & rest & H1 & H2 & H3 & H4 & H5).
    exists sk, f, rest. repeat split; assumption.
Qed.

Lemma next_not_value_error P g msg : next P g <> Raises (ValueError msg).
Proof.
  assert (Hfile : forall files, next_file P g files <> Raises (ValueError msg)).
  { induction files as [|f files IH]; [discriminate|].
    cbn [next_file]. unfold load_raster_layer.
    destruct (load P f) as [raster|]; cbn [bind]; [|discriminate].
    destruct (N.eqb (bandCount raster) 0); cbn [bind]; [discriminate|].
    destruct (gen_selected_indices g) as [|index rest]; [exact IH|].
    destruct (make_task P g _ raster _ index) as [t|e|] eqn:Em;
      cbn [bind]; try discriminate.
    intros H; inversion H; subst. now apply make_task_raises in Em. }
  unfold next.
  destruct (opened g) as [o|]; [|apply Hfile].
  destruct (indices_left o) as [|index rest]; [apply Hfile|].
  destruct (make_task P g _ _ _ index) as [t|e|] eqn:Em; cbn [bind];
    try discriminate.
  intros H; inversion H; subst. now apply make_task_raises in Em.
Qed.

Lemma validate_indices_raises (selected : list string) (e : exn) :
  validate_indices selected = Raises e ->
  exists index, In index selected /\
                dict_mem indices_formulas index = false /\
                e = ValueError ("Unsupported index: " ++ index).
Proof.
  induction selected as [|i l IH]; [discriminate|].
  cbn [validate_indices].
  destruct (dict_mem indices_formulas i) eqn:E.
  - intros H. destruct (IH H) as (x & Hx & Hm & He).
    exists x. repeat split; auto. now right.
  - intros H; inversion H; subst. exists i. repeat split; auto. now left.
Qed.

Lemma validate_indices_unsupported (selected : list string) :
  (exists index, In index selected /\
                 dict_mem indices_formulas index = false) ->
  exists msg, validate_indices selected = Raises (ValueError msg).
Proof.
  intros (x & Hx & Hm). induction selected as [|i l IH]; [destruct Hx|].
  cbn [validate_indices].
  destruct (dict_mem indices_formulas i) eqn:E.
  - destruct Hx as [->|Hx]; [congruence | auto].
  - eauto.
Qed.

End GeneratorFacts.

(** ** No task is lost *)

Module CountFacts.

Import PyStr RasterIndexCalculatorTask RasterIndexCalculator SchedulerSpec
       GeneratorFacts.

Lemma remove_length task (l : list RasterIndexCalculatorTask.t) :
  In task l -> S (List.length (remove task l)) = List.length l.
Proof.
  induction l as [|x l IH]; intros H; [destruct H|].
  cbn [remove]. destruct (Nat.eqb (tid x) (tid task)) eqn:E; [reflexivity|].
  destruct H as [->|H]; [now rewrite Nat.eqb_refl in E|].
  cbn [List.length]. now rewrite (IH H).
Qed.

Lemma same_setup_refl s : same_setup s s.
Proof. constructor; reflexivity. Qed.

Lemma same_setup_trans s1 s2 s3 :
  same_setup s1 s2 -> same_setup s2 s3 -> same_setup s1 s3.
Proof. intros [] []; constructor; congruence. Qed.

Lemma transfer_from_counts table passes :
  forall i s,
    let s' := transfer_from passes i table s in
    same_setup s s' /\
    raster_save_task s' = raster_save_task s /\
    (List.length (results s') + List.length (active_tasks s')
     + List.length (saving_tasks_queue s')
     = List.length (results s) + List.length (active_tasks s)
       + List.length (saving_tasks_queue s))%nat.
Proof.
  induction passes as [|passes IH]; intros i s; cbn [transfer_from].
  - split; [apply same_setup_refl | auto].
  - destruct (nth_error (active_tasks s) i) as [task|] eqn:En;
      [|split; [apply same_setup_refl | auto]].
    destruct (finished table (tid task)) as [r|]; [|apply IH].
    pose proof (remove_length task _ (nth_error_In _ _ En)) as Hl.
    match goal with
    | |- context [transfer_from passes (S i) table ?x] =>
        destruct (IH (S i) x) as (Hs & Hq & Hc)
    end.
    destruct (String.eqb (calculation_status r) "success");
      cbn in Hs, Hq, Hc |- *.
    + split; [|split; [exact Hq|]].
      * destruct Hs; constructor; assumption.
      * rewrite Hc, length_app. cbn. lia.
    + split; [|split; [exact Hq|]].
      * destruct Hs; constructor; assumption.
      * rewrite Hc, length_app. cbn. lia.
Qed.

Lemma take_saved_counts saved :
  forall s,
    let s' := fold_left take_saved saved s in
    same_setup s s' /\
    raster_save_task s' = raster_save_task s /\
    active_tasks s' = active_tasks s /\
    saving_tasks_queue s' = saving_tasks_queue s /\
    List.length (results s')
    = (List.length (results s) + List.length saved)%nat.
Proof.
  induction saved as [|x saved IH]; intros s; cbn [fold_left].
  - split; [apply same_setup_refl | repeat split; auto].
  - destruct (IH (take_saved s x)) as (Hs & Hq & Ha & Hv & Hr).
    cbn in Hq, Ha, Hv, Hr |- *.
    split; [|split; [|split; [|split]]]; try assumption.
    + destruct Hs as [H1 H2 H3 H4 H5]. cbn in H1, H2, H3, H4, H5.
      constructor; assumption.
    + rewrite Hr, length_app. cbn. lia.
Qed.

Lemma start_counted P s : fresh s -> counted P s (start s).
Proof.
  intros [Hr Ha Hv Hq Hm Hn]. constructor; cbn; try reflexivity;
    try discriminate; try assumption.
  - unfold in_flight. rewrite Hr, Ha, Hv, Hq. reflexivity.
  - exists []. split; [reflexivity | intros f []].
  - intros task [].
Qed.

(** A step that leaves the generator and the submitted tasks alone. *)
Lemma counted_step P s w w' :
  counted P s w ->
  same_setup (self w) (self w') ->
  (List.length (results (self w')) + in_flight (self w')
   = List.length (results (self w)) + in_flight (self w))%nat ->
  task_generator w' = task_generator w ->
  submitted w' = submitted w ->
  (at_place w' = Start -> at_place w = Start) ->
  (past_generation (at_place w') = true ->
   past_generation (at_place w) = true) ->
  (at_place w' = Returned ->
   (number_of_tasks (self w) <= List.length (results (self w')))%nat) ->
  (forall e, at_place w' = Raised e -> at_place w = Raised e) ->
  counted P s w'.
Proof.
  intros [] [] Hc Hg Hs Hstart Hpast Hret Hraise.
  constructor; rewrite ?Hg, ?Hs; try congruence; auto;
    try (intros Hr; rewrite same_number0; auto).
Qed.

Lemma counted_raise P s w e :
  counted P s w ->
  (validate_indices (selected_indices s) = Raises e /\
   created (task_generator w) = 0%nat)
  \/ next P (task_generator w) = Raises e ->
  counted P s (goto (Raised e) w).
Proof.
  intros [] He. constructor; cbn; try congruence; auto; try discriminate.
Qed.

Ltac plain_step P s w Ep :=
  apply (counted_step P s w); cbn; auto; try discriminate;
  try (intros D; discriminate D);
  try apply same_setup_refl; try (rewrite Ep; reflexivity).

Lemma counted_execute_step P s w :
  counted P s w -> counted P s (execute_step P w).
Proof.
  intros H. unfold execute_step.
  destruct (at_place w) eqn:Ep.
  - (* Start *)
    destruct (validate_indices (selected_indices (self w))) as [u|e|] eqn:Ev.
    + apply (counted_step P s w); cbn; auto; try discriminate.
      apply same_setup_refl.
    + apply counted_raise; [exact H|]. left.
      split; [|apply (counted_start _ _ _ H Ep)].
      now rewrite <- (counted_selected _ _ _ H).
    + apply (counted_step P s w); cbn; auto; try discriminate.
      apply same_setup_refl.
  - (* NextTask *)
    destruct (next P (task_generator w)) as [[[task g]|]|e|] eqn:En.
    + pose proof (next_yields _ _ _ _ En) as Y.
      destruct Y as [Yc Yt Ys Yp [newly [Yf Yv]] _ _].
      destruct H as [? ? ? ? ? ? [op [Hop Hov]] ? ? ? ? ?].
      destruct (gt (total_memory_usage task) (max_memory_usage (self w))).
      * constructor; cbn; try congruence; try discriminate.
        -- unfold in_flight in *. cbn. rewrite length_app. cbn. lia.
        -- lia.
        -- exists (op ++ newly)%list. split.
           ++ rewrite <- app_assoc, <- Yf. exact Hop.
           ++ intros f Hf. apply in_app_or in Hf as [Hf|Hf]; auto.
        -- intros t Ht. specialize (counted_submitted0 t Ht). lia.
      * constructor; cbn; try congruence; try discriminate.
        -- unfold in_flight in *. cbn. rewrite length_app. cbn. lia.
        -- lia.
        -- exists (op ++ newly)%list. split.
           ++ rewrite <- app_assoc, <- Yf. exact Hop.
           ++ intros f Hf. apply in_app_or in Hf as [Hf|Hf]; auto.
        -- intros t Ht. apply in_app_or in Ht as [Ht|[<-|[]]].
           ++ specialize (counted_submitted0 t Ht). lia.
           ++ lia.
    + pose proof (next_stops _ _ En) as Hz.
      destruct H. constructor; cbn; try congruence; auto; try discriminate.
    + apply counted_raise; [exact H | now right].
    + apply (counted_step P s w); cbn; auto; try discriminate.
      apply same_setup_refl.
  - (* Transfer *)
    destruct (transfer_from_counts (table w)
                (List.length (active_tasks (self w))) 0 (self w))
      as (Hs & Hq & Hc).
    apply (counted_step P s w); cbn; auto; try discriminate.
    + unfold in_flight, transfer_finished_tasks_to_saving_queue.
      rewrite Hq. lia.
    + destruct k; cbn; rewrite Ep; auto.
  - (* Save *)
    apply (counted_step P s w); cbn; auto; try discriminate.
    + constructor; reflexivity.
    + unfold in_flight. cbn. rewrite length_app, length_map. lia.
    + destruct k; cbn; rewrite Ep; auto.
  - (* GetSaved *)
    unfold get_saved_rasters. cbn.
    destruct (take_saved_counts
                (RasterSaveTask.saved_rasters (raster_save_task (self w)))
                (set_raster_save_task
                   {| RasterSaveTask.task_queue :=
                        RasterSaveTask.task_queue (raster_save_task (self w));
                      RasterSaveTask.running :=
                        RasterSaveTask.running (raster_save_task (self w));
                      RasterSaveTask.saved_rasters := [] |} (self w)))
      as (Hs & Hq & Ha & Hv & Hr).
    cbn in Hq, Ha, Hv, Hr.
    apply (counted_step P s w); cbn; auto; try discriminate.
    + destruct Hs as [H1 H2 H3 H4 H5]. cbn in H1, H2, H3, H4, H5.
      constructor; assumption.
    + unfold in_flight. rewrite Hq, Ha, Hv, Hr. cbn. lia.
    + destruct k; discriminate.
    + destruct k; cbn; rewrite ?Ep; cbn; auto; discriminate.
    + destruct k; discriminate.
    + destruct k; discriminate.
  - (* WaitIf *)
    destruct (over_either (self w)); plain_step P s w Ep.
  - (* WaitWhile *)
    destruct (over_both (self w) && none_finished (table w) (self w));
      plain_step P s w Ep.
  - (* WaitSleep *)
    plain_step P s w Ep.
  - (* ActiveWhile *)
    destruct (0 <? List.length (active_tasks (self w)))%nat;
      plain_step P s w Ep.
  - (* ActiveSleep *)
    plain_step P s w Ep.
  - (* ResultsWhile *)
    destruct (List.length (results (self w)) <? number_of_tasks (self w))%nat
      eqn:El; plain_step P s w Ep.
    intros _. apply Nat.ltb_ge in El. exact El.
  - (* ResultsSleep *)
    plain_step P s w Ep.
  - exact H.
  - exact H.
  - exact H.
Qed.

Lemma counted_fire P s e w w' :
  counted P s w -> fire P e w = Some w' -> counted P s w'.
Proof.
  intros H. destruct e as [|id ev elapsed|conversion]; cbn [fire].
  - intros E; inversion E; subst. now apply counted_execute_step.
  - destruct (find_task id (submitted w)); [|discriminate].
    destruct (finished (table w) id); [discriminate|].
    intros E; inversion E; subst; clear E.
    apply (counted_step P s w); cbn; auto.
    + apply same_setup_refl.
    + apply (counted_returned _ _ _ H).
  - destruct (save_task_added w); [|discriminate].
    unfold RasterSaveTask.run_pass.
    destruct (RasterSaveTask.running (raster_save_task (self w)));
      [|discriminate].
    destruct (RasterSaveTask.task_queue (raster_save_task (self w)))
      as [|item queue] eqn:Eq; [discriminate|].
    intros E; inversion E; subst; clear E.
    apply (counted_step P s w); cbn; auto.
    + constructor; reflexivity.
    + unfold in_flight. cbn. rewrite Eq, length_app. cbn. lia.
    + apply (counted_returned _ _ _ H).
Qed.

Lemma run_invariant P (I : process -> Prop) :
  (forall e w w', I w -> fire P e w = Some w' -> I w') ->
  forall events w w', I w -> run P events w = Some w' -> I w'.
Proof.
  intros Hstep. induction events as [|e events IH]; intros w w' Hw;
    cbn [run].
  - intros E; inversion E; subst. exact Hw.
  - destruct (fire P e w) as [w1|] eqn:Ef; [|discriminate].
    apply IH. exact (Hstep _ _ _ Hw Ef).
Qed.

Lemma reachable_counted P s w :
  fresh s -> reachable P s w -> counted P s w.
Proof.
  intros Hf [events Hr].
  apply (run_invariant P (counted P s) (counted_fire P s) events
           (start s) w); [now apply start_counted | exact Hr].
Qed.

End CountFacts.

(** ** The memory counter *)

Module MemoryFacts.

Import PyStr RasterIndexCalculatorTask RasterIndexCalculator SchedulerSpec
       GeneratorFacts CountFacts.

Lemma total_app (a b : list Q) : (total (a ++ b) == total a + total b)%Q.
Proof.
  induction a as [|x a IH]; cbn [app total]; [lra | rewrite IH; lra].
Qed.

Lemma total_nonneg (l : list Q) :
  Forall (fun q => (0 <= q)%Q) l -> (0 <= total l)%Q.
Proof.
  induction 1 as [|x l Hx _ IH]; cbn [total]; lra.
Qed.

Lemma remove_in task x (l : list RasterIndexCalculatorTask.t) :
  In x (remove task l) -> In x l.
Proof.
  induction l as [|y l IH]; [auto|].
  cbn [remove]. destruct (Nat.eqb (tid y) (tid task)).
  - intros H. now right.
  - intros [->|H]; [now left | right; auto].
Qed.

Lemma remove_nodup task (l : list RasterIndexCalculatorTask.t) :
  NoDup (map tid l) -> NoDup (map tid (remove task l)).
Proof.
  induction l as [|y l IH]; [auto|].
  cbn [remove map]. intros H. inversion H as [|? ? Hn Hd]; subst.
  destruct (Nat.eqb (tid y) (tid task)); [exact Hd|].
  cbn [map]. constructor; [|auto].
  intros Hin. apply Hn. apply in_map_iff in Hin as (x & Hx & Hin).
  apply in_map_iff. exists x. split; [exact Hx|].
  eapply remove_in; eauto.
Qed.

Lemma remove_total task (l : list RasterIndexCalculatorTask.t) :
  In task l -> NoDup (map tid l) ->
  (total (map total_memory_usage (remove task l))
   == total (map total_memory_usage l) - total_memory_usage task)%Q.
Proof.
  induction l as [|y l IH]; intros Hin Hd; [destruct Hin|].
  cbn [remove map total]. inversion Hd as [|? ? Hn Hd']; subst.
  destruct (Nat.eqb (tid y) (tid task)) eqn:E.
  - apply Nat.eqb_eq in E.
    destruct Hin as [->|Hin]; [lra|].
    exfalso. apply Hn. rewrite E. now apply in_map.
  - destruct Hin as [->|Hin]; [now rewrite Nat.eqb_refl in E|].
    cbn [map total]. rewrite (IH Hin Hd'). lra.
Qed.

Lemma remove_forall (Q : RasterIndexCalculatorTask.t -> Prop) task l :
  Forall Q l -> Forall Q (remove task l).
Proof.
  rewrite !Forall_forall. intros H x Hx. apply H.
  eapply remove_in; eauto.
Qed.

Lemma balanced_nonneg n s : balanced n s -> (0 <= memory_usage s)%Q.
Proof.
  intros [Hm Ha Hv Hq Hb _ _]. rewrite Hm.
  pose proof (total_nonneg (map total_memory_usage (active_tasks s))) as H1.
  pose proof (total_nonneg (map (fun tr => total_memory_usage (fst tr))
                              (saving_tasks_queue s))) as H2.
  pose proof (total_nonneg (map RasterSaveTask.estimated_size
                (RasterSaveTask.task_queue (raster_save_task s)))) as H3.
  pose proof (total_nonneg (map RasterSaveTask.total_saved_size
                (RasterSaveTask.saved_rasters (raster_save_task s)))) as H4.
  rewrite Forall_map in H1, H2, H3, H4.
  specialize (H1 Ha). specialize (H2 Hv). specialize (H3 Hq).
  specialize (H4 Hb). lra.
Qed.

Lemma transfer_from_balanced n table passes :
  forall i s, balanced n s -> balanced n (transfer_from passes i table s).
Proof.
  induction passes as [|passes IH]; intros i s H; cbn [transfer_from];
    [exact H|].
  destruct (nth_error (active_tasks s) i) as [task|] eqn:En; [|exact H].
  destruct (finished table (tid task)) as [r|]; [|now apply IH].
  apply IH. pose proof (nth_error_In _ _ En) as Hin.
  destruct H as [Hm Ha Hv Hq Hb Ht Hd].
  pose proof (remove_total task _ Hin Hd) as Hr.
  assert (Hc : (0 <= total_memory_usage task)%Q)
    by (rewrite Forall_forall in Ha; now apply Ha).
  destruct (String.eqb (calculation_status r) "success"); constructor; cbn;
    try assumption;
    try (now apply remove_forall); try (now apply remove_nodup);
    try (intros x Hx; apply Ht; eapply remove_in; eauto).
  - rewrite Hr, map_app, total_app. cbn. lra.
  - apply Forall_app. split; [assumption|]. constructor; [exact Hc|constructor].
  - rewrite Hr. lra.
Qed.

Lemma take_saved_balanced n saved :
  forall s,
    RasterSaveTask.saved_rasters (raster_save_task s) = [] ->
    (memory_usage s
     == total (map total_memory_usage (active_tasks s))
        + total (map (fun tr => total_memory_usage (fst tr))
                   (saving_tasks_queue s))
        + total (map RasterSaveTask.estimated_size
                   (RasterSaveTask.task_queue (raster_save_task s)))
        + total (map RasterSaveTask.total_saved_size saved))%Q ->
    Forall (fun task => (0 <= total_memory_usage task)%Q) (active_tasks s) ->
    Forall (fun tr => (0 <= total_memory_usage (fst tr))%Q)
      (saving_tasks_queue s) ->
    Forall (fun i => (0 <= RasterSaveTask.estimated_size i)%Q)
      (RasterSaveTask.task_queue (raster_save_task s)) ->
    (forall task, In task (active_tasks s) -> (tid task < n)%nat) ->
    NoDup (map tid (active_tasks s)) ->
    balanced n (fold_left take_saved saved s).
Proof.
  induction saved as [|x saved IH]; intros s Hb Hm Ha Hv Hq Ht Hd;
    cbn [fold_left].
  - constructor; try assumption; rewrite Hb; [|constructor].
    cbn in Hm |- *. lra.
  - apply IH; cbn; try assumption.
    cbn [map total] in Hm. rewrite Hm. lra.
Qed.

Lemma nodup_snoc (l : list nat) (x : nat) :
  NoDup l -> ~ In x l -> NoDup (l ++ [x]).
Proof.
  induction l as [|y l IH]; intros Hd Hn; cbn [app].
  - constructor; [intros [] | constructor].
  - inversion Hd as [|? ? Hy Hd']; subst. constructor.
    + intros Hin. apply in_app_or in Hin as [Hin|[->|[]]]; [auto|].
      apply Hn. now left.
    + apply IH; [exact Hd'|]. intros Hin. apply Hn. now right.
Qed.

Lemma accounted_execute_step P w :
  accounted w -> accounted (execute_step P w).
Proof.
  intros [H Ho]. unfold execute_step.
  destruct (at_place w) eqn:Ep; try (split; assumption).
  - destruct (validate_indices (selected_indices (self w)));
      split; assumption.
  - destruct (next P (task_generator w)) as [[[task g]|]|e|] eqn:En;
      try (split; assumption).
    pose proof (next_yields _ _ _ _ En) as Y.
    destruct Y as [Yc Yt _ _ _ Yz _].
    destruct (Yz Ho) as [Hc Ho']. clear Yz.
    destruct H as [Hm Ha Hv Hq Hb Ht Hd].
    destruct (gt (total_memory_usage task) (max_memory_usage (self w)));
      (split; [|exact Ho']); constructor; cbn; try assumption.
    + intros x Hx. specialize (Ht x Hx). lia.
    + rewrite Hm, map_app, total_app. cbn. lra.
    + apply Forall_app. split; [assumption|]. constructor; [exact Hc|constructor].
    + intros x Hx. apply in_app_or in Hx as [Hx|[<-|[]]];
        [specialize (Ht x Hx)|]; lia.
    + rewrite map_app. apply nodup_snoc; [exact Hd|].
      intros Hin. apply in_map_iff in Hin as (x & Hx & Hin).
      specialize (Ht x Hin). lia.
  - split; [|exact Ho]. cbn. now apply transfer_from_balanced.
  - split; [|exact Ho]. cbn.
    destruct H as [Hm Ha Hv Hq Hb Ht Hd]. constructor; cbn; try assumption.
    + rewrite Hm, map_app, total_app, map_map. cbn. lra.
    + constructor.
    + apply Forall_app. split; [assumption|].
      rewrite Forall_map. exact Hv.
  - split; [|exact Ho]. cbn. unfold get_saved_rasters. cbn.
    destruct H as [Hm Ha Hv Hq Hb Ht Hd].
    apply take_saved_balanced; cbn; try assumption; reflexivity.
  - destruct (over_either (self w)); split; assumption.
  - destruct (over_both (self w) && none_finished (table w) (self w));
      split; assumption.
  - destruct (0 <? List.length (active_tasks (self w)))%nat; split; assumption.
  - destruct (List.length (results (self w)) <? number_of_tasks (self w))%nat;
      split; assumption.
Qed.

Lemma accounted_fire P e w w' :
  accounted w -> fire P e w = Some w' -> accounted w'.
Proof.
  intros H. destruct e as [|id ev elapsed|conversion]; cbn [fire].
  - intros E; inversion E; subst. now apply accounted_execute_step.
  - destruct (find_task id (submitted w)); [|discriminate].
    destruct (finished (table w) id); [discriminate|].
    intros E; inversion E; subst; clear E. exact H.
  - destruct (save_task_added w); [|discriminate].
    unfold RasterSaveTask.run_pass.
    destruct (RasterSaveTask.running (raster_save_task (self w)));
      [|discriminate].
    destruct (RasterSaveTask.task_queue (raster_save_task (self w)))
      as [|item queue] eqn:Eq; [discriminate|].
    intros E; inversion E; subst; clear E.
    destruct H as [[Hm Ha Hv Hq Hb Ht Hd] Ho]. split; [|exact Ho].
    rewrite Eq in Hm, Hq. inversion Hq as [|? ? Hi Hq']; subst.
    constructor; cbn; try assumption.
    + rewrite Hm, map_app, total_app. cbn. lra.
    + apply Forall_app. split; [assumption|].
      constructor; [exact Hi | constructor].
Qed.

Lemma start_accounted s : fresh s -> accounted (start s).
Proof.
  intros [Hr Ha Hv Hq Hm Hn]. split; [|discriminate].
  constructor; cbn; rewrite ?Ha, ?Hv, ?Hq, ?Hm; cbn;
    try constructor; try (intros x []); try lra.
Qed.

Lemma reachable_accounted P s w :
  fresh s -> reachable P s w -> accounted w.
Proof.
  intros Hf [events Hr].
  apply (run_invariant P accounted (accounted_fire P) events (start s) w);
    [now apply start_accounted | exact Hr].
Qed.

End MemoryFacts.

(** ** A run that returns *)

Module LiveFacts.

Import PyStr RasterIndexCalculatorTask RasterIndexCalculator SchedulerSpec
       GeneratorFacts CountFacts MemoryFacts.

Lemma run_app P (a b : list event) (w : process) :
  run P (a ++ b) w
  = match run P a w with Some w' => run P b w' | None => None end.
Proof.
  revert w. induction a as [|e a IH]; intros w; cbn [app run]; [reflexivity|].
  destruct (fire P e w); [apply IH | reflexivity].
Qed.

Lemma find_task_new (l : list RasterIndexCalculatorTask.t) task :
  (forall x, In x l -> (tid x < tid task)%nat) ->
  find_task (tid task) (l ++ [task]) = Some task.
Proof.
  unfold find_task. induction l as [|y l IH]; intros H; cbn [app find].
  - now rewrite Nat.eqb_refl.
  - destruct (Nat.eqb (tid y) (tid task)) eqn:E.
    + apply Nat.eqb_eq in E. specialize (H y (or_introl eq_refl)). lia.
    + apply IH. intros x Hx. apply H. now right.
Qed.

Lemma finished_new (tb : progress_table) (id : nat) :
  (forall x, In x tb -> (fst x < id)%nat) -> finished tb id = None.
Proof.
  induction tb as [|[id' r] tb IH]; intros H; cbn [finished]; [reflexivity|].
  destruct (Nat.eqb id id') eqn:E.
  - apply Nat.eqb_eq in E. specialize (H _ (or_introl eq_refl)). cbn in H. lia.
  - apply IH. intros x Hx. apply H. now right.
Qed.

Lemma ge_zero_false (m b : Q) :
  (m == 0)%Q -> (0 < b)%Q -> ge m b = false.
Proof.
  intros Hm Hb. unfold ge. destruct (Qle_bool b m) eqn:E; [|reflexivity].
  apply Qle_bool_iff in E. lra.
Qed.

Lemma idle_task P w task g :
  idle w ->
  next P (task_generator w) = Returns (Some (task, g)) ->
  (0 < max_memory_usage (self w))%Q \/ (0 < max_active_tasks (self w))%Z ->
  exists events w',
    run P events w = Some w' /\ idle w' /\ task_generator w' = g /\
    same_setup (self w) (self w').
Proof.
  intros [Hp Hadd Ha Hv Hq Hm Hs Ht] En Hcfg.
  pose proof (next_yields _ _ _ _ En) as [Yc Yt _ _ _ _ _].
  destruct w as [s0 g0 added sub tb pl].
  destruct s0 as [ins sel bm out res mx cap act sav mem num prog pstep save].
  cbn in Hp, Hadd, Ha, Hv, Hq, Hm, Hs, Ht, En, Hcfg, Yc, Yt. subst.
  destruct (gt (total_memory_usage task) mx) eqn:Eg.
  - exists [Control]. eexists. cbn. rewrite En, Eg. split; [reflexivity|].
    split; [|split; [reflexivity | constructor; reflexivity]].
    constructor; cbn; auto.
    + intros x Hx. specialize (Hs x Hx). lia.
    + intros x Hx. specialize (Ht x Hx). lia.
  - assert (Hf : find_task (tid task) (sub ++ [task]) = Some task).
    { apply find_task_new. intros x Hx. specialize (Hs x Hx). lia. }
    assert (Hn : finished tb (tid task) = None).
    { apply finished_new. intros x Hx. specialize (Ht x Hx). lia. }
    set (w0 := {| self := {| input_files := ins; selected_indices := sel;
                   self_band_mapping := bm; output_dir := out; results := res;
                   max_memory_usage := mx; max_active_tasks := cap;
                   active_tasks := []; saving_tasks_queue := [];
                   memory_usage := mem; number_of_tasks := num;
                   progress := prog; progress_step := pstep;
                   raster_save_task := RasterSaveTask.init |};
                 task_generator := g0; save_task_added := true;
                 submitted := sub; table := tb; at_place := NextTask |}).
    set (pre := [Control; TaskFinishes (tid task) Success 0%Q; Control;
                 Control; SaveWorker None; Control]).
    assert (Hpre : exists w6,
              run P pre w0 = Some w6 /\ at_place w6 = WaitIf /\
              idle (goto NextTask w6) /\ task_generator w6 = g /\
              same_setup (self w0) (self w6)).
    { eexists. split.
      - unfold pre, w0. cbn [run fire].
        cbn [execute_step at_place task_generator self].
        rewrite En. cbn [max_memory_usage]. rewrite Eg.
        cbn [submitted table]. rewrite Hf, Hn.
        cbn. rewrite Nat.eqb_refl. cbn. rewrite Nat.eqb_refl. cbn.
        reflexivity.
      - cbn. split; [reflexivity|]. split; [|split; [reflexivity|]].
        + constructor; cbn; auto.
          * lra.
          * intros x Hx. apply in_app_or in Hx as [Hx|[<-|[]]];
              [specialize (Hs x Hx)|]; lia.
          * intros x [<-|Hx]; [cbn; lia | specialize (Ht x Hx); lia].
        + constructor; reflexivity. }
    destruct Hpre as (w6 & Hrun & Hplace & Hidle & Hgen & Hsame).
    assert (Hboth : over_both (self w6)
                    && none_finished (table w6) (self w6) = false).
    { apply andb_false_iff. left. unfold over_both.
      destruct Hidle as [_ _ Ha6 _ _ Hm6 _ _]. cbn in Ha6, Hm6.
      destruct Hsame as [_ _ _ Hb Hc]. cbn in Hb, Hc.
      rewrite Ha6, Hb, Hc. cbn [List.length Z.of_nat].
      destruct Hcfg as [Hmx|Hcap].
      - now rewrite (ge_zero_false _ _ Hm6 Hmx).
      - apply andb_false_iff. right. apply Z.leb_gt. exact Hcap. }
    destruct (over_either (self w6)) eqn:Ee.
    + exists (pre ++ [Control; Control])%list, (goto NextTask w6).
      split; [|auto].
      rewrite run_app, Hrun. cbn [run fire]. unfold execute_step at 2.
      rewrite Hplace, Ee. unfold execute_step.
      cbn [goto at_place self table]. now rewrite Hboth.
    + exists (pre ++ [Control])%list, (goto NextTask w6).
      split; [|auto].
      rewrite run_app, Hrun. cbn [run fire]. unfold execute_step.
      now rewrite Hplace, Ee.
Qed.

Lemma idle_returns P s (bound : nat) :
  forall w tasks,
    idle w -> counted P s w ->
    (0 < max_memory_usage (self w))%Q \/ (0 < max_active_tasks (self w))%Z ->
    remaining_tasks bound P (task_generator w) = Returns tasks ->
    exists events w', run P events w = Some w' /\ at_place w' = Returned.
Proof.
  induction bound as [|bound IH]; intros w tasks Hi Hc Hcfg Hr;
    cbn [remaining_tasks] in Hr;
    destruct (next P (task_generator w)) as [[[task g]|]|e|] eqn:En;
    try discriminate.
  1, 3: (exists [Control; Control; Control], (goto Returned w);
         split; [|reflexivity];
         destruct Hi as [Hp _ Ha Hv Hq _ _ _];
         pose proof (next_stops _ _ En) as Hz;
         destruct Hc as [_ _ _ Hn Hcr Hpe _ _ _ _ _ _];
         unfold in_flight in Hcr; rewrite Ha, Hv, Hq in Hcr; cbn in Hcr;
         assert (Hlt : (List.length (results (self w))
                        <? number_of_tasks (self w))%nat = false)
           by (apply Nat.ltb_ge; lia);
         assert (E1 : execute_step P w = goto ActiveWhile w)
           by (unfold execute_step; now rewrite Hp, En);
         assert (E2 : execute_step P (goto ActiveWhile w)
                      = goto ResultsWhile w)
           by (unfold execute_step; cbn [goto at_place self];
               now rewrite Ha);
         assert (E3 : execute_step P (goto ResultsWhile w)
                      = goto Returned w)
           by (unfold execute_step; cbn [goto at_place self];
               now rewrite Hlt);
         cbn [run fire]; now rewrite E1, E2, E3).
  destruct (remaining_tasks bound P g) as [rest| |] eqn:Er; try discriminate.
  destruct (idle_task P w task g Hi En Hcfg)
    as (ev1 & w1 & Hrun1 & Hi1 & Hg1 & Hsame).
  assert (Hc1 : counted P s w1)
    by exact (run_invariant P (counted P s) (counted_fire P s) ev1 w w1
                Hc Hrun1).
  destruct (IH w1 rest Hi1 Hc1) as (ev2 & w2 & Hrun2 & Hp2).
  - destruct Hsame as [_ _ _ Hb Hcap]. now rewrite Hb, Hcap.
  - now rewrite Hg1.
  - exists (ev1 ++ ev2)%list, w2. split; [|exact Hp2].
    now rewrite run_app, Hrun1.
Qed.

Lemma execute_can_return P s :
  fresh s -> valid_inputs P s ->
  (0 < max_memory_usage s)%Q \/ (0 < max_active_tasks s)%Z ->
  exists w, reachable P s w /\ at_place w = Returned.
Proof.
  intros Hf [Hv [tasks Ht]] Hcfg.
  pose proof (start_counted P s Hf) as Hc0.
  set (w1 := execute_step P (start s)).
  assert (Hw1 : w1 = {| self := s;
                        task_generator :=
                          create_tasks (input_files s) (output_dir s)
                            (self_band_mapping s) (selected_indices s);
                        save_task_added := true; submitted := [];
                        table := []; at_place := NextTask |}).
  { unfold w1, execute_step. cbn [start at_place self]. now rewrite Hv. }
  assert (Hc1 : counted P s w1) by now apply counted_execute_step.
  assert (Hi1 : idle w1).
  { rewrite Hw1. destruct Hf as [Hr Ha Hs Hq Hm Hn].
    constructor; cbn; auto; try (intros x []). now rewrite Hm. }
  destruct (idle_returns P s (number_of_tasks s) w1 tasks Hi1 Hc1)
    as (events & w' & Hrun & Hp).
  - rewrite Hw1. exact Hcfg.
  - rewrite Hw1. exact Ht.
  - exists w'. split; [|exact Hp].
    exists (Control :: events). cbn [run fire]. exact Hrun.
Qed.

Lemma init_fresh input_files selected band_mapping output_dir budget cap s :
  init input_files selected band_mapping output_dir budget cap = Returns s ->
  fresh s /\
  RasterIndexCalculator.input_files s = input_files /\
  selected_indices s = split "," selected /\
  max_memory_usage s = budget /\ max_active_tasks s = cap.
Proof.
  unfold init, calculate_progress_step.
  destruct (List.length input_files * List.length (split "," selected))%nat
    eqn:E; cbn [bind]; [discriminate|].
  intros H; inversion H; subst; clear H. cbn.
  repeat split; auto.
Qed.

End LiveFacts.

(** ** Admission *)

Module BudgetFacts.

Import PyStr RasterIndexCalculatorTask RasterIndexCalculator SchedulerSpec
       GeneratorFacts CountFacts MemoryFacts.

Lemma execute_step_setup P w : same_setup (self w) (self (execute_step P w)).
Proof.
  unfold execute_step. destruct (at_place w).
  - destruct (validate_indices (selected_indices (self w)));
      apply same_setup_refl.
  - destruct (next P (task_generator w)) as [[[task g]|]|e|];
      try apply same_setup_refl.
    destruct (gt (total_memory_usage task) (max_memory_usage (self w)));
      constructor; reflexivity.
  - apply transfer_from_counts.
  - constructor; reflexivity.
  - cbn. unfold get_saved_rasters. cbn.
    match goal with
    | |- same_setup _ (fold_left take_saved ?l ?x) =>
        destruct (take_saved_counts l x) as ([H1 H2 H3 H4 H5] & _)
    end.
    cbn in H1, H2, H3, H4, H5. constructor; assumption.
  - destruct (over_either (self w)); apply same_setup_refl.
  - destruct (over_both (self w) && none_finished (table w) (self w));
      apply same_setup_refl.
  - apply same_setup_refl.
  - destruct (0 <? List.length (active_tasks (self w)))%nat;
      apply same_setup_refl.
  - apply same_setup_refl.
  - destruct (List.length (results (self w)) <? number_of_tasks (self w))%nat;
      apply same_setup_refl.
  - apply same_setup_refl.
  - apply same_setup_refl.
  - apply same_setup_refl.
  - apply same_setup_refl.
Qed.

Lemma execute_step_submitted P w task :
  In task (submitted (execute_step P w)) ->
  In task (submitted w) \/
  gt (total_memory_usage task) (max_memory_usage (self w)) = false.
Proof.
  unfold execute_step. destruct (at_place w); try (cbn; auto; fail).
  - destruct (validate_indices (selected_indices (self w))); cbn; auto.
  - destruct (next P (task_generator w)) as [[[task' g]|]|e|]; cbn; auto.
    destruct (gt (total_memory_usage task') (max_memory_usage (self w)))
      eqn:E; cbn; auto.
    intros H. apply in_app_or in H as [H|[<-|[]]]; auto.
  - destruct (over_either (self w)); cbn; auto.
  - destruct (over_both (self w) && none_finished (table w) (self w));
      cbn; auto.
  - destruct (0 <? List.length (active_tasks (self w)))%nat; cbn; auto.
  - destruct (List.length (results (self w)) <? number_of_tasks (self w))%nat;
      cbn; auto.
Qed.

Lemma within_budget_fire P s e w w' :
  within_budget s w -> fire P e w = Some w' -> within_budget s w'.
Proof.
  intros [Hb Hs]. destruct e as [|id ev elapsed|conversion]; cbn [fire].
  - intros E; inversion E; subst; clear E. split.
    + rewrite <- Hb. apply (same_budget _ _ (execute_step_setup P w)).
    + intros task Ht. apply execute_step_submitted in Ht as [Ht|Ht]; auto.
      now rewrite <- Hb.
  - destruct (find_task id (submitted w)); [|discriminate].
    destruct (finished (table w) id); [discriminate|].
    intros E; inversion E; subst; clear E. split; assumption.
  - destruct (save_task_added w); [|discriminate].
    destruct (RasterSaveTask.run_pass conversion (raster_save_task (self w)));
      [|discriminate].
    intros E; inversion E; subst; clear E. split; assumption.
Qed.

Lemma reachable_within_budget P s w :
  reachable P s w -> within_budget s w.
Proof.
  intros [events Hr].
  apply (run_invariant P (within_budget s) (within_budget_fire P s) events
           (start s) w); [|exact Hr].
  split; [reflexivity | intros task []].
Qed.

Lemma gt_false_le (a b : Q) : gt a b = false -> (a <= b)%Q.
Proof.
  unfold gt. intros H. apply negb_false_iff in H.
  now apply Qle_bool_iff.
Qed.

Lemma gt_true_lt (a b : Q) : (b < a)%Q -> gt a b = true.
Proof.
  unfold gt. intros H. apply negb_true_iff.
  destruct (Qle_bool a b) eqn:E; [|reflexivity].
  apply Qle_bool_iff in E. lra.
Qed.

End BudgetFacts.

(** ** The completion buffer of the save worker *)

Module BufferFacts.

Import RasterSaveTask.

Lemma run_ops_conserves (ops : list buffer_op) :
  forall self,
    (saved_rasters self ++ appended ops
     = concat (fst (run_ops ops self))
       ++ saved_rasters (snd (run_ops ops self)))%list.
Proof.
  induction ops as [|[record|] ops IH]; intros self; cbn [run_ops appended].
  - cbn. now rewrite app_nil_r.
  - rewrite <- IH. cbn. now rewrite <- app_assoc.
  - cbn [get_and_reset_saved_rasters].
    match goal with
    | |- context [run_ops ops ?x] =>
        specialize (IH x); destruct (run_ops ops x) as [outs self'']
    end.
    cbn in IH |- *. now rewrite <- app_assoc, <- IH.
Qed.

Lemma nodup_prefix {A : Type} (a b : list A) :
  NoDup (a ++ b) -> NoDup a.
Proof.
  induction a as [|x a IH]; intros H; [constructor|].
  cbn in H. inversion H as [|? ? Hn Hd]; subst. constructor; [|auto].
  intros Hin. apply Hn. apply in_or_app. now left.
Qed.

End BufferFacts.

(** * The specification, claim by claim *)

Import PyStr RasterIndexCalculatorTask RasterIndexCalculator FormulaSpec
       SchedulerSpec.

(** ** The formula resolver *)

(** C9.  An expression in which the resolver finds no function call,
    [func_<name>(<args>)], is returned unchanged, whatever the fuel. *)
Theorem flat_expression_unchanged (fuel : nat) (raster : QgsRasterLayer)
    (expression : string) (band_mapping : dict Z) :
  extract_special_functions expression = [] ->
  calculate_special_functions fuel raster expression band_mapping
  = Returns expression.
Proof.
  intros H. unfold calculate_special_functions,
    calculate_special_functions_in.
  rewrite H. destruct fuel; reflexivity.
Qed.

Lemma flat_expression_unchanged_witness :
  calculate_special_functions 0 Samples.raster "R / (R + G + B)"
    Samples.bands
  = Returns "R / (R + G + B)".
Proof.
  apply (flat_expression_unchanged 0 Samples.raster "R / (R + G + B)"
           Samples.bands).
  reflexivity.
Defined.

(** An expression without the text [func_] holds no function call. *)
Lemma no_func_no_call (expression : string) :
  occurs "func_" expression = false ->
  extract_special_functions expression = [].
Proof.
  intros H. unfold extract_special_functions.
  now rewrite (MatchFacts.findall_flat _ H).
Qed.

Lemma formula_names_are_words :
  Forall (fun name => name <> "" /\ all_chars is_word name = true)
    (map fst indices_formulas).
Proof.
  repeat (constructor; [split; [discriminate | reflexivity]|]).
  constructor.
Qed.

(** C2, as the code has it.  For every formula name [a] of the library
    whose template [t] holds no [func_], resolving [func_index(a)] takes
    one round and yields [t] wrapped in parentheses. *)
Theorem reference_yields_parenthesised_template (raster : QgsRasterLayer)
    (band_mapping : dict Z) (a t : string) :
  dict_get indices_formulas a = Some t ->
  occurs "func_" t = false ->
  calculate_special_functions 1 raster ("func_index(" ++ a ++ ")")
    band_mapping
  = Returns ("(" ++ t ++ ")").
Proof.
  intros Hd Ht.
  pose proof (LoopFacts.dict_get_in _ _ _ Hd) as Hin.
  pose proof formula_names_are_words as Hw.
  rewrite Forall_forall in Hw. destruct (Hw a Hin) as [Hne Hword].
  now apply LoopFacts.resolve_reference.
Qed.

Lemma reference_yields_parenthesised_template_witness :
  calculate_special_functions 1 Samples.raster "func_index(ExR_wernette)"
    Samples.bands
  = Returns "(1.4 * R - G)".
Proof.
  apply (reference_yields_parenthesised_template Samples.raster Samples.bands
           "ExR_wernette" "1.4 * R - G"); reflexivity.
Defined.

(** C2, as stated, fails: [ExR_wernette] has the template [1.4 * R - G],
    which holds no [func_], and [func_index(ExR_wernette)] resolves to
    [(1.4 * R - G)], which is not the template. *)
Lemma reference_is_not_bare_template :
  dict_get indices_formulas "ExR_wernette" = Some "1.4 * R - G" /\
  occurs "func_" "1.4 * R - G" = false /\
  calculate_special_functions 1 Samples.raster "func_index(ExR_wernette)"
    Samples.bands
  = Returns "(1.4 * R - G)" /\
  calculate_special_functions 1 Samples.raster "func_index(ExR_wernette)"
    Samples.bands
  <> Returns "1.4 * R - G".
Proof.
  repeat split; try reflexivity. vm_compute. discriminate.
Qed.

(** C8, as the code has it.  Let every [func_] in the template, and in the
    templates it refers to through [index] down to some depth, begin a call
    of one of the five macros whose argument text holds no [func_] and whose
    first argument is a band symbol of the mapping or a name of the
    library, and let the statistics be finite numbers.  Then the expansion
    loop ends: from some fuel on the resolver returns one and the same
    expression, and [func_] does not occur in it. *)
Theorem well_formed_template_resolves (formulas : dict string)
    (raster : QgsRasterLayer) (band_mapping : dict Z) (depth : nat)
    (template : string) :
  finite_statistics raster ->
  well_formed depth formulas band_mapping template = true ->
  exists (fuel : nat) (result : string),
    occurs "func_" result = false /\
    forall fuel', fuel <= fuel' ->
      calculate_special_functions_in formulas fuel' raster template
        band_mapping
      = Returns result.
Proof.
  intros Hfin Hwf.
  destruct (LoopFacts.well_formed_resolvable formulas band_mapping depth
              template Hwf) as [w Hw].
  destruct (LoopFacts.loop_resolvable formulas raster band_mapping Hfin w
              template Hw) as (r & Hr & Hloop).
  exists w, r. split; [exact Hr | exact Hloop].
Qed.

Lemma sample_statistics_finite : finite_statistics Samples.raster.
Proof. intros b. repeat split; reflexivity. Defined.

Lemma well_formed_template_resolves_witness :
  exists (fuel : nat) (result : string),
    occurs "func_" result = false /\
    forall fuel', fuel <= fuel' ->
      calculate_special_functions fuel' Samples.raster
        "func_index(ExGR_wernette)" Samples.bands
      = Returns result.
Proof.
  apply (well_formed_template_resolves indices_formulas Samples.raster
           Samples.bands 2 "func_index(ExGR_wernette)").
  - exact sample_statistics_finite.
  - vm_compute. reflexivity.
Defined.

(** Every template of the library is well formed for the bands [R], [G]
    and [B]. *)
Lemma library_well_formed :
  forallb (fun entry => well_formed 5 indices_formulas Samples.bands
                          (snd entry)) indices_formulas = true.
Proof. vm_compute. reflexivity. Qed.

Lemma unknown_macro_diverges (fuel : nat) :
  calculate_special_functions fuel Samples.raster "func_foo(R)" Samples.bands
  = Diverges.
Proof.
  unfold calculate_special_functions, calculate_special_functions_in.
  change (extract_special_functions "func_foo(R)")
    with [{| whole_match := "func_foo(R)"; function_name := "foo";
             parameters := ["R"] |}].
  induction fuel as [|fuel IH]; [reflexivity|].
  cbn [expansion_loop apply_functions]. unfold apply_function.
  cbn [function_name String.eqb Ascii.eqb Bool.eqb andb bind].
  change (extract_special_functions "func_foo(R)")
    with [{| whole_match := "func_foo(R)"; function_name := "foo";
             parameters := ["R"] |}].
  exact IH.
Qed.

(** C8, as stated, fails: the template [func_foo(R)] refers to no formula,
    so that its dependency graph is acyclic, and its argument [R] is in the
    band mapping; the loop finds the call in every round, substitutes
    nothing for it, and never ends. *)
Lemma unknown_macro_never_resolves :
  occurs "func_index" "func_foo(R)" = false /\
  dict_get Samples.bands "R" = Some 1%Z /\
  ~ (exists fuel result,
       calculate_special_functions fuel Samples.raster "func_foo(R)"
         Samples.bands
       = Returns result).
Proof.
  repeat split; try reflexivity.
  intros (fuel & result & H). rewrite unknown_macro_diverges in H.
  discriminate.
Qed.

(** ** The save worker *)

(** C6.  Whatever the sequence of appends and drains on the completion
    buffer of a new save worker: the records the drains return, one list
    after the other, followed by what the buffer still holds, are the
    records appended, in order, each one once; a drain returns the records
    appended before it that no earlier drain returned; and when the records
    appended are distinct no record is returned twice. *)
Theorem drain_exactly_once (ops : list RasterSaveTask.buffer_op) :
  (concat (fst (RasterSaveTask.run_ops ops RasterSaveTask.init))
   ++ RasterSaveTask.saved_rasters
        (snd (RasterSaveTask.run_ops ops RasterSaveTask.init))
   = RasterSaveTask.appended ops)%list /\
  (forall before after,
     ops = (before ++ RasterSaveTask.Drain :: after)%list ->
     (concat (fst (RasterSaveTask.run_ops before RasterSaveTask.init))
      ++ fst (RasterSaveTask.get_and_reset_saved_rasters
                (snd (RasterSaveTask.run_ops before RasterSaveTask.init)))
      = RasterSaveTask.appended before)%list) /\
  (NoDup (RasterSaveTask.appended ops) ->
   NoDup (concat (fst (RasterSaveTask.run_ops ops RasterSaveTask.init)))).
Proof.
  pose proof (BufferFacts.run_ops_conserves ops RasterSaveTask.init) as H.
  cbn [RasterSaveTask.init RasterSaveTask.saved_rasters app] in H.
  split; [now rewrite <- H|]. split.
  - intros before after _.
    pose proof (BufferFacts.run_ops_conserves before RasterSaveTask.init)
      as Hb.
    cbn [RasterSaveTask.init RasterSaveTask.saved_rasters app] in Hb.
    cbn [RasterSaveTask.get_and_reset_saved_rasters fst]. now rewrite <- Hb.
  - intros Hd. rewrite H in Hd.
    exact (BufferFacts.nodup_prefix _ _ Hd).
Qed.

Lemma sample_records_distinct :
  NoDup (RasterSaveTask.appended Samples.buffer_accesses).
Proof.
  cbn. repeat constructor; cbn; intros H;
    repeat (destruct H as [H|H]; [discriminate H|]); exact H.
Defined.

Lemma drain_exactly_once_witness :
  NoDup (concat (fst (RasterSaveTask.run_ops Samples.buffer_accesses
                        RasterSaveTask.init))).
Proof.
  apply (drain_exactly_once Samples.buffer_accesses).
  exact sample_records_distinct.
Defined.

(** ** The scheduler *)

(** C10.  With an empty list of input files the constructor fails with a
    division by zero, whatever its other arguments: the number of tasks is
    0 and the progress step is 100 divided by it. *)
Theorem init_without_input_files (selected_indices : string)
    (band_mapping : dict Z) (output_dir : string) (max_memory_usage : Q)
    (max_active_tasks : Z) :
  init [] selected_indices band_mapping output_dir max_memory_usage
    max_active_tasks
  = Raises ZeroDivisionError.
Proof. reflexivity. Qed.

(** With an input file the constructor returns. *)
Lemma init_with_input_files (file : string) (input_files : list string)
    (selected_indices : string) (band_mapping : dict Z) (output_dir : string)
    (max_memory_usage : Q) (max_active_tasks : Z) :
  exists s,
    init (file :: input_files) selected_indices band_mapping output_dir
      max_memory_usage max_active_tasks
    = Returns s.
Proof.
  unfold init, calculate_progress_step.
  pose proof (GeneratorFacts.split_nonempty "," selected_indices) as H.
  destruct (split "," selected_indices) as [|x l]; [congruence|].
  cbn. eexists. reflexivity.
Qed.

(** C4.  When the generator yields a task whose size is above the budget,
    the step that takes it records an [error] result for it, with the
    message that it exceeds the maximum memory usage, and neither submits
    it nor reserves memory for it; and in no state of any run has a task
    above the budget been submitted. *)
Theorem oversized_task_rejected (P : platform) (s : t) :
  (forall w task g,
     at_place w = NextTask ->
     next P (task_generator w) = Returns (Some (task, g)) ->
     (max_memory_usage (self w) < total_memory_usage task)%Q ->
     results (self (execute_step P w))
     = (results (self w) ++ [rejection task])%list /\
     calculation_status (rejection task) = "error" /\
     message (rejection task)
     = Some ("Task Calculate " ++ index task
             ++ " exceeds the maximum memory usage") /\
     submitted (execute_step P w) = submitted w /\
     active_tasks (self (execute_step P w)) = active_tasks (self w) /\
     memory_usage (self (execute_step P w)) = memory_usage (self w) /\
     at_place (execute_step P w) = NextTask) /\
  (forall w task,
     reachable P s w -> In task (submitted w) ->
     (total_memory_usage task <= max_memory_usage s)%Q).
Proof.
  split.
  - intros w task g Hp Hn Hlt.
    pose proof (GeneratorFacts.next_yields _ _ _ _ Hn) as Y.
    unfold execute_step. rewrite Hp, Hn.
    rewrite (BudgetFacts.gt_true_lt _ _ Hlt). cbn.
    repeat split. now rewrite (yields_description _ _ _ _ Y).
  - intros w task Hr Hin.
    destruct (BudgetFacts.reachable_within_budget P s w Hr) as [_ Hs].
    apply BudgetFacts.gt_false_le. now apply Hs.
Qed.

Lemma oversized_task_rejected_witness :
  exists task,
    results (self (Samples.state_after Samples.files [Control; Control]
                     Samples.small_budget))
    = [rejection task] /\
    submitted (Samples.state_after Samples.files [Control; Control]
                 Samples.small_budget) = [].
Proof.
  pose (w := Samples.state_after Samples.files [Control]
               Samples.small_budget).
  destruct (next Samples.files (task_generator w)) as [[[task g]|]| |] eqn:En;
    try (vm_compute in En; discriminate En).
  exists task.
  destruct (proj1 (oversized_task_rejected Samples.files
                     Samples.small_budget) w task g eq_refl En)
    as (H1 & _ & _ & H2 & _).
  - vm_compute in En. inversion En; subst. vm_compute. reflexivity.
  - split; [exact H1 | exact H2].
Defined.

(** C7.  The control loop comes to the sleep of the wait exactly from the
    test of the wait with the memory counter at or over the budget, at
    least [max_active_tasks] active tasks, and no active task at 100%
    progress.  From that test it goes on to the next task as soon as an
    active task is at 100%, whatever the memory counter, or one of the two
    bounds is not reached; after the sleep it is at the test again. *)
Theorem backpressure_wait (P : platform) (w : process) :
  (at_place (execute_step P w) = WaitSleep <->
   at_place w = WaitWhile /\
   (max_memory_usage (self w) <= memory_usage (self w))%Q /\
   (max_active_tasks (self w)
    <= Z.of_nat (List.length (active_tasks (self w))))%Z /\
   (forall task, In task (active_tasks (self w)) ->
                 finished (table w) (tid task) = None)) /\
  (at_place w = WaitWhile ->
   (exists task, In task (active_tasks (self w)) /\
                 finished (table w) (tid task) <> None) ->
   execute_step P w = goto NextTask w) /\
  (at_place w = WaitWhile ->
   ~ ((max_memory_usage (self w) <= memory_usage (self w))%Q /\
      (max_active_tasks (self w)
       <= Z.of_nat (List.length (active_tasks (self w))))%Z) ->
   execute_step P w = goto NextTask w) /\
  (at_place w = WaitSleep -> execute_step P w = goto WaitWhile w) /\
  (at_place w = WaitIf ->
   execute_step P w = goto WaitWhile w \/ execute_step P w = goto NextTask w).
Proof.
  assert (Hboth : over_both (self w) = true <->
            (max_memory_usage (self w) <= memory_usage (self w))%Q /\
            (max_active_tasks (self w)
             <= Z.of_nat (List.length (active_tasks (self w))))%Z).
  { unfold over_both, ge. rewrite andb_true_iff, Qle_bool_iff, Z.leb_le.
    reflexivity. }
  assert (Hnone : none_finished (table w) (self w) = true <->
            forall task, In task (active_tasks (self w)) ->
                         finished (table w) (tid task) = None).
  { unfold none_finished. rewrite forallb_forall. split; intros H task Ht.
    - specialize (H task Ht).
      destruct (finished (table w) (tid task)); [discriminate | reflexivity].
    - now rewrite (H task Ht). }
  split; [|split; [|split; [|split]]].
  - split.
    + unfold execute_step.
      destruct (at_place w) eqn:Ep; cbn [at_place goto with_self];
        try discriminate; try (intros H; congruence).
      * destruct (validate_indices (selected_indices (self w)));
          cbn; discriminate.
      * destruct (next P (task_generator w)) as [[[task g]|]|e|];
          cbn; try discriminate.
        destruct (gt (total_memory_usage task) (max_memory_usage (self w)));
          cbn; discriminate.
      * destruct k; discriminate.
      * destruct (over_either (self w)); cbn; discriminate.
      * destruct (over_both (self w) && none_finished (table w) (self w))
          eqn:E; [|cbn; discriminate].
        intros _. apply andb_true_iff in E as [Eb En].
        apply Hboth in Eb. destruct Eb.
        repeat split; try assumption. now apply Hnone.
      * destruct (0 <? List.length (active_tasks (self w)))%nat;
          cbn; discriminate.
      * destruct (List.length (results (self w))
                  <? number_of_tasks (self w))%nat; cbn; discriminate.
    + intros (Hp & Hm & Hc & Hn). unfold execute_step. rewrite Hp.
      rewrite (proj2 Hboth (conj Hm Hc)), (proj2 Hnone Hn). reflexivity.
  - intros Hp (task & Hin & Hfin). unfold execute_step. rewrite Hp.
    destruct (over_both (self w) && none_finished (table w) (self w))
      eqn:E; [|reflexivity].
    apply andb_true_iff in E as [_ En].
    exfalso. apply Hfin. now apply Hnone.
  - intros Hp Hnot. unfold execute_step. rewrite Hp.
    destruct (over_both (self w) && none_finished (table w) (self w))
      eqn:E; [|reflexivity].
    apply andb_true_iff in E as [Eb _].
    exfalso. apply Hnot. now apply Hboth.
  - intros Hp. unfold execute_step. now rewrite Hp.
  - intros Hp. unfold execute_step. rewrite Hp.
    destruct (over_either (self w)); auto.
Qed.

Lemma backpressure_wait_witness :
  (max_memory_usage (self (Samples.state_after Samples.files
                             Samples.finished_while_waiting Samples.tight))
   <= memory_usage (self (Samples.state_after Samples.files
                            Samples.finished_while_waiting Samples.tight)))%Q
  /\
  execute_step Samples.files
    (Samples.state_after Samples.files Samples.finished_while_waiting
       Samples.tight)
  = goto NextTask
      (Samples.state_after Samples.files Samples.finished_while_waiting
         Samples.tight).
Proof.
  split; [vm_compute; discriminate|].
  apply (proj1 (proj2 (backpressure_wait Samples.files
           (Samples.state_after Samples.files Samples.finished_while_waiting
              Samples.tight)))).
  - vm_compute. reflexivity.
  - exists (nth 0 (active_tasks (self (Samples.state_after Samples.files
              Samples.finished_while_waiting Samples.tight)))
              {| tid := 0; description := ""; raster_layer := Samples.raster;
                 total_memory_usage := 0%Q; index := ""; formula := "";
                 band_mapping := []; output_in_memory_file := "";
                 output_file := "" |}).
    split; [vm_compute; left; reflexivity | vm_compute; discriminate].
Defined.

(** * Further properties *)

(** ** The resolver: results and failures *)

Module ResolverMore.

Import PyStr RasterIndexCalculator FormulaSpec RunSpec PyStrFacts MatchFacts.

Lemma loop_returns_flat formulas raster bm (fuel : nat) :
  forall built r,
    expansion_loop fuel formulas raster bm built
      (extract_special_functions built) = Returns r ->
    extract_special_functions r = [].
Proof.
  induction fuel as [|fuel IH]; intros built r H.
  - destruct (extract_special_functions built) eqn:E; cbn in H;
      [|discriminate]. now inversion H; subst.
  - destruct (extract_special_functions built) as [|f fs] eqn:E.
    + cbn in H. now inversion H; subst.
    + cbn [expansion_loop] in H.
      destruct (apply_functions formulas raster bm built (f :: fs))
        as [b| |]; cbn [bind] in H; try discriminate.
      eauto.
Qed.

Lemma apply_function_lookup_error formulas raster bm built f e :
  apply_function formulas raster bm built f = Raises e ->
  lookup_error formulas bm e.
Proof.
  unfold apply_function, subscript0, subscript, lookup_error.
  destruct (String.eqb (function_name f) "band_max");
    [|destruct (String.eqb (function_name f) "band_min");
      [|destruct (String.eqb (function_name f) "band_mean");
        [|destruct (String.eqb (function_name f) "band_stddev");
          [|destruct (String.eqb (function_name f) "index");
            [|discriminate]]]]];
    (destruct (parameters f) as [|p ps]; cbn [bind];
     [intros H; inversion H; now left|]);
    match goal with
    | |- context [dict_get ?d p] => destruct (dict_get d p) eqn:Ed
    end; cbn [bind]; intros H; inversion H; subst; right; exists p; auto.
Qed.

Lemma apply_functions_lookup_error formulas raster bm fs :
  forall built e,
    apply_functions formulas raster bm built fs = Raises e ->
    lookup_error formulas bm e.
Proof.
  induction fs as [|f fs IH]; intros built e H; [discriminate|].
  cbn [apply_functions] in H.
  destruct (apply_function formulas raster bm built f) as [b|e'|] eqn:E;
    cbn [bind] in H.
  - eauto.
  - inversion H; subst. eapply apply_function_lookup_error; eauto.
  - discriminate.
Qed.

Lemma expansion_loop_lookup_error formulas raster bm fuel :
  forall built fs e,
    expansion_loop fuel formulas raster bm built fs = Raises e ->
    lookup_error formulas bm e.
Proof.
  induction fuel as [|fuel IH]; intros built fs e H;
    destruct fs as [|f fs]; try discriminate.
  cbn [expansion_loop] in H.
  destruct (apply_functions formulas raster bm built (f :: fs))
    as [b|e'|] eqn:E; cbn [bind] in H.
  - eauto.
  - inversion H; subst. eapply apply_functions_lookup_error; eauto.
  - discriminate.
Qed.

(** Calls with a name the resolver does not know are left in place. *)
Lemma apply_functions_unknown formulas raster bm fs :
  forall built,
    (forall f, In f fs -> is_macro (function_name f) = false) ->
    apply_functions formulas raster bm built fs = Returns built.
Proof.
  induction fs as [|f fs IH]; intros built H; [reflexivity|].
  cbn [apply_functions].
  assert (Hf : apply_function formulas raster bm built f = Returns built).
  { specialize (H f (or_introl eq_refl)).
    unfold is_macro, band_field in H. unfold apply_function.
    destruct (String.eqb (function_name f) "band_max"); [discriminate|].
    destruct (String.eqb (function_name f) "band_min"); [discriminate|].
    destruct (String.eqb (function_name f) "band_mean"); [discriminate|].
    destruct (String.eqb (function_name f) "band_stddev"); [discriminate|].
    now rewrite H. }
  rewrite Hf. cbn [bind]. apply IH. intros g Hg. apply H. now right.
Qed.

(** Text of characters outside [func_]. *)
Lemma barriers_start_nothing (x y : string) :
  all_chars barrier x = true -> starts_nowhere "func_" x y = true.
Proof.
  induction x as [|c x IH]; intros H; [reflexivity|].
  cbn [all_chars] in H. apply andb_true_iff in H as [Hc Hx].
  cbn [starts_nowhere]. rewrite (IH Hx), andb_true_r.
  apply negb_true_iff. cbn [append].
  exact (ResolverFacts.barrier_head c (x ++ y) Hc).
Qed.

Lemma barriers_no_func (x : string) :
  all_chars barrier x = true -> occurs "func_" x = false.
Proof.
  induction x as [|c x IH]; intros H; [reflexivity|].
  cbn [all_chars] in H. apply andb_true_iff in H as [Hc Hx].
  cbn [occurs]. now rewrite (ResolverFacts.barrier_head c x Hc), (IH Hx).
Qed.

Lemma replace_barriers (name args new x : string) :
  all_chars barrier x = true ->
  replace_from 0 (call_text name args) new x = x.
Proof.
  intros H.
  pose proof (replace_from_pass (call_text name args) new x "") as R.
  rewrite append_nil_r in R. rewrite R; [cbn; apply append_nil_r|].
  unfold call_text. apply starts_nowhere_longer. now apply barriers_start_nothing.
Qed.

(** One round on a self-reference between parentheses. *)
Lemma self_reference_round formulas raster bm (a x y : string) :
  dict_get formulas a = Some (call_text "index" a) ->
  a <> "" -> all_chars is_word a = true ->
  all_chars barrier x = true -> all_chars barrier y = true ->
  extract_special_functions (x ++ call_text "index" a ++ y) <> [] /\
  apply_functions formulas raster bm (x ++ call_text "index" a ++ y)
    (extract_special_functions (x ++ call_text "index" a ++ y))
  = Returns ((x ++ "(") ++ call_text "index" a ++ (")" ++ y)).
Proof.
  intros Hd Hne Hw Hx Hy.
  assert (Ha : all_chars not_rparen a = true)
    by (eapply all_chars_impl; [apply LoopFacts.word_not_rparen | exact Hw]).
  pose proof (match_here_call "index" a y ltac:(discriminate) eq_refl Ha)
    as M.
  assert (E : extract_special_functions (x ++ call_text "index" a ++ y)
              = [special_function_of "index" a]).
  { unfold extract_special_functions.
    rewrite (findall_pass x _ (barriers_start_nothing x _ Hx)).
    rewrite (findall_hit _ _ _ M).
    rewrite (findall_flat y (barriers_no_func y Hy)).
    cbn [map full_match func_name params]. reflexivity. }
  rewrite E. split; [discriminate|].
  cbn [apply_functions]. unfold apply_function, special_function_of.
  cbn [whole_match function_name parameters].
  rewrite (LoopFacts.param_list_word _ Hne Hw).
  cbn [String.eqb Ascii.eqb Bool.eqb andb subscript0 bind].
  unfold subscript. rewrite Hd. cbn [bind].
  rewrite replace_nonempty by discriminate.
  f_equal.
  rewrite (replace_from_pass (call_text "index" a) _ x).
  - rewrite replace_from_hit by discriminate.
    rewrite (replace_barriers _ _ _ y Hy).
    rewrite !append_assoc. reflexivity.
  - unfold call_text at 1. apply starts_nowhere_longer.
    now apply barriers_start_nothing.
Qed.

Lemma all_chars_snoc (p : ascii -> bool) (x : string) (c : ascii) :
  all_chars p x = true -> p c = true -> all_chars p (x ++ String c "") = true.
Proof.
  intros Hx Hc. rewrite all_chars_app, Hx. cbn. now rewrite Hc.
Qed.

Lemma self_reference_loop formulas raster bm (a : string) (fuel : nat) :
  dict_get formulas a = Some (call_text "index" a) ->
  a <> "" -> all_chars is_word a = true ->
  forall x y,
    all_chars barrier x = true -> all_chars barrier y = true ->
    expansion_loop fuel formulas raster bm (x ++ call_text "index" a ++ y)
      (extract_special_functions (x ++ call_text "index" a ++ y))
    = Diverges.
Proof.
  intros Hd Hne Hw. induction fuel as [|fuel IH]; intros x y Hx Hy;
    destruct (self_reference_round formulas raster bm a x y Hd Hne Hw Hx Hy)
      as [Hnil Hround];
    destruct (extract_special_functions (x ++ call_text "index" a ++ y))
      as [|f fs] eqn:E; try congruence; [reflexivity|].
  cbn [expansion_loop]. rewrite Hround. cbn [bind].
  apply IH.
  - now apply all_chars_snoc.
  - cbn. exact Hy.
Qed.

(** Where the matches of the pattern stand. *)
Lemma findall_from_in (s : string) :
  forall skip g,
    In g (findall_from skip s) ->
    exists before rest,
      s = before ++ full_match g ++ rest /\
      match_here (full_match g ++ rest) = Some (g, rest).
Proof.
  induction s as [|c s IH]; intros skip g H; [destruct H|].
  cbn [findall_from] in H. destruct skip as [|k].
  - destruct (match_here (String c s)) as [[g' rest]|] eqn:M.
    + destruct H as [<-|H].
      * destruct (match_here_sound _ _ _ M) as (Hs & _).
        exists "", rest. cbn [append]. split; [exact Hs|].
        now rewrite <- Hs.
      * destruct (IH _ _ H) as (b & r & -> & Hm).
        exists (String c b), r. split; [reflexivity | exact Hm].
    + destruct (IH _ _ H) as (b & r & -> & Hm).
      exists (String c b), r. split; [reflexivity | exact Hm].
  - destruct (IH _ _ H) as (b & r & -> & Hm).
    exists (String c b), r. split; [reflexivity | exact Hm].
Qed.

Lemma occurs_inside (p before rest : string) :
  occurs p (before ++ p ++ rest) = true.
Proof.
  induction before as [|c b IH]; cbn [append].
  - destruct (p ++ rest) eqn:E; cbn [occurs]; rewrite <- E;
      now rewrite startswith_refl_app.
  - cbn [occurs]. rewrite IH. apply orb_true_r.
Qed.

(** Stripped parameters. *)
Lemma rstrip_idempotent (s : string) : rstrip (rstrip s) = rstrip s.
Proof.
  induction s as [|c s IH]; [reflexivity|].
  cbn [rstrip]. destruct (rstrip s) as [|c' r] eqn:E.
  - destruct (is_space c) eqn:Hc; [reflexivity|].
    cbn [rstrip]. now rewrite Hc.
  - cbn [rstrip]. cbn [rstrip] in IH.
    destruct (rstrip r) as [|c'' r'] eqn:E'.
    + destruct (is_space c') eqn:Hc'; [discriminate IH|].
      inversion IH; subst. reflexivity.
    + rewrite IH. reflexivity.
Qed.

Lemma lstrip_head (s : string) :
  match lstrip s with
  | EmptyString => True
  | String c _ => is_space c = false
  end.
Proof.
  induction s as [|c s IH]; cbn [lstrip]; [exact I|].
  destruct (is_space c) eqn:Hc; [exact IH | exact Hc].
Qed.

Lemma rstrip_head (c : ascii) (s : string) :
  is_space c = false -> exists r, rstrip (String c s) = String c r.
Proof.
  intros Hc. cbn [rstrip]. destruct (rstrip s); rewrite ?Hc; eauto.
Qed.

Lemma strip_idempotent (s : string) : strip (strip s) = strip s.
Proof.
  unfold strip. pose proof (lstrip_head s) as H.
  destruct (lstrip s) as [|c u]; [reflexivity|].
  destruct (rstrip_head c u H) as [r Hr]. rewrite Hr.
  cbn [lstrip]. rewrite H, <- Hr. apply rstrip_idempotent.
Qed.

Lemma lstrip_all (p : ascii -> bool) (s : string) :
  all_chars p s = true -> all_chars p (lstrip s) = true.
Proof.
  induction s as [|c s IH]; intros H; [reflexivity|].
  cbn [lstrip]. destruct (is_space c); [|exact H].
  cbn in H. apply andb_true_iff in H as [_ H]. auto.
Qed.

Lemma rstrip_all (p : ascii -> bool) (s : string) :
  all_chars p s = true -> all_chars p (rstrip s) = true.
Proof.
  induction s as [|c s IH]; intros H; [reflexivity|].
  cbn in H. apply andb_true_iff in H as [Hc Hs]. specialize (IH Hs).
  cbn [rstrip]. destruct (rstrip s) as [|c' r].
  - destruct (is_space c); cbn; now rewrite ?Hc.
  - cbn [all_chars] in *. now rewrite Hc, IH.
Qed.

Lemma split_pieces (sep : ascii) (s : string) :
  Forall (fun q => all_chars (fun c => negb (Ascii.eqb c sep)) q = true)
    (split sep s).
Proof.
  induction s as [|c s IH]; cbn [split].
  - constructor; [reflexivity | constructor].
  - destruct (Ascii.eqb c sep) eqn:E.
    + constructor; [reflexivity | exact IH].
    + destruct (split sep s) as [|h t]; inversion IH; subst;
        constructor; try assumption; cbn; rewrite E; cbn; auto.
Qed.

Lemma param_list_clean (args p : string) :
  In p (param_list args) ->
  p <> "" /\ strip p = p /\
  all_chars (fun c => negb (Ascii.eqb c ",")) p = true.
Proof.
  unfold param_list. intros H.
  apply in_map_iff in H as (q & <- & Hq).
  apply filter_In in Hq as [Hin Hne].
  apply negb_true_iff, String.eqb_neq in Hne.
  split; [exact Hne|]. split; [apply strip_idempotent|].
  pose proof (split_pieces "," args) as Hs.
  rewrite Forall_forall in Hs. specialize (Hs q Hin).
  unfold strip. now apply rstrip_all, lstrip_all.
Qed.

End ResolverMore.

Import ResolverMore.

(** ** The resolver *)

(** X1.  Whatever the resolver returns holds no function call, and the
    resolver gives it back unchanged when it is run on it again, for any
    raster and band mapping. *)
Theorem resolved_expression_is_final (formulas : dict string) (fuel : nat)
    (raster : QgsRasterLayer) (index : string) (band_mapping : dict Z)
    (result : string) :
  calculate_special_functions_in formulas fuel raster index band_mapping
  = Returns result ->
  extract_special_functions result = [] /\
  forall fuel' raster' band_mapping',
    calculate_special_functions_in formulas fuel' raster' result band_mapping'
    = Returns result.
Proof.
  unfold calculate_special_functions_in. intros H.
  apply loop_returns_flat in H. split; [exact H|].
  intros fuel' raster' bm'. rewrite H. now destruct fuel'.
Qed.

Lemma resolved_expression_is_final_witness :
  extract_special_functions "((2 * G - R - B) - (1.4 * R - G))" = [] /\
  forall fuel' raster' band_mapping',
    calculate_special_functions_in indices_formulas fuel' raster'
      "((2 * G - R - B) - (1.4 * R - G))" band_mapping'
    = Returns "((2 * G - R - B) - (1.4 * R - G))".
Proof.
  apply (resolved_expression_is_final indices_formulas 2 Samples.raster
           "func_index(ExGR_wernette)" Samples.bands).
  vm_compute. reflexivity.
Defined.

(** X2.  The resolver raises nothing but the two lookup errors of its
    loop body: [IndexError] for a call without arguments, and [KeyError]
    for a first argument that is missing from the band mapping or from the
    formula table. *)
Theorem resolver_raises_lookup_errors_only (formulas : dict string)
    (fuel : nat) (raster : QgsRasterLayer) (index : string)
    (band_mapping : dict Z) (e : exn) :
  calculate_special_functions_in formulas fuel raster index band_mapping
  = Raises e ->
  e = IndexError \/
  exists key, e = KeyError key /\
    (dict_get band_mapping key = None \/ dict_get formulas key = None).
Proof.
  unfold calculate_special_functions_in. intros H.
  exact (expansion_loop_lookup_error _ _ _ _ _ _ _ H).
Qed.

Lemma resolver_raises_lookup_errors_only_witness :
  KeyError "N" = IndexError \/
  exists key, KeyError "N" = KeyError key /\
    (dict_get Samples.bands key = None \/
     dict_get indices_formulas key = None).
Proof.
  apply (resolver_raises_lookup_errors_only indices_formulas 1
           Samples.raster "R - func_band_mean(N)" Samples.bands).
  vm_compute. reflexivity.
Defined.

(** X3.  The first call of an expression decides the first failure: when
    the expression starts with a call of one of the five macros, an empty
    argument list raises [IndexError], and a first argument that the band
    mapping (for the four statistics) or the formula table (for [index])
    does not hold raises [KeyError] with that argument, whatever follows
    the call. *)
Theorem first_call_lookup_fails (formulas : dict string) (fuel : nat)
    (raster : QgsRasterLayer) (band_mapping : dict Z)
    (name args rest : string) :
  is_macro name = true ->
  all_chars not_rparen args = true ->
  (param_list args = [] ->
   calculate_special_functions_in formulas (S fuel) raster
     (call_text name args ++ rest) band_mapping = Raises IndexError) /\
  (forall p ps, param_list args = p :: ps ->
     (if String.eqb name "index" then dict_mem formulas p
      else dict_mem band_mapping p) = false ->
     calculate_special_functions_in formulas (S fuel) raster
       (call_text name args ++ rest) band_mapping = Raises (KeyError p)).
Proof.
  intros Hm Ha.
  destruct (MatchFacts.is_macro_word _ Hm) as [Hne Hw].
  pose proof (MatchFacts.match_here_call name args rest Hne Hw Ha) as M.
  assert (E : extract_special_functions (call_text name args ++ rest)
              = special_function_of name args
                  :: extract_special_functions rest).
  { unfold extract_special_functions. rewrite (MatchFacts.findall_hit _ _ _ M).
    reflexivity. }
  unfold calculate_special_functions_in. rewrite E.
  cbn [expansion_loop apply_functions]. unfold apply_function.
  cbn [special_function_of whole_match function_name parameters].
  split.
  - intros Hp. rewrite Hp.
    destruct (MatchFacts.is_macro_cases _ Hm) as [->|[->|[->|[->| ->]]]]; reflexivity.
  - intros p ps Hp Hk. rewrite Hp. unfold dict_mem in Hk.
    destruct (MatchFacts.is_macro_cases _ Hm) as [->|[->|[->|[->| ->]]]];
      cbn [String.eqb Ascii.eqb Bool.eqb andb subscript0 bind] in *;
      unfold subscript;
      match goal with
      | H : match dict_get ?d p with _ => _ end = false |- _ =>
          destruct (dict_get d p); [discriminate H | reflexivity]
      end.
Qed.

Lemma first_call_lookup_fails_witness :
  (param_list "" = [] ->
   calculate_special_functions_in indices_formulas 1 Samples.raster
     (call_text "band_min" "" ++ " + R") Samples.bands = Raises IndexError) /\
  (forall p ps, param_list "" = p :: ps ->
     (if String.eqb "band_min" "index" then dict_mem indices_formulas p
      else dict_mem Samples.bands p) = false ->
     calculate_special_functions_in indices_formulas 1 Samples.raster
       (call_text "band_min" "" ++ " + R") Samples.bands
     = Raises (KeyError p)).
Proof.
  apply (first_call_lookup_fails indices_formulas 0 Samples.raster
           Samples.bands "band_min" "" " + R"); reflexivity.
Defined.

(** X4.  An expression all of whose calls have a name outside the five
    macros never resolves: each round leaves it as it is, so the loop goes
    on for ever. *)
Theorem unknown_calls_never_resolve (formulas : dict string)
    (raster : QgsRasterLayer) (index : string) (band_mapping : dict Z) :
  extract_special_functions index <> [] ->
  (forall f, In f (extract_special_functions index) ->
             is_macro (function_name f) = false) ->
  forall fuel,
    calculate_special_functions_in formulas fuel raster index band_mapping
    = Diverges.
Proof.
  intros Hne Hall fuel. unfold calculate_special_functions_in.
  induction fuel as [|fuel IH];
    destruct (extract_special_functions index) as [|f fs] eqn:E;
    try congruence; [reflexivity|].
  cbn [expansion_loop].
  rewrite (apply_functions_unknown formulas raster band_mapping (f :: fs)
             index Hall).
  cbn [bind]. rewrite E. exact IH.
Qed.

Lemma unknown_calls_never_resolve_witness :
  calculate_special_functions_in indices_formulas 1000 Samples.raster
    "func_sqrt(R) / func_Band_Max(G)" Samples.bands
  = Diverges.
Proof.
  apply (unknown_calls_never_resolve indices_formulas Samples.raster
           "func_sqrt(R) / func_Band_Max(G)" Samples.bands).
  - vm_compute. discriminate.
  - vm_compute. intros f [<-|[<-|[]]]; reflexivity.
Defined.

(** X5.  The resolver has no guard against cycles: over a formula table in
    which a name stands for a reference to itself, that reference never
    resolves, each round wrapping it in one more pair of parentheses. *)
Theorem self_reference_never_resolves (formulas : dict string)
    (raster : QgsRasterLayer) (band_mapping : dict Z) (name : string) :
  name <> "" -> all_chars is_word name = true ->
  dict_get formulas name = Some (call_text "index" name) ->
  forall fuel,
    calculate_special_functions_in formulas fuel raster
      (call_text "index" name) band_mapping
    = Diverges.
Proof.
  intros Hne Hw Hd fuel. unfold calculate_special_functions_in.
  pose proof (self_reference_loop formulas raster band_mapping name fuel
                Hd Hne Hw "" "" eq_refl eq_refl) as H.
  cbn [append] in H. rewrite PyStrFacts.append_nil_r in H. exact H.
Qed.

Lemma self_reference_never_resolves_witness :
  calculate_special_functions_in
    (("own", "func_index(own)") :: indices_formulas) 1000 Samples.raster
    (call_text "index" "own") Samples.bands
  = Diverges.
Proof.
  apply (self_reference_never_resolves
           (("own", "func_index(own)") :: indices_formulas)
           Samples.raster Samples.bands "own");
    [discriminate | reflexivity | reflexivity].
Defined.

(** X6.  Every call that [extract_special_functions] reports is a piece of
    the expression of the form [func_<name>(<args>)]: the name is a
    non-empty word, the arguments hold no closing parenthesis, and the
    parameters are the pieces of the arguments between commas, each of
    them non-empty, without white space at either end and without a
    comma. *)
Theorem extracted_call_shape (expression : string) (f : special_function) :
  In f (extract_special_functions expression) ->
  exists before args rest,
    expression = before ++ whole_match f ++ rest /\
    whole_match f = "func_" ++ function_name f ++ "(" ++ args ++ ")" /\
    function_name f <> "" /\
    all_chars is_word (function_name f) = true /\
    all_chars not_rparen args = true /\
    parameters f = param_list args /\
    forall p, In p (parameters f) ->
      p <> "" /\ strip p = p /\
      all_chars (fun c => negb (Ascii.eqb c ",")) p = true.
Proof.
  unfold extract_special_functions. intros H.
  apply in_map_iff in H as (g & <- & Hg).
  apply findall_from_in in Hg as (before & rest & He & M).
  destruct (MatchFacts.match_here_sound _ _ _ M) as (_ & Hf & Hne & Hw & Ha).
  exists before, (params g), rest.
  cbn [whole_match function_name parameters].
  repeat (split; [assumption || reflexivity|]).
  intros p. apply param_list_clean.
Qed.

Lemma extracted_call_shape_witness :
  exists before args rest,
    "2 * func_band_max( R , ) - G" = before ++ "func_band_max( R , )" ++ rest
    /\ "func_band_max( R , )" = "func_" ++ "band_max" ++ "(" ++ args ++ ")" /\
    "band_max" <> "" /\
    all_chars is_word "band_max" = true /\
    all_chars not_rparen args = true /\
    ["R"] = param_list args /\
    forall p, In p ["R"] ->
      p <> "" /\ strip p = p /\
      all_chars (fun c => negb (Ascii.eqb c ",")) p = true.
Proof.
  apply (extracted_call_shape "2 * func_band_max( R , ) - G"
           {| whole_match := "func_band_max( R , )";
              function_name := "band_max"; parameters := ["R"] |}).
  vm_compute. left. reflexivity.
Defined.

(** ** Inputs *)

Import Loading RunSpec.

(** X7.  [__validate_indices] returns exactly when every selected index is
    a name of the library, and otherwise raises [ValueError] for the first
    one, in the order of the selection, that is not. *)
Theorem validate_indices_first_unsupported (selected : list string) :
  (validate_indices selected = Returns tt /\
   forall index, In index selected ->
                 dict_mem indices_formulas index = true)
  \/
  exists supported index rest,
    selected = (supported ++ index :: rest)%list /\
    (forall i, In i supported -> dict_mem indices_formulas i = true) /\
    dict_mem indices_formulas index = false /\
    validate_indices selected
    = Raises (ValueError ("Unsupported index: " ++ index)).
Proof.
  induction selected as [|i l IH].
  - left. split; [reflexivity | intros ? []].
  - cbn [validate_indices].
    destruct (dict_mem indices_formulas i) eqn:E.
    + destruct IH as [[Hv Hall]|(sup & bad & rest & -> & Hs & Hb & Hv)].
      * left. split; [exact Hv|]. intros x [<-|Hx]; auto.
      * right. exists (i :: sup), bad, rest.
        split; [reflexivity|]. split; [|split; assumption].
        intros x [<-|Hx]; auto.
    + right. exists [], i, l. split; [reflexivity|].
      split; [intros ? [] | split; [exact E | reflexivity]].
Qed.

(** X8.  [load_raster_layers] appends the layers of the input files, in
    their order, to [self.raster_layers]; at the first file that is not a
    valid raster it raises [QgsProcessingException] with the name of that
    file, and the layers of the files before it stay in the list. *)
Theorem load_raster_layers_until_invalid (P : platform)
    (input_files : list string) (raster_layers : list QgsRasterLayer) :
  (exists loaded,
     map (load P) input_files = map Some loaded /\
     load_raster_layers P input_files raster_layers
     = ((raster_layers ++ loaded)%list, Returns tt))
  \/
  exists before file rest loaded,
    input_files = (before ++ file :: rest)%list /\
    map (load P) before = map Some loaded /\
    load P file = None /\
    load_raster_layers P input_files raster_layers
    = ((raster_layers ++ loaded)%list,
       Raises (QgsProcessingException ("Invalid raster file: " ++ file))).
Proof.
  revert raster_layers.
  induction input_files as [|f l IH]; intros layers.
  - left. exists []. split; [reflexivity|].
    cbn. now rewrite app_nil_r.
  - cbn [load_raster_layers]. unfold load_raster_layer.
    destruct (load P f) as [layer|] eqn:E.
    + destruct (IH (layers ++ [layer])%list)
        as [(loaded & Hm & Hl)|(before & bad & rest & loaded & -> & Hm & Hb
                                & Hl)].
      * left. exists (layer :: loaded). cbn [map]. rewrite E, Hm.
        split; [reflexivity|]. rewrite Hl, <- app_assoc. reflexivity.
      * right. exists (f :: before), bad, rest, (layer :: loaded).
        cbn [map]. rewrite E, Hm. split; [reflexivity|].
        split; [reflexivity|]. split; [exact Hb|].
        rewrite Hl, <- app_assoc. reflexivity.
    + right. exists [], f, l, []. split; [reflexivity|].
      split; [reflexivity|]. split; [exact E|]. now rewrite app_nil_r.
Qed.

(** ** The task generator *)

Module GeneratorMore.

Import PyStr RasterIndexCalculatorTask RasterIndexCalculator SchedulerSpec
  RunSpec.

Lemma total_is_task_size (raster : QgsRasterLayer) :
  bandCount raster <> 0%N -> (total_of raster == task_size raster)%Q.
Proof.
  intros Hb.
  unfold total_of, task_size, task_units, calculate_raster_memory_usage.
  rewrite !N2Z.inj_mul, N2Z.inj_add, !inject_Z_mult, inject_Z_plus.
  assert (H : ~ (inject_Z (Z.of_N (bandCount raster)) == 0)%Q).
  { change 0%Q with (inject_Z 0). rewrite inject_Z_injective. lia. }
  change (inject_Z (2 ^ 20)) with (1048576 # 1)%Q.
  change (inject_Z (Z.of_N 1)) with 1%Q.
  field. exact H.
Qed.

Lemma make_task_fields P g name raster total index task :
  make_task P g name raster total index = Returns task ->
  tid task = created g /\
  RasterIndexCalculatorTask.index task = index /\
  description task = "Calculate " ++ index /\
  raster_layer task = raster /\
  total_memory_usage task = total /\
  RasterIndexCalculatorTask.band_mapping task = gen_band_mapping g /\
  (exists template,
     dict_get indices_formulas index = Some template /\
     calculate_special_functions (resolver_fuel P) raster template
       (gen_band_mapping g) = Returns (formula task)) /\
  output_in_memory_file task = "/vsimem/" ++ name ++ "_" ++ index ++ ".tiff" /\
  output_file task
  = path_join P (gen_output_dir g) (name ++ "_" ++ index ++ ".tiff").
Proof.
  unfold make_task, subscript. intros H.
  destruct (dict_get indices_formulas index) as [template|] eqn:Et;
    cbn [bind] in H; [|discriminate].
  destruct (calculate_special_functions (resolver_fuel P) raster template
              (gen_band_mapping g)) as [f| |] eqn:Ef;
    cbn [bind] in H; try discriminate.
  inversion H; subst task; cbn.
  repeat (split; [reflexivity|]).
  split; [|split; reflexivity].
  exists template. split; [reflexivity | exact Ef].
Qed.

(** The outer loop that yields has opened the first of the files that are
    left. *)
Lemma next_file_step P g files task g' :
  next_file P g files = Returns (Some (task, g')) ->
  exists input_file files' raster index rest,
    files = input_file :: files' /\
    gen_selected_indices g = index :: rest /\
    load P input_file = Some raster /\
    bandCount raster <> 0%N /\
    make_task P g (file_stem P input_file) raster (total_of raster) index
    = Returns task /\
    g' = {| gen_output_dir := gen_output_dir g;
            gen_band_mapping := gen_band_mapping g;
            gen_selected_indices := gen_selected_indices g;
            files_left := files';
            opened :=
              Some {| input_file_name := file_stem P input_file;
                      opened_layer := raster;
                      opened_memory_usage := total_of raster;
                      indices_left := rest |};
            created := S (created g) |}.
Proof.
  revert task g'. induction files as [|f files IH]; intros task g' H;
    [discriminate|].
  cbn [next_file] in H. unfold load_raster_layer in H.
  destruct (load P f) as [raster|] eqn:El; cbn [bind] in H; [|discriminate].
  destruct (N.eqb_spec (bandCount raster) 0) as [E0|E0]; cbn [bind] in H;
    [discriminate|].
  destruct (gen_selected_indices g) as [|index rest] eqn:Es.
  - destruct (IH _ _ H) as (? & ? & ? & ? & ? & _ & Habs & _). discriminate.
  - fold (total_of raster) in H.
    destruct (make_task P g (file_stem P f) raster (total_of raster) index)
      as [t0| |] eqn:Em; cbn [bind] in H; try discriminate.
    unfold yield in H. inversion H; subst. cbn.
    exists f, files, raster, index, rest.
    repeat (split; [reflexivity || assumption|]). now rewrite Es.
Qed.

Lemma task_order_none (files selected : list string) :
  (List.length files * List.length selected = 0)%nat ->
  task_order files selected = [].
Proof.
  unfold task_order. intros H.
  destruct selected as [|i l].
  - induction files as [|f files IH]; [reflexivity|]. cbn. apply IH.
    now rewrite Nat.mul_0_r.
  - destruct files; [reflexivity|]. cbn in H. lia.
Qed.

Lemma positioned_start P files dir bm selected :
  positioned P files dir bm selected (create_tasks files dir bm selected).
Proof.
  constructor; try reflexivity.
  exists [], "". unfold current. cbn. split; [reflexivity|].
  split; [reflexivity | discriminate].
Qed.

(** What one [next] that yields gives, and where it leaves the
    generator. *)
Lemma positioned_next P files dir bm selected g task g' :
  positioned P files dir bm selected g ->
  next P g = Returns (Some (task, g')) ->
  positioned P files dir bm selected g' /\
  tid task = created g /\ created g' = S (created g) /\
  exists input_file index,
    nth_error (task_order files selected) (created g)
    = Some (input_file, index) /\
    named_for P dir bm input_file index task.
Proof.
  intros [Hd Hb Hs (made & f & Ho & Hl & Hop)] H.
  assert (Step :
    forall f' index layer name rest files',
      task_order files selected
      = (made ++ ((f', index) :: map (fun i => (f', i)) rest)
         ++ task_order files' selected)%list ->
      name = file_stem P f' -> load P f' = Some layer ->
      bandCount layer <> 0%N ->
      make_task P g name layer (total_of layer) index = Returns task ->
      g' = {| gen_output_dir := gen_output_dir g;
              gen_band_mapping := gen_band_mapping g;
              gen_selected_indices := gen_selected_indices g;
              files_left := files';
              opened :=
                Some {| input_file_name := name;
                        opened_layer := layer;
                        opened_memory_usage := total_of layer;
                        indices_left := rest |};
              created := S (created g) |} ->
      positioned P files dir bm selected g' /\
      tid task = created g /\ created g' = S (created g) /\
      exists input_file index,
        nth_error (task_order files selected) (created g)
        = Some (input_file, index) /\
        named_for P dir bm input_file index task).
  { intros f' index layer name rest files' Hord Hn Hload Hbands Hm ->.
    destruct (make_task_fields _ _ _ _ _ _ _ Hm)
      as (Ht & Hi & Hde & Hr & Hto & Hbm & Hf & Him & Hof).
    split; [|split; [exact Ht | split; [reflexivity|]]].
    - constructor; cbn; try assumption.
      exists (made ++ [(f', index)])%list, f'. unfold current. cbn.
      split; [rewrite Hord, <- app_assoc; reflexivity|].
      split; [rewrite length_app; cbn; lia|].
      intros o Eo. inversion Eo; subst o. cbn. auto.
    - exists f', index. split.
      + rewrite Hord, <- Hl, nth_error_app2, Nat.sub_diag by lia.
        reflexivity.
      + subst name. rewrite <- Hr in Hload.
        constructor; try assumption.
        * now rewrite Hbm.
        * rewrite <- Hb, Hr. exact Hf.
        * now rewrite Hof, Hd.
        * intros _. rewrite Hto, Hr. now apply total_is_task_size. }
  assert (Outer :
    current g f = [] ->
    next_file P g (files_left g) = Returns (Some (task, g')) ->
    positioned P files dir bm selected g' /\
    tid task = created g /\ created g' = S (created g) /\
    exists input_file index,
      nth_error (task_order files selected) (created g)
      = Some (input_file, index) /\
      named_for P dir bm input_file index task).
  { intros Hc Hn.
    destruct (next_file_step _ _ _ _ _ Hn)
      as (f' & files' & layer & index & rest & Ef & Es & Hload & Hbands
          & Hm & Eg).
    apply (Step f' index layer (file_stem P f') rest files'); auto.
    rewrite Ho, Hc, Ef. cbn [app]. unfold task_order at 1.
    cbn [flat_map]. rewrite <- Hs, Es. reflexivity. }
  unfold next in H.
  destruct (opened g) as [o|] eqn:Eo.
  - destruct (indices_left o) as [|index rest] eqn:Ei.
    + apply Outer; [|exact H]. unfold current. now rewrite Eo, Ei.
    + destruct (Hop o eq_refl) as (Hn & Hload & Hbands & Hmem).
      destruct (make_task P g (input_file_name o) (opened_layer o)
                  (opened_memory_usage o) index) as [t0| |] eqn:Em;
        cbn [bind] in H; try discriminate.
      unfold yield in H. inversion H; subst t0 g'. clear H.
      rewrite Hmem in Em.
      apply (Step f index (opened_layer o) (input_file_name o) rest
               (files_left g)); auto.
      * rewrite Ho. unfold current. now rewrite Eo, Ei.
      * now rewrite Hmem.
  - apply Outer; [|exact H]. unfold current. now rewrite Eo.
Qed.

Lemma positioned_stop P files dir bm selected g :
  positioned P files dir bm selected g ->
  next P g = Returns None ->
  List.length (task_order files selected) = created g.
Proof.
  intros [Hd Hb Hs (made & f & Ho & Hl & Hop)] H.
  pose proof (GeneratorFacts.next_stops _ _ H) as Hp.
  unfold pending in Hp. rewrite Ho, !length_app, Hl.
  unfold current.
  rewrite (task_order_none (files_left g) selected)
    by (rewrite <- Hs; lia).
  destruct (opened g) as [o|]; cbn [List.length]; [|lia].
  rewrite length_map. lia.
Qed.

(** The tasks the generator yields from a position on. *)
Lemma remaining_positioned P files dir bm selected (bound : nat) :
  forall g tasks,
    positioned P files dir bm selected g ->
    remaining_tasks bound P g = Returns tasks ->
    Forall2 (fun fi task => named_for P dir bm (fst fi) (snd fi) task)
      (skipn (created g) (task_order files selected)) tasks /\
    map tid tasks = seq (created g) (List.length tasks).
Proof.
  induction bound as [|bound IH]; intros g tasks Hg H.
  - cbn [remaining_tasks] in H.
    destruct (next P g) as [[[task g']|]| |] eqn:En; try discriminate.
    inversion H; subst tasks.
    rewrite skipn_all2
      by (rewrite (positioned_stop _ _ _ _ _ _ Hg En); lia).
    split; [constructor | reflexivity].
  - cbn [remaining_tasks] in H.
    destruct (next P g) as [[[task g']|]| |] eqn:En; try discriminate.
    + destruct (remaining_tasks bound P g') as [rest| |] eqn:Er;
        cbn [bind] in H; try discriminate.
      inversion H; subst tasks.
      destruct (positioned_next _ _ _ _ _ _ _ _ Hg En)
        as (Hg' & Ht & Hc & f & i & Hnth & Hnamed).
      destruct (IH _ _ Hg' Er) as [HF Hm]. rewrite Hc in HF, Hm.
      split.
      * destruct (nth_error_split _ _ Hnth) as (l1 & l2 & El & Hlen).
        rewrite El in HF |- *.
        rewrite <- Hlen in HF |- *.
        replace (S (List.length l1)) with (List.length (l1 ++ [(f, i)]))
          in HF by (rewrite length_app; cbn; lia).
        change (l1 ++ (f, i) :: l2)%list
          with (l1 ++ [(f, i)] ++ l2)%list in HF.
        rewrite app_assoc, skipn_app, skipn_all, Nat.sub_diag in HF.
        rewrite skipn_app, skipn_all, Nat.sub_diag. cbn in HF |- *.
        constructor; assumption.
      * cbn. now rewrite Ht, Hm.
    + inversion H; subst tasks.
      rewrite skipn_all2
        by (rewrite (positioned_stop _ _ _ _ _ _ Hg En); lia).
      split; [constructor | reflexivity].
Qed.

End GeneratorMore.

Import RunSpec.

(** X9.  The generator of [create_tasks] yields its tasks file by file
    and, within a file, index by index: the tasks are those of the pairs
    of an input file and a selected index in that order, each with the
    layer of its file, the resolved formula of its index, the band mapping
    and the two output names made of the file stem and the index, its size
    being that of the raster and one more band whenever that is at most
    [2^53] bytes, where the doubles of the source are exact; and they are
    numbered from 0 in the order they are made. *)
Theorem tasks_in_file_major_order (P : platform) (bound : nat)
    (input_files : list string) (output_dir : string) (band_mapping : dict Z)
    (selected_indices : list string)
    (tasks : list RasterIndexCalculatorTask.t) :
  remaining_tasks bound P
    (create_tasks input_files output_dir band_mapping selected_indices)
  = Returns tasks ->
  Forall2 (fun fi task =>
             named_for P output_dir band_mapping (fst fi) (snd fi) task)
    (task_order input_files selected_indices) tasks /\
  map tid tasks = seq 0 (List.length tasks).
Proof.
  intros H.
  exact (GeneratorMore.remaining_positioned P input_files output_dir
           band_mapping selected_indices bound _ tasks
           (GeneratorMore.positioned_start P input_files output_dir
              band_mapping selected_indices) H).
Qed.

Lemma tasks_in_file_major_order_witness :
  exists tasks,
    Forall2 (fun fi task =>
               named_for Samples.files "out" Samples.bands (fst fi) (snd fi)
                 task)
      (task_order ["a.tif"; "a.tif"] ["Rnorm"; "ExG_wernette"]) tasks /\
    map tid tasks = seq 0 (List.length tasks).
Proof.
  eexists.
  apply (tasks_in_file_major_order Samples.files 4 ["a.tif"; "a.tif"] "out"
           Samples.bands ["Rnorm"; "ExG_wernette"]).
  vm_compute. reflexivity.
Defined.

(** ** Runs of [execute] *)

Module RunFacts.

Import PyStr RasterIndexCalculatorTask RasterIndexCalculator SchedulerSpec
  RunSpec.

Lemma execute_step_effect P w : step_effect P w (execute_step P w).
Proof.
  unfold execute_step. destruct (at_place w) eqn:Ep;
    try (apply Moves; reflexivity).
  - destruct (validate_indices (selected_indices (self w)));
      apply Moves; reflexivity.
  - destruct (next P (task_generator w)) as [[[task g]|]|e|] eqn:En;
      try (apply Moves; reflexivity).
    destruct (gt (total_memory_usage task) (max_memory_usage (self w)))
      eqn:Eg.
    + apply (Rejects P w _ task); auto.
    + apply (Admits P w _ task); auto.
  - apply Sweeps; reflexivity.
  - apply HandsOver; reflexivity.
  - apply Collects; reflexivity.
  - destruct (over_either (self w)); apply Moves; reflexivity.
  - destruct (over_both (self w) && none_finished (table w) (self w));
      apply Moves; reflexivity.
  - destruct (0 <? List.length (active_tasks (self w)))%nat;
      apply Moves; reflexivity.
  - destruct (List.length (results (self w)) <? number_of_tasks (self w))%nat;
      apply Moves; reflexivity.
Qed.

(** *** The generator and the submitted tasks *)

Lemma numbered_execute_step P s w :
  numbered P s w -> numbered P s (execute_step P w).
Proof.
  intros [Hg Hs].
  destruct (execute_step_effect P w)
    as [E1 E2 E3 E4|task Ep En Eg E1 E3 E4|task Ep En Eg E1 E3 E4
        |E1 E2 E3 E4|E1 E2 E3 E4|E1 E2 E3 E4];
    try (constructor; [rewrite E2 | rewrite E3]; assumption).
  - destruct (GeneratorMore.positioned_next _ _ _ _ _ _ _ _ Hg En)
      as (Hg' & _).
    constructor; [exact Hg' | now rewrite E3].
  - destruct (GeneratorMore.positioned_next _ _ _ _ _ _ _ _ Hg En)
      as (Hg' & Ht & _ & f & i & Hn & Hnamed).
    constructor; [exact Hg'|]. rewrite E3. intros x Hx.
    apply in_app_or in Hx as [Hx|[<-|[]]]; [now apply Hs|].
    exists f, i. rewrite Ht. split; assumption.
Qed.

Lemma numbered_fire P s e w w' :
  numbered P s w -> fire P e w = Some w' -> numbered P s w'.
Proof.
  intros H. destruct e as [|id ev elapsed|conversion]; cbn [fire].
  - intros E; inversion E; subst. now apply numbered_execute_step.
  - destruct (find_task id (submitted w)); [|discriminate].
    destruct (finished (table w) id); [discriminate|].
    intros E; inversion E; subst; clear E. destruct H. now constructor.
  - destruct (save_task_added w); [|discriminate].
    destruct (RasterSaveTask.run_pass conversion (raster_save_task (self w)));
      [|discriminate].
    intros E; inversion E; subst; clear E. destruct H. now constructor.
Qed.

Lemma reachable_numbered P s w : reachable P s w -> numbered P s w.
Proof.
  intros [events Hr].
  apply (CountFacts.run_invariant P (numbered P s) (numbered_fire P s) events
           (start s) w); [|exact Hr].
  constructor; [apply GeneratorMore.positioned_start | intros task []].
Qed.

(** *** What the generator raises *)

Lemma make_task_lookup_error P g name raster total index e :
  make_task P g name raster total index = Raises e ->
  lookup_error indices_formulas (gen_band_mapping g) e.
Proof.
  unfold make_task, subscript. intros H.
  destruct (dict_get indices_formulas index) as [template|] eqn:Et;
    cbn [bind] in H.
  - destruct (calculate_special_functions (resolver_fuel P) raster template
                (gen_band_mapping g)) as [f|e'|] eqn:Ef;
      cbn [bind] in H; try discriminate.
    inversion H; subst e'.
    exact (ResolverMore.expansion_loop_lookup_error _ _ _ _ _ _ _ Ef).
  - inversion H; subst. right. exists index. auto.
Qed.

Lemma next_file_error P g files e :
  next_file P g files = Raises e ->
  generator_error P files (gen_band_mapping g) e.
Proof.
  induction files as [|f files IH]; intros H; [discriminate|].
  cbn [next_file] in H. unfold load_raster_layer in H.
  destruct (load P f) as [raster|] eqn:El; cbn [bind] in H.
  - destruct (N.eqb_spec (bandCount raster) 0) as [E0|E0]; cbn [bind] in H.
    + inversion H; subst. right; left. split; [reflexivity|].
      exists f, raster. split; [now left | auto].
    + destruct (gen_selected_indices g) as [|index rest].
      * destruct (IH H) as [(x & Hx & Hl & He)|[(He & x & r & Hx & Hl)|He]].
        -- left. exists x. split; [now right | auto].
        -- right; left. split; [exact He|]. exists x, r.
           split; [now right | exact Hl].
        -- right; right. exact He.
      * match type of H with
        | (bind ?m _) = _ => destruct m as [t0|e'|] eqn:Em
        end; cbn [bind] in H; try discriminate.
        inversion H; subst e'. right; right.
        exact (make_task_lookup_error _ _ _ _ _ _ _ Em).
  - inversion H; subst. left. exists f. split; [now left | auto].
Qed.

Lemma next_error P g e :
  next P g = Raises e ->
  generator_error P (files_left g) (gen_band_mapping g) e.
Proof.
  unfold next. intros H.
  destruct (opened g) as [o|]; [|now apply next_file_error].
  destruct (indices_left o) as [|index rest]; [now apply next_file_error|].
  destruct (make_task P g (input_file_name o) (opened_layer o)
              (opened_memory_usage o) index) as [t0|e'|] eqn:Em;
    cbn [bind] in H; try discriminate.
  inversion H; subst e'. right; right.
  exact (make_task_lookup_error _ _ _ _ _ _ _ Em).
Qed.

(** *** The shape of the results *)

Lemma finished_in (table : progress_table) (id : nat) (r : task_result) :
  finished table id = Some r -> In (id, r) table.
Proof.
  induction table as [|[id' r'] table IH]; [discriminate|].
  cbn [finished]. destruct (Nat.eqb_spec id id') as [->|_].
  - intros E; inversion E; subst. now left.
  - intros E. right. auto.
Qed.

Lemma calculated_recorded (r : task_result) :
  calculated r -> calculation_status r <> "success" -> recorded r.
Proof.
  intros ([Hs|Hs] & Hv & Ho) Hn; [congruence|].
  split; [exact Ho|]. right. auto.
Qed.

Lemma transfer_from_shaped (table : progress_table) (passes : nat) :
  Forall (fun x => calculated (snd x)) table ->
  forall i s, shaped s -> shaped (transfer_from passes i table s).
Proof.
  intros Ht. rewrite Forall_forall in Ht.
  induction passes as [|passes IH]; intros i s H; [exact H|].
  cbn [transfer_from].
  destruct (nth_error (active_tasks s) i) as [task|]; [|exact H].
  destruct (finished table (tid task)) as [r|] eqn:Ef; [|now apply IH].
  pose proof (Ht _ (finished_in _ _ _ Ef)) as Hr. cbn [snd] in Hr.
  apply IH. destruct H as [H1 H2 H3 H4].
  destruct (String.eqb_spec (calculation_status r) "success") as [Es|Es];
    constructor; cbn; try assumption.
  - apply Forall_app. split; [exact H2|]. constructor; [|constructor].
    cbn. auto.
  - apply Forall_app. split; [exact H1|]. constructor; [|constructor].
    now apply calculated_recorded.
Qed.

Lemma take_saved_shaped (saved : list RasterSaveTask.saved_raster) :
  forall s,
    Forall (fun x => recorded (RasterSaveTask.result x)) saved ->
    shaped s -> shaped (fold_left take_saved saved s).
Proof.
  induction saved as [|x saved IH]; intros s Hs H; [exact H|].
  cbn [fold_left]. inversion Hs as [|? ? Hx Hrest]; subst.
  apply IH; [exact Hrest|].
  destruct H as [H1 H2 H3 H4]. constructor; cbn; try assumption.
  apply Forall_app. split; [exact H1|]. constructor; [exact Hx|constructor].
Qed.

Lemma shaped_execute_step P w :
  well_shaped w -> well_shaped (execute_step P w).
Proof.
  intros [H Ht].
  destruct (execute_step_effect P w)
    as [E1 E2 E3 E4|task Ep En Eg E1 E3 E4|task Ep En Eg E1 E3 E4
        |E1 E2 E3 E4|E1 E2 E3 E4|E1 E2 E3 E4];
    (split; [rewrite E1 | rewrite E4; exact Ht]); try exact H.
  - destruct H as [H1 H2 H3 H4]. constructor; cbn; try assumption.
    apply Forall_app. split; [exact H1|]. constructor; [|constructor].
    split; [reflexivity|]. right. split; [now left | reflexivity].
  - destruct H as [H1 H2 H3 H4]. constructor; cbn; assumption.
  - now apply transfer_from_shaped.
  - destruct H as [H1 H2 H3 H4]. constructor; cbn; try assumption.
    + constructor.
    + apply Forall_app. split; [exact H3|].
      apply Forall_map. cbn. exact H2.
  - unfold get_saved_rasters. cbn.
    destruct H as [H1 H2 H3 H4]. apply take_saved_shaped.
    + eapply Forall_impl; [|exact H4]. cbn. tauto.
    + constructor; cbn; try assumption. constructor.
Qed.

Lemma shaped_fire P e w w' :
  well_shaped w -> fire P e w = Some w' -> well_shaped w'.
Proof.
  intros H. destruct e as [|id ev elapsed|conversion]; cbn [fire].
  - intros E; inversion E; subst. now apply shaped_execute_step.
  - destruct (find_task id (submitted w)) as [task|]; [|discriminate].
    destruct (finished (table w) id); [discriminate|].
    intros E; inversion E; subst; clear E. destruct H as [H Ht].
    split; [exact H|]. cbn. constructor; [|exact Ht].
    cbn. destruct ev; cbn; unfold calculated; cbn; auto.
  - destruct (save_task_added w); [|discriminate].
    unfold RasterSaveTask.run_pass.
    destruct (RasterSaveTask.running (raster_save_task (self w)));
      [|discriminate].
    destruct (RasterSaveTask.task_queue (raster_save_task (self w)))
      as [|item queue] eqn:Eq; [discriminate|].
    intros E; inversion E; subst; clear E. destruct H as [H Ht].
    split; [|exact Ht]. destruct H as [H1 H2 H3 H4].
    rewrite Eq in H3. inversion H3 as [|? ? [Hc Hs] Hq]; subst.
    constructor; cbn; try assumption.
    apply Forall_app. split; [exact H4|]. constructor; [|constructor].
    cbn. destruct Hc as (_ & _ & Ho).
    split; [|exact Hs]. split; [exact Ho|]. left. split; [exact Hs|].
    destruct conversion as [e|]; [right; exists e | left]; reflexivity.
Qed.

Lemma reachable_shaped P s w : fresh s -> reachable P s w -> well_shaped w.
Proof.
  intros Hf [events Hr].
  apply (CountFacts.run_invariant P well_shaped (shaped_fire P) events
           (start s) w); [|exact Hr].
  destruct Hf as [F1 F2 F3 F4 F5 F6].
  split; [|constructor]. cbn.
  constructor; rewrite ?F1, ?F3, ?F4; constructor.
Qed.

End RunFacts.

(** ** Runs of [execute] *)

Import DoubleRange.

(** X10.  Every task that [execute] hands to the task manager is the task
    of its number: the task numbered [n] is made of the [n]-th pair of an
    input file and a selected index, in the order of the two loops of
    [create_tasks], with the layer of that file, the resolved formula of
    that index and the two output names of the pair, and with the size of
    the raster and one more band whenever that is at most [2^53] bytes,
    where the doubles of the source are exact. *)
Theorem submitted_task_of_its_number (P : platform) (s : t) (w : process)
    (task : RasterIndexCalculatorTask.t) :
  reachable P s w -> In task (submitted w) ->
  exists input_file index,
    nth_error (task_order (input_files s) (selected_indices s)) (tid task)
    = Some (input_file, index) /\
    named_for P (output_dir s) (self_band_mapping s) input_file index task.
Proof.
  intros Hr Hin.
  exact (numbered_submitted _ _ _ (RunFacts.reachable_numbered P s w Hr)
           task Hin).
Qed.

Lemma sample_second_task :
  nth_error (submitted MoreSamples.both_saved_end) 1
  = Some MoreSamples.second_task.
Proof. reflexivity. Qed.

Lemma submitted_task_of_its_number_witness :
  exists input_file index,
    nth_error (task_order ["a.tif"] ["Rnorm"; "ExG_wernette"])
      (tid MoreSamples.second_task)
    = Some (input_file, index) /\
    named_for Samples.files "out" Samples.bands input_file index
      MoreSamples.second_task.
Proof.
  apply (submitted_task_of_its_number Samples.files Samples.two_indices
           MoreSamples.both_saved_end MoreSamples.second_task).
  - exists Samples.both_saved. vm_compute. reflexivity.
  - apply (nth_error_In _ 1). exact sample_second_task.
Defined.

(** X11.  A run of [execute] on the object the constructor returns raises
    nothing but: [ValueError] for a selected index that the library does
    not have; [QgsProcessingException] for an input file that is not a
    valid raster; [ZeroDivisionError] for a raster without bands; and the
    [IndexError] and [KeyError] of a lookup of the resolver. *)
Theorem execute_raises_only (P : platform) (input_files : list string)
    (selected_indices : string) (band_mapping : dict Z) (output_dir : string)
    (max_memory_usage : Q) (max_active_tasks : Z) (s : t) (w : process)
    (e : exn) :
  init input_files selected_indices band_mapping output_dir max_memory_usage
    max_active_tasks = Returns s ->
  reachable P s w -> at_place w = Raised e ->
  (exists index,
     In index (split "," selected_indices) /\
     dict_mem indices_formulas index = false /\
     e = ValueError ("Unsupported index: " ++ index)) \/
  (exists file,
     In file input_files /\ load P file = None /\
     e = QgsProcessingException ("Invalid raster file: " ++ file)) \/
  (e = ZeroDivisionError /\
   exists file raster,
     In file input_files /\ load P file = Some raster /\
     bandCount raster = 0%N) \/
  lookup_error indices_formulas band_mapping e.
Proof.
  intros Hinit Hr Hp.
  assert (Hbm : self_band_mapping s = band_mapping).
  { unfold init in Hinit.
    destruct (calculate_progress_step _); cbn [bind] in Hinit;
      try discriminate.
    inversion Hinit; subst. reflexivity. }
  destruct (LiveFacts.init_fresh _ _ _ _ _ _ _ Hinit)
    as (Hf & Hi & Hs & _).
  pose proof (CountFacts.reachable_counted P s w Hf Hr) as C.
  pose proof (RunFacts.reachable_numbered P s w Hr) as [Hg _].
  destruct (counted_raised _ _ _ C e Hp) as [[Hv _]|Hn].
  - left. rewrite Hs in Hv.
    destruct (GeneratorFacts.validate_indices_raises _ _ Hv)
      as (index & Hin & Hm & He).
    exists index. auto.
  - right. apply RunFacts.next_error in Hn.
    rewrite (positioned_bands _ _ _ _ _ _ Hg), Hbm in Hn.
    destruct (counted_files _ _ _ C) as (opened_files & Hfiles & _).
    assert (Hsub : forall f, In f (files_left (task_generator w)) ->
                             In f input_files).
    { intros f Hin. rewrite <- Hi, Hfiles. apply in_or_app. now right. }
    destruct Hn as [(f & Hin & Hl & He)|[(He & f & r & Hin & Hl)|He]].
    + left. exists f. auto.
    + right; left. split; [exact He|]. exists f, r. auto.
    + right; right. exact He.
Qed.

Lemma execute_raises_only_witness :
  (exists index,
     In index (split "," "Rnorm") /\
     dict_mem indices_formulas index = false /\
     QgsProcessingException "Invalid raster file: b.tif"
     = ValueError ("Unsupported index: " ++ index)) \/
  (exists file,
     In file ["a.tif"; "b.tif"] /\ load Samples.files file = None /\
     QgsProcessingException "Invalid raster file: b.tif"
     = QgsProcessingException ("Invalid raster file: " ++ file)) \/
  (QgsProcessingException "Invalid raster file: b.tif" = ZeroDivisionError /\
   exists file raster,
     In file ["a.tif"; "b.tif"] /\ load Samples.files file = Some raster /\
     bandCount raster = 0%N) \/
  lookup_error indices_formulas Samples.bands
    (QgsProcessingException "Invalid raster file: b.tif").
Proof.
  apply (execute_raises_only Samples.files ["a.tif"; "b.tif"] "Rnorm"
           Samples.bands "out" (1024 # 1) 5 Samples.two_files
           (Samples.state_after Samples.files Samples.second_file_opened
              Samples.two_files)).
  - reflexivity.
  - exists Samples.second_file_opened. vm_compute. reflexivity.
  - vm_compute. reflexivity.
Defined.

(** X12.  When [execute] returns nothing is left behind: the list of
    active tasks, the queue of tasks to save, the queue of the save worker
    and its completion buffer are empty; and the memory counter is back at
    zero when the sizes of all the tasks of the run add up to at most
    [2^53] bytes, where the doubles of the source add and subtract them
    exactly. *)
Theorem returned_run_is_settled (P : platform) (input_files : list string)
    (selected_indices : string) (band_mapping : dict Z) (output_dir : string)
    (max_memory_usage : Q) (max_active_tasks : Z) (s : t) (w : process) :
  init input_files selected_indices band_mapping output_dir max_memory_usage
    max_active_tasks = Returns s ->
  reachable P s w -> at_place w = Returned ->
  active_tasks (self w) = [] /\
  saving_tasks_queue (self w) = [] /\
  RasterSaveTask.task_queue (raster_save_task (self w)) = [] /\
  RasterSaveTask.saved_rasters (raster_save_task (self w)) = [] /\
  (double_exact P s -> (memory_usage (self w) == 0)%Q).
Proof.
  intros Hinit Hr Hp.
  destruct (LiveFacts.init_fresh _ _ _ _ _ _ _ Hinit) as (Hf & _).
  pose proof (CountFacts.reachable_counted P s w Hf Hr) as C.
  destruct (MemoryFacts.reachable_accounted P s w Hf Hr) as [B _].
  pose proof (counted_returned _ _ _ C Hp) as H1.
  pose proof (counted_past _ _ _ C) as H2. rewrite Hp in H2.
  specialize (H2 eq_refl).
  pose proof (counted_created _ _ _ C) as H3.
  pose proof (counted_pending _ _ _ C) as H4.
  pose proof (counted_number _ _ _ C) as H5.
  unfold in_flight in H3.
  assert (Ha : active_tasks (self w) = [])
    by (apply length_zero_iff_nil; lia).
  assert (Hq : saving_tasks_queue (self w) = [])
    by (apply length_zero_iff_nil; lia).
  assert (Ht : RasterSaveTask.task_queue (raster_save_task (self w)) = [])
    by (apply length_zero_iff_nil; lia).
  assert (Hb : RasterSaveTask.saved_rasters (raster_save_task (self w)) = [])
    by (apply length_zero_iff_nil; lia).
  repeat (split; [assumption|]). intros _.
  rewrite (balanced_memory _ _ B), Ha, Hq, Ht, Hb. reflexivity.
Qed.

Lemma returned_run_is_settled_witness :
  active_tasks
    (self MoreSamples.both_saved_end) = [] /\
  saving_tasks_queue
    (self MoreSamples.both_saved_end) = [] /\
  RasterSaveTask.task_queue
    (raster_save_task
       (self MoreSamples.both_saved_end)) = [] /\
  RasterSaveTask.saved_rasters
    (raster_save_task
       (self MoreSamples.both_saved_end)) = [] /\
  (double_exact Samples.files Samples.two_indices ->
   (memory_usage
      (self MoreSamples.both_saved_end) == 0)%Q).
Proof.
  apply (returned_run_is_settled Samples.files ["a.tif"] "Rnorm,ExG_wernette"
           Samples.bands "out" (1024 # 1) 5 Samples.two_indices
           MoreSamples.both_saved_end).
  - reflexivity.
  - exists Samples.both_saved. vm_compute. reflexivity.
  - vm_compute. reflexivity.
Defined.

(** X13.  Every result that a run of [execute] records has no output file
    ([output_file] is [None]) and one of two shapes: the calculation
    status [success] with a saving status that is [success] or starts with
    [error - ]; or the calculation status [error] or [exception] without a
    saving status. *)
Theorem recorded_results_shape (P : platform) (input_files : list string)
    (selected_indices : string) (band_mapping : dict Z) (output_dir : string)
    (max_memory_usage : Q) (max_active_tasks : Z) (s : t) (w : process)
    (r : task_result) :
  init input_files selected_indices band_mapping output_dir max_memory_usage
    max_active_tasks = Returns s ->
  reachable P s w -> In r (results (self w)) ->
  result_output_file r = None /\
  ((calculation_status r = "success" /\
    (saving_status r = Some "success" \/
     exists e, saving_status r = Some ("error - " ++ e)))
   \/
   ((calculation_status r = "error" \/ calculation_status r = "exception") /\
    saving_status r = None)).
Proof.
  intros Hinit Hr Hin.
  destruct (LiveFacts.init_fresh _ _ _ _ _ _ _ Hinit) as (Hf & _).
  destruct (RunFacts.reachable_shaped P s w Hf Hr) as [[H _ _ _] _].
  rewrite Forall_forall in H. exact (H r Hin).
Qed.

Lemma recorded_results_shape_witness :
  result_output_file (RasterSaveTask.result (Samples.record "Rnorm" (1 # 2)))
  = None /\
  ((calculation_status
      (RasterSaveTask.result (Samples.record "Rnorm" (1 # 2))) = "success" /\
    (saving_status
       (RasterSaveTask.result (Samples.record "Rnorm" (1 # 2)))
     = Some "success" \/
     exists e,
       saving_status
         (RasterSaveTask.result (Samples.record "Rnorm" (1 # 2)))
       = Some ("error - " ++ e)))
   \/
   ((calculation_status
       (RasterSaveTask.result (Samples.record "Rnorm" (1 # 2))) = "error" \/
     calculation_status
       (RasterSaveTask.result (Samples.record "Rnorm" (1 # 2)))
     = "exception") /\
    saving_status (RasterSaveTask.result (Samples.record "Rnorm" (1 # 2)))
    = None)).
Proof.
  apply (recorded_results_shape Samples.files ["a.tif"] "Rnorm,ExG_wernette"
           Samples.bands "out" (1024 # 1) 5 Samples.two_indices
           MoreSamples.both_saved_end).
  - reflexivity.
  - exists Samples.both_saved. vm_compute. reflexivity.
  - vm_compute. left. reflexivity.
Defined.

(** ** Sweeps and the save worker *)

Module SweepFacts.

Import PyStr RasterIndexCalculatorTask RasterIndexCalculator SchedulerSpec
  RunSpec SaveWorker.

Lemma remove_middle task (pre suf : list RasterIndexCalculatorTask.t) :
  NoDup (map tid (pre ++ task :: suf)) ->
  remove task (pre ++ task :: suf) = (pre ++ suf)%list.
Proof.
  induction pre as [|x pre IH]; cbn [app map remove]; intros H.
  - now rewrite Nat.eqb_refl.
  - inversion H as [|? ? Hx Hn]; subst.
    destruct (Nat.eqb_spec (tid x) (tid task)) as [E|_].
    + exfalso. apply Hx. rewrite E, map_app. apply in_or_app. right.
      now left.
    + now rewrite IH.
Qed.

Lemma nodup_without (x : nat) (a b : list nat) :
  NoDup (a ++ x :: b) -> NoDup (a ++ b).
Proof. apply NoDup_remove_1. Qed.

(** The loop from position [i] on, over a list of distinct tasks. *)
Lemma transfer_from_spec (table : progress_table) (passes : nat) :
  forall i s pre suf,
    active_tasks s = (pre ++ suf)%list -> List.length pre = i ->
    List.length suf <= passes ->
    NoDup (map tid (active_tasks s)) ->
    active_tasks (transfer_from passes i table s)
    = (pre ++ left_active table suf)%list /\
    saving_tasks_queue (transfer_from passes i table s)
    = (saving_tasks_queue s ++ filter succeeded (taken table suf))%list /\
    results (transfer_from passes i table s)
    = (results s
       ++ map snd (filter (fun tr => negb (succeeded tr))
                     (taken table suf)))%list.
Proof.
  induction passes as [|passes IH]; intros i s pre suf Ha Hi Hl Hn.
  - destruct suf; [|cbn in Hl; lia]. cbn.
    rewrite app_nil_r in Ha. rewrite !app_nil_r. auto.
  - cbn [transfer_from]. rewrite Ha, <- Hi.
    destruct suf as [|task suf].
    + rewrite app_nil_r, (proj2 (nth_error_None pre (List.length pre)))
        by lia.
      cbn. rewrite Ha, !app_nil_r. auto.
    + rewrite nth_error_app2, Nat.sub_diag by lia. cbn [nth_error].
      cbn [left_active taken].
      destruct (finished table (tid task)) as [r|] eqn:Ef.
      * assert (Hrem : remove task (pre ++ task :: suf) = (pre ++ suf)%list).
        { apply remove_middle. now rewrite <- Ha. }
        assert (Hn' : NoDup (map tid (pre ++ suf))).
        { rewrite Ha, map_app in Hn. cbn [map] in Hn.
          rewrite map_app. exact (nodup_without _ _ _ Hn). }
        match goal with
        | |- context [transfer_from passes _ table ?s2] =>
            assert (H2 : active_tasks s2 = (pre ++ suf)%list /\
                         saving_tasks_queue s2
                         = (saving_tasks_queue s
                            ++ filter succeeded [(task, r)])%list /\
                         results s2
                         = (results s
                            ++ map snd
                                 (filter (fun tr => negb (succeeded tr))
                                    [(task, r)]))%list);
            [|set (s2' := s2) in *]
        end.
        { unfold succeeded. cbn [filter snd].
          destruct (String.eqb (calculation_status r) "success");
            cbn; rewrite ?Ha, ?Hrem, ?app_nil_r; auto. }
        destruct H2 as (A2 & Q2 & R2).
        destruct suf as [|skipped suf].
        -- rewrite app_nil_r in A2.
           assert (E : transfer_from passes (S (List.length pre)) table s2'
                       = s2').
           { destruct passes; [reflexivity|]. cbn [transfer_from].
             rewrite A2, (proj2 (nth_error_None pre (S (List.length pre))))
               by lia. reflexivity. }
           rewrite E, A2, Q2, R2, !app_nil_r.
           unfold succeeded. cbn [filter snd map].
           destruct (String.eqb (calculation_status r) "success"); auto.
        -- destruct (IH (S (List.length pre)) s2' (pre ++ [skipped])%list suf)
             as (A3 & Q3 & R3).
           ++ rewrite A2, <- app_assoc. reflexivity.
           ++ rewrite length_app. cbn. lia.
           ++ cbn in Hl. lia.
           ++ now rewrite A2.
           ++ rewrite A3, Q3, R3, Q2, R2, <- !app_assoc.
              cbn [app filter map]. unfold succeeded. cbn [snd].
              destruct (String.eqb (calculation_status r) "success");
                cbn [negb app map]; auto.
      * destruct (IH (S (List.length pre)) s (pre ++ [task])%list suf)
          as (A3 & Q3 & R3).
        -- rewrite Ha, <- app_assoc. reflexivity.
        -- rewrite length_app. cbn. lia.
        -- cbn in Hl. lia.
        -- exact Hn.
        -- rewrite A3, Q3, R3, <- app_assoc. auto.
Qed.

(** The passes of the worker. *)
Lemma run_passes_spec (conversions : list (option string)) :
  forall self,
    RasterSaveTask.running self = true ->
    run_passes conversions self
    = if (List.length conversions
          <=? List.length (RasterSaveTask.task_queue self))%nat
      then Some (after_passes conversions self)
      else None.
Proof.
  induction conversions as [|c conversions IH]; intros self Hr.
  - unfold after_passes. cbn [run_passes List.length Nat.leb skipn].
    rewrite combine_nil. cbn [map]. rewrite app_nil_r.
    now destruct self.
  - cbn [run_passes]. unfold RasterSaveTask.run_pass. rewrite Hr.
    destruct (RasterSaveTask.task_queue self) as [|item queue] eqn:Eq;
      [reflexivity|].
    rewrite IH by reflexivity. cbn [List.length].
    change (S (List.length conversions) <=? S (List.length queue))%nat
      with (List.length conversions <=? List.length queue)%nat.
    cbn [RasterSaveTask.append_saved RasterSaveTask.task_queue].
    destruct (List.length conversions <=? List.length queue)%nat;
      [|reflexivity].
    unfold after_passes. cbn. rewrite Eq, Hr. cbn. rewrite <- app_assoc.
    reflexivity.
Qed.

Lemma add_each_spec tasks :
  forall self, add_each tasks self = RasterSaveTask.add_tasks tasks self.
Proof.
  unfold add_each, RasterSaveTask.add_tasks.
  induction tasks as [|tr tasks IH]; intros self.
  - cbn. rewrite app_nil_r. now destruct self.
  - cbn [fold_left map]. rewrite IH. unfold add_task. cbn.
    rewrite <- app_assoc. reflexivity.
Qed.

(** What a collection does with the records of the buffer. *)
Lemma take_saved_spec (saved : list RasterSaveTask.saved_raster) :
  forall s,
    results (fold_left take_saved saved s)
    = (results s ++ map RasterSaveTask.result saved)%list /\
    (memory_usage (fold_left take_saved saved s)
     == memory_usage s - total (map RasterSaveTask.total_saved_size saved))%Q
    /\
    active_tasks (fold_left take_saved saved s) = active_tasks s /\
    saving_tasks_queue (fold_left take_saved saved s) = saving_tasks_queue s
    /\
    raster_save_task (fold_left take_saved saved s) = raster_save_task s.
Proof.
  induction saved as [|x saved IH]; intros s.
  - cbn. rewrite app_nil_r. repeat split; trivial. ring.
  - cbn [fold_left map total].
    destruct (IH (take_saved s x)) as (H1 & H2 & H3 & H4 & H5).
    rewrite H1, H2, H3, H4, H5. cbn. rewrite <- app_assoc.
    repeat split; trivial. ring.
Qed.

Lemma get_saved_rasters_spec (s : t) :
  results (get_saved_rasters s)
  = (results s
     ++ map RasterSaveTask.result
          (RasterSaveTask.saved_rasters (raster_save_task s)))%list /\
  (memory_usage (get_saved_rasters s)
   == memory_usage s
      - total (map RasterSaveTask.total_saved_size
                 (RasterSaveTask.saved_rasters (raster_save_task s))))%Q /\
  active_tasks (get_saved_rasters s) = active_tasks s /\
  saving_tasks_queue (get_saved_rasters s) = saving_tasks_queue s /\
  RasterSaveTask.task_queue (raster_save_task (get_saved_rasters s))
  = RasterSaveTask.task_queue (raster_save_task s) /\
  RasterSaveTask.saved_rasters (raster_save_task (get_saved_rasters s)) = [].
Proof.
  unfold get_saved_rasters. cbn [RasterSaveTask.get_and_reset_saved_rasters].
  match goal with
  | |- context [fold_left take_saved ?l ?x] =>
      destruct (take_saved_spec l x) as (H1 & H2 & H3 & H4 & H5)
  end.
  rewrite H1, H2, H3, H4, H5. cbn. repeat split; trivial; reflexivity.
Qed.

Lemma records_of_items (l : list (RasterIndexCalculatorTask.t * task_result)) :
  forall conversions,
    map RasterSaveTask.result
      (map (fun ic => saved_record (fst ic) (snd ic))
         (combine (map item_of l) conversions))
    = map (fun tc =>
             RasterSaveTask.with_saving_status (snd (fst tc))
               (saving_text (snd tc)))
        (combine l conversions).
Proof.
  induction l as [|tr l IH]; intros [|c cs]; try reflexivity.
  cbn. now rewrite IH.
Qed.

Lemma sizes_of_items (l : list (RasterIndexCalculatorTask.t * task_result)) :
  forall conversions : list (option string),
    List.length conversions = List.length l ->
    map RasterSaveTask.total_saved_size
      (map (fun ic => saved_record (fst ic) (snd ic))
         (combine (map item_of l) conversions))
    = map (fun tr => total_memory_usage (fst tr)) l.
Proof.
  induction l as [|tr l IH]; intros [|c cs] H; try discriminate;
    [reflexivity|].
  cbn. rewrite IH; [reflexivity | now inversion H].
Qed.

End SweepFacts.

Import SaveWorker.

(** X14.  A sweep works on the list of active tasks while it walks over
    it, and therefore skips the task that follows each task it removes:
    over a list of distinct tasks it leaves the unfinished tasks and the
    skipped ones in the list, finished or not, appends the successes among
    the tasks it has removed to the queue of tasks to save and records the
    results of the others, all in the order of the list. *)
Theorem sweep_skips_after_removal (table : progress_table) (self : t) :
  NoDup (map tid (active_tasks self)) ->
  active_tasks (transfer_finished_tasks_to_saving_queue table self)
  = left_active table (active_tasks self) /\
  saving_tasks_queue (transfer_finished_tasks_to_saving_queue table self)
  = (saving_tasks_queue self
     ++ filter succeeded (taken table (active_tasks self)))%list /\
  results (transfer_finished_tasks_to_saving_queue table self)
  = (results self
     ++ map snd (filter (fun tr => negb (succeeded tr))
                   (taken table (active_tasks self))))%list.
Proof.
  intros Hn. unfold transfer_finished_tasks_to_saving_queue.
  exact (SweepFacts.transfer_from_spec table _ 0 self []
           (active_tasks self) eq_refl eq_refl (Nat.le_refl _) Hn).
Qed.

Lemma sweep_skips_after_removal_witness :
  active_tasks
    (transfer_finished_tasks_to_saving_queue MoreSamples.all_finished
       MoreSamples.three_active)
  = left_active MoreSamples.all_finished
      (active_tasks MoreSamples.three_active) /\
  saving_tasks_queue
    (transfer_finished_tasks_to_saving_queue MoreSamples.all_finished
       MoreSamples.three_active)
  = (saving_tasks_queue MoreSamples.three_active
     ++ filter succeeded
          (taken MoreSamples.all_finished
             (active_tasks MoreSamples.three_active)))%list /\
  results
    (transfer_finished_tasks_to_saving_queue MoreSamples.all_finished
       MoreSamples.three_active)
  = (results MoreSamples.three_active
     ++ map snd (filter (fun tr => negb (succeeded tr))
                   (taken MoreSamples.all_finished
                      (active_tasks MoreSamples.three_active))))%list.
Proof.
  apply (sweep_skips_after_removal MoreSamples.all_finished
           MoreSamples.three_active).
  cbn. repeat constructor; cbn; intuition discriminate.
Defined.

(** X15.  The save worker takes the items of its queue first in, first
    out: as long as it has not been stopped, a number of passes that the
    queue can feed leaves the items the worker has not come to in the
    queue and appends one record for each of the others to the completion
    buffer, in the order of the queue, each with the size, the description
    and the output file of its item and with [saving_status] set to
    [success] or to [error - ] and the text of the exception; more passes
    than that do not happen. *)
Theorem save_worker_first_in_first_out (conversions : list (option string))
    (self : RasterSaveTask.t) :
  RasterSaveTask.running self = true ->
  run_passes conversions self
  = if (List.length conversions
        <=? List.length (RasterSaveTask.task_queue self))%nat
    then Some (after_passes conversions self)
    else None.
Proof. apply SweepFacts.run_passes_spec. Qed.

Lemma save_worker_first_in_first_out_witness :
  run_passes [None; Some "disk full"]
    (raster_save_task
       (save_rasters_from_memory_to_disk MoreSamples.two_to_save))
  = if (List.length [None; Some "disk full"]
        <=? List.length
              (RasterSaveTask.task_queue
                 (raster_save_task
                    (save_rasters_from_memory_to_disk
                       MoreSamples.two_to_save))))%nat
    then Some (after_passes [None; Some "disk full"]
                 (raster_save_task
                    (save_rasters_from_memory_to_disk
                       MoreSamples.two_to_save)))
    else None.
Proof.
  apply (save_worker_first_in_first_out [None; Some "disk full"]
           (raster_save_task
              (save_rasters_from_memory_to_disk MoreSamples.two_to_save))).
  reflexivity.
Defined.

(** X16.  [add_tasks] does what the loop of [add_task] calls that the
    scheduler has in comments does: one queue item for each finished task,
    in the order of the list, behind the items the queue holds. *)
Theorem add_tasks_is_add_task_for_each
    (tasks : list (RasterIndexCalculatorTask.t * task_result))
    (self : RasterSaveTask.t) :
  add_each tasks self = RasterSaveTask.add_tasks tasks self.
Proof. apply SweepFacts.add_each_spec. Qed.

(** X17.  From the queue of tasks to save to the list of results: when
    the worker is running with an empty queue and an empty buffer, handing
    over the finished tasks, one pass of the worker for each of them and
    one collection append the results of these tasks to [self.results] in
    the order of the queue, each with its saving status; the queue of
    tasks to save, the queue of the worker and its buffer are empty
    afterwards. *)
Theorem saved_results_round_trip (self : t)
    (conversions : list (option string)) :
  RasterSaveTask.running (raster_save_task self) = true ->
  RasterSaveTask.task_queue (raster_save_task self) = [] ->
  RasterSaveTask.saved_rasters (raster_save_task self) = [] ->
  List.length conversions = List.length (saving_tasks_queue self) ->
  exists save_task,
    run_passes conversions
      (raster_save_task (save_rasters_from_memory_to_disk self))
    = Some save_task /\
    let self' :=
      get_saved_rasters
        (set_raster_save_task save_task
           (save_rasters_from_memory_to_disk self)) in
    results self'
    = (results self
       ++ map (fun tc =>
                 RasterSaveTask.with_saving_status (snd (fst tc))
                   (saving_text (snd tc)))
            (combine (saving_tasks_queue self) conversions))%list /\
    saving_tasks_queue self' = [] /\
    RasterSaveTask.task_queue (raster_save_task self') = [] /\
    RasterSaveTask.saved_rasters (raster_save_task self') = [].
Proof.
  intros Hr Hq Hs Hl.
  set (s1 := save_rasters_from_memory_to_disk self).
  assert (W1 : raster_save_task s1
               = {| RasterSaveTask.task_queue :=
                      map item_of (saving_tasks_queue self);
                    RasterSaveTask.running := true;
                    RasterSaveTask.saved_rasters := [] |}).
  { unfold s1, save_rasters_from_memory_to_disk.
    cbn [raster_save_task set_saving_tasks_queue set_raster_save_task].
    unfold RasterSaveTask.add_tasks. rewrite Hr, Hq, Hs. reflexivity. }
  rewrite W1, SweepFacts.run_passes_spec by reflexivity.
  cbn [RasterSaveTask.task_queue]. rewrite length_map, Hl, Nat.leb_refl.
  eexists. split; [reflexivity|]. cbv zeta.
  match goal with
  | |- context [get_saved_rasters ?x] => set (s2 := x)
  end.
  destruct (SweepFacts.get_saved_rasters_spec s2)
    as (H1 & _ & _ & H4 & H5 & H6).
  rewrite H1, H4, H5, H6.
  change (results s2) with (results self).
  change (saving_tasks_queue s2) with (@nil (RasterIndexCalculatorTask.t
                                             * task_result)).
  change (raster_save_task s2)
    with (after_passes conversions
            {| RasterSaveTask.task_queue :=
                 map item_of (saving_tasks_queue self);
               RasterSaveTask.running := true;
               RasterSaveTask.saved_rasters := [] |}).
  unfold after_passes.
  cbn [RasterSaveTask.task_queue RasterSaveTask.saved_rasters app].
  rewrite SweepFacts.records_of_items.
  repeat split; trivial; try reflexivity.
  apply skipn_all2. rewrite length_map. lia.
Qed.

Lemma saved_results_round_trip_witness :
  exists save_task,
    run_passes [None; Some "disk full"]
      (raster_save_task
         (save_rasters_from_memory_to_disk MoreSamples.two_to_save))
    = Some save_task /\
    let self' :=
      get_saved_rasters
        (set_raster_save_task save_task
           (save_rasters_from_memory_to_disk MoreSamples.two_to_save)) in
    results self'
    = (results MoreSamples.two_to_save
       ++ map (fun tc =>
                 RasterSaveTask.with_saving_status (snd (fst tc))
                   (saving_text (snd tc)))
            (combine (saving_tasks_queue MoreSamples.two_to_save)
               [None; Some "disk full"]))%list /\
    saving_tasks_queue self' = [] /\
    RasterSaveTask.task_queue (raster_save_task self') = [] /\
    RasterSaveTask.saved_rasters (raster_save_task self') = [].
Proof.
  apply (saved_results_round_trip MoreSamples.two_to_save
           [None; Some "disk full"]); reflexivity.
Defined.

(** ** The formula of a task *)

Module TaskRunFacts.

Import PyStr RasterIndexCalculatorTask TaskRun.

Lemma replace_char_app (c : ascii) (new s1 s2 : string) :
  replace (String c "") new (s1 ++ s2)
  = replace (String c "") new s1 ++ replace (String c "") new s2.
Proof.
  unfold replace. induction s1 as [|a s1 IH]; [reflexivity|].
  cbn [append replace_from startswith String.length Nat.sub].
  rewrite andb_true_r. destruct (Ascii.eqb c a).
  - rewrite IH. now rewrite PyStrFacts.append_assoc.
  - now rewrite IH.
Qed.

Lemma replace_char_one (c a : ascii) (new : string) :
  replace (String c "") new (String a "")
  = if Ascii.eqb c a then new else String a "".
Proof.
  unfold replace. cbn. rewrite andb_true_r.
  destruct (Ascii.eqb c a); [apply PyStrFacts.append_nil_r | reflexivity].
Qed.

Lemma replace_char_absent (c : ascii) (new t : string) :
  all_chars (fun a => negb (Ascii.eqb c a)) t = true ->
  replace (String c "") new t = t.
Proof.
  induction t as [|a t IH]; intros H; [reflexivity|].
  cbn [all_chars] in H. apply andb_true_iff in H as [Ha Ht].
  change (String a t) with (String a "" ++ t).
  rewrite replace_char_app, replace_char_one, (IH Ht).
  apply negb_true_iff in Ha. now rewrite Ha.
Qed.

Lemma plain_names_tail item (items : dict Z) :
  plain_names (item :: items) -> plain_names items.
Proof. intros H n i Hin. apply (H n i). now right. Qed.

Lemma replace_bands_app (items : dict Z) :
  plain_names items ->
  forall s1 s2,
    replace_bands items (s1 ++ s2)
    = replace_bands items s1 ++ replace_bands items s2.
Proof.
  induction items as [|[n i] items IH]; intros Hp s1 s2; [reflexivity|].
  cbn [replace_bands].
  destruct (Hp n i (or_introl eq_refl)) as (c & -> & _).
  rewrite replace_char_app. apply IH. exact (plain_names_tail _ _ Hp).
Qed.

(** A text in which no band name of [items] occurs stays as it is. *)
Lemma replace_bands_absent (items : dict Z) (t : string) :
  (forall band_name band_index,
     In (band_name, band_index) items ->
     exists c, band_name = String c "" /\
               all_chars (fun a => negb (Ascii.eqb c a)) t = true) ->
  replace_bands items t = t.
Proof.
  induction items as [|[n i] items IH]; intros H; [reflexivity|].
  cbn [replace_bands].
  destruct (H n i (or_introl eq_refl)) as (c & -> & Hc).
  rewrite (replace_char_absent _ _ _ Hc). apply IH.
  intros n' i' Hin. apply (H n' i'). now right.
Qed.

Lemma uint_digits (d : Decimal.uint) :
  forall c, plain_symbol c = true ->
    all_chars (fun a => negb (Ascii.eqb c a))
      (NilEmpty.string_of_uint d) = true.
Proof.
  intros c Hc.
  assert (Hd : forall a : ascii,
             (48 <=? nat_of_ascii a)%nat && (nat_of_ascii a <=? 57)%nat
             = true ->
             negb (Ascii.eqb c a) = true).
  { intros a Ha. apply negb_true_iff. destruct (Ascii.eqb_spec c a) as [->|];
      [|reflexivity].
    unfold plain_symbol in Hc. cbv zeta in Hc. rewrite Ha in Hc.
    discriminate Hc. }
  induction d; cbn [NilEmpty.string_of_uint all_chars]; try reflexivity;
    rewrite IHd, andb_true_r; apply Hd; reflexivity.
Qed.

Lemma str_int_plain (z : Z) (c : ascii) :
  plain_symbol c = true ->
  all_chars (fun a => negb (Ascii.eqb c a)) (str_int z) = true.
Proof.
  intros Hc. unfold str_int, NilZero.string_of_int, NilZero.string_of_uint.
  assert (Hm : negb (Ascii.eqb c "-") = true).
  { unfold plain_symbol in Hc. cbv zeta in Hc.
    apply negb_true_iff in Hc. apply negb_true_iff.
    destruct (Ascii.eqb c "-"); [|reflexivity].
    rewrite orb_true_r in Hc. discriminate Hc. }
  destruct (Z.to_int z) as [d|d].
  - destruct d; try apply (uint_digits _ c Hc).
    cbn. apply (uint_digits (Decimal.D0 Decimal.Nil) c Hc).
  - cbn [all_chars]. rewrite Hm. cbn [andb].
    destruct d; try apply (uint_digits _ c Hc).
    cbn. apply (uint_digits (Decimal.D0 Decimal.Nil) c Hc).
Qed.

(** A plain character other than [a] does not occur in the quoted
    reference of [a]. *)
Lemma quoted_ref_plain (a c : ascii) (i : Z) :
  plain_symbol c = true -> c <> a ->
  all_chars (fun x => negb (Ascii.eqb c x)) (quoted_ref (String a "") i)
  = true.
Proof.
  intros Hc Hne. unfold quoted_ref, entry_ref.
  assert (Hq : negb (Ascii.eqb c dquote) = true /\
               negb (Ascii.eqb c "@") = true).
  { unfold plain_symbol in Hc. cbv zeta in Hc.
    apply negb_true_iff in Hc.
    destruct (Ascii.eqb c dquote); [rewrite !orb_true_r in Hc; discriminate|].
    destruct (Ascii.eqb c "@"); [rewrite !orb_true_r in Hc; discriminate|].
    auto. }
  destruct Hq as [Hq Hat].
  cbn [all_chars append]. rewrite Hq. cbn [andb].
  destruct (Ascii.eqb_spec c a) as [E|_]; [congruence|]. cbn [negb andb].
  rewrite Hat. cbn [andb].
  rewrite PyStrFacts.all_chars_app, (str_int_plain i c Hc).
  cbn. now rewrite Hq.
Qed.

Lemma replace_bands_one (items : dict Z) (a : ascii) :
  plain_names items -> NoDup (map fst items) ->
  replace_bands items (String a "") = substitute items a.
Proof.
  unfold substitute.
  induction items as [|[n i] items IH]; intros Hp Hn; [reflexivity|].
  cbn [replace_bands dict_get].
  destruct (Hp n i (or_introl eq_refl)) as (c & -> & Hc).
  rewrite replace_char_one.
  inversion Hn as [|? ? Hnot Hn']; subst.
  pose proof (plain_names_tail _ _ Hp) as Hp'.
  destruct (Ascii.eqb_spec c a) as [->|Hne].
  - rewrite String.eqb_refl. apply replace_bands_absent.
    intros n' i' Hin. destruct (Hp' n' i' Hin) as (c' & -> & Hc').
    exists c'. split; [reflexivity|].
    apply quoted_ref_plain; [exact Hc'|].
    intros ->. apply Hnot. cbn [fst].
    change (String a "") with (fst (String a "", i')).
    now apply in_map.
  - destruct (String.eqb_spec (String a "") (String c "")) as [E|_];
      [inversion E; congruence|].
    now apply IH.
Qed.

Lemma replace_bands_empty (items : dict Z) :
  plain_names items -> replace_bands items "" = "".
Proof.
  induction items as [|[n i] items IH]; intros Hp; [reflexivity|].
  cbn [replace_bands].
  destruct (Hp n i (or_introl eq_refl)) as (c & -> & _).
  cbn. apply IH. exact (plain_names_tail _ _ Hp).
Qed.

End TaskRunFacts.

Import TaskRun.

(** X18.  When the band names of a task are distinct single characters,
    none of them a digit, a minus sign, an at sign or a double quote, the
    formula the task hands to the raster calculator is its formula with
    every character that is a band name replaced, at once, by the
    reference of that band between double quotes, and every other
    character left as it is: the replacements that [run] makes one after
    the other do not touch each other's text. *)
Theorem band_symbols_substituted (self : RasterIndexCalculatorTask.t) :
  (forall band_name band_index,
     In (band_name, band_index) (band_mapping self) ->
     exists c, band_name = String c "" /\ plain_symbol c = true) ->
  NoDup (map fst (band_mapping self)) ->
  formula_with_bands self
  = substitute_all (band_mapping self) (formula self).
Proof.
  intros Hp Hn. unfold formula_with_bands.
  induction (formula self) as [|a s IH].
  - now apply TaskRunFacts.replace_bands_empty.
  - change (String a s) with (String a "" ++ s).
    rewrite (TaskRunFacts.replace_bands_app _ Hp), IH.
    now rewrite (TaskRunFacts.replace_bands_one _ a Hp Hn).
Qed.

Lemma band_symbols_substituted_witness :
  formula_with_bands MoreSamples.second_task
  = substitute_all (band_mapping MoreSamples.second_task)
      (formula MoreSamples.second_task).
Proof.
  apply (band_symbols_substituted MoreSamples.second_task).
  - intros n i [E|[E|[E|[]]]]; inversion E; subst; eexists;
      (split; [reflexivity | vm_compute; reflexivity]).
  - cbn. repeat constructor; cbn; intuition discriminate.
Defined.

(** ** The formula library *)

Module LibraryFacts.

Import PyStr RasterIndexCalculator FormulaSpec.

Lemma good_call_mono (ok ok' : string -> bool) (bm bm' : dict Z)
    (g : re_groups) :
  (forall p, ok p = true -> ok' p = true) ->
  (forall p, dict_mem bm p = true -> dict_mem bm' p = true) ->
  good_call ok bm g = true -> good_call ok' bm' g = true.
Proof.
  intros Hok Hbm. unfold good_call. intros H.
  apply andb_true_iff in H as [H1 H2]. rewrite H1. cbn [andb].
  destruct (param_list (params g)) as [|p ps]; [discriminate|].
  destruct (band_field (func_name g)); [now apply Hbm|].
  apply andb_true_iff in H2 as [H2 H3]. rewrite H2. cbn [andb].
  now apply Hok.
Qed.

Lemma calls_good_mono (ok ok' : string -> bool) (bm bm' : dict Z)
    (s : string) :
  (forall p, ok p = true -> ok' p = true) ->
  (forall p, dict_mem bm p = true -> dict_mem bm' p = true) ->
  calls_good ok bm s = true -> calls_good ok' bm' s = true.
Proof.
  intros Hok Hbm. induction s as [|c s IH]; [reflexivity|].
  cbn [calls_good]. intros H. apply andb_true_iff in H as [H1 H2].
  rewrite (IH H2), andb_true_r.
  destruct (startswith "func_" (String c s)); [|reflexivity].
  destruct (match_here (String c s)) as [[g rest]|]; [|discriminate].
  exact (good_call_mono _ _ _ _ g Hok Hbm H1).
Qed.

Lemma expands_within_mono (formulas : dict string) (bm bm' : dict Z)
    (depth : nat) :
  (forall p, dict_mem bm p = true -> dict_mem bm' p = true) ->
  forall name,
    expands_within depth formulas bm name = true ->
    expands_within depth formulas bm' name = true.
Proof.
  intros Hbm. induction depth as [|d IH]; intros name; [discriminate|].
  cbn [expands_within].
  destruct (dict_get formulas name) as [template|]; [|discriminate].
  apply calls_good_mono; assumption.
Qed.

Lemma well_formed_mono (formulas : dict string) (bm bm' : dict Z)
    (depth : nat) (template : string) :
  (forall p, dict_mem bm p = true -> dict_mem bm' p = true) ->
  well_formed depth formulas bm template = true ->
  well_formed depth formulas bm' template = true.
Proof.
  intros Hbm. unfold well_formed.
  apply calls_good_mono; [|exact Hbm].
  apply expands_within_mono. exact Hbm.
Qed.

Lemma library_templates_well_formed :
  forallb (fun entry => well_formed 5 indices_formulas Samples.bands
                          (snd entry)) indices_formulas = true.
Proof. vm_compute. reflexivity. Qed.

Lemma dict_get_entry {V : Type} (d : dict V) (k : string) (v : V) :
  dict_get d k = Some v -> In (k, v) d.
Proof.
  induction d as [|[k' v'] d IH]; [discriminate|].
  cbn [dict_get]. destruct (String.eqb_spec k k') as [->|_].
  - intros E; inversion E; subst. now left.
  - intros E. right. auto.
Qed.

Lemma sample_bands_within (bm : dict Z) :
  dict_mem bm "R" = true -> dict_mem bm "G" = true ->
  dict_mem bm "B" = true ->
  forall p, dict_mem Samples.bands p = true -> dict_mem bm p = true.
Proof.
  intros HR HG HB p. unfold dict_mem, Samples.bands. cbn [dict_get].
  destruct (String.eqb_spec p "R") as [->|_]; [intros _; exact HR|].
  destruct (String.eqb_spec p "G") as [->|_]; [intros _; exact HG|].
  destruct (String.eqb_spec p "B") as [->|_]; [intros _; exact HB|].
  discriminate.
Qed.

End LibraryFacts.

(** X19.  Every formula of the library resolves: for a raster whose band
    statistics are finite numbers and a band mapping that has the bands
    [R], [G] and [B], the resolver returns on the template of every index
    of [indices_formulas] once it is given enough rounds, and what it
    returns holds no [func_]. *)
Theorem library_index_resolves (raster : QgsRasterLayer)
    (band_mapping : dict Z) (index template : string) :
  finite_statistics raster ->
  dict_mem band_mapping "R" = true ->
  dict_mem band_mapping "G" = true ->
  dict_mem band_mapping "B" = true ->
  dict_get indices_formulas index = Some template ->
  exists (fuel : nat) (result : string),
    occurs "func_" result = false /\
    forall fuel', fuel <= fuel' ->
      calculate_special_functions fuel' raster template band_mapping
      = Returns result.
Proof.
  intros Hfin HR HG HB Hd.
  pose proof LibraryFacts.library_templates_well_formed as Hlib.
  rewrite forallb_forall in Hlib.
  specialize (Hlib _ (LibraryFacts.dict_get_entry _ _ _ Hd)).
  cbn [snd] in Hlib.
  apply (LibraryFacts.well_formed_mono _ _ band_mapping) in Hlib;
    [|now apply LibraryFacts.sample_bands_within].
  destruct (LoopFacts.well_formed_resolvable _ _ _ _ Hlib) as [w Hw].
  destruct (LoopFacts.loop_resolvable indices_formulas raster band_mapping
              Hfin w template Hw) as (r & Hr & Hloop).
  exists w, r. split; [exact Hr|]. exact Hloop.
Qed.

Lemma sample_raster_finite : finite_statistics Samples.raster.
Proof. intros b. repeat split; reflexivity. Defined.

Lemma library_index_resolves_witness :
  exists (fuel : nat) (result : string),
    occurs "func_" result = false /\
    forall fuel', fuel <= fuel' ->
      calculate_special_functions fuel' Samples.raster
        "(func_index(ExGR_george) + 2.4) / 5.4" Samples.bands
      = Returns result.
Proof.
  apply (library_index_resolves Samples.raster Samples.bands
           "ExGRnorm_george" "(func_index(ExGR_george) + 2.4) / 5.4").
  - exact sample_raster_finite.
  - reflexivity.
  - reflexivity.
  - reflexivity.
  - reflexivity.
Defined.

(** ** One entry for every task *)

Module TraceFacts.

Import PyStr RasterIndexCalculatorTask RasterIndexCalculator SchedulerSpec
  RunSpec SaveWorker TraceSpec.

Lemma remove_perm task (l : list RasterIndexCalculatorTask.t) :
  NoDup (map tid l) -> In task l -> Permutation (task :: remove task l) l.
Proof.
  induction l as [|x l IH]; intros Hn Hin; [destruct Hin|].
  cbn [remove]. inversion Hn as [|? ? Hx Hn']; subst.
  destruct (Nat.eqb_spec (tid x) (tid task)) as [E|E].
  - destruct Hin as [->|Hin]; [reflexivity|].
    exfalso. apply Hx. rewrite E. now apply in_map.
  - destruct Hin as [->|Hin]; [congruence|].
    rewrite perm_swap. constructor. now apply IH.
Qed.

Lemma finished_extend (table : progress_table) (id id' : nat)
    (r r' : task_result) :
  finished table id = None -> finished table id' = Some r' ->
  finished ((id, r) :: table) id' = Some r'.
Proof.
  intros Hn Hs. cbn [finished].
  destruct (Nat.eqb_spec id' id) as [->|_]; [congruence | exact Hs].
Qed.

Lemma entry_for_extend budget table id r task e :
  finished table id = None ->
  entry_for budget table task e -> entry_for budget ((id, r) :: table) task e.
Proof.
  intros Hn [H|(Hg & r0 & Hf & Hrun & H)]; [now left|].
  right. split; [exact Hg|]. exists r0.
  split; [now apply finished_extend | auto].
Qed.

Lemma to_be_saved_extend budget table id r tr :
  finished table id = None ->
  to_be_saved budget table tr -> to_be_saved budget ((id, r) :: table) tr.
Proof.
  intros Hn (Hg & Hf & Hs & Hrun).
  split; [exact Hg|]. split; [now apply finished_extend | auto].
Qed.

Lemma traced_object_extend budget table id r made L s :
  finished table id = None ->
  traced_object budget table made L s ->
  traced_object budget ((id, r) :: table) made L s.
Proof.
  intros Hn [H1 H2 H3 H4 H5 H6 H7]. constructor; try assumption.
  - eapply Forall_impl; [|exact H5]. intros e. now apply entry_for_extend.
  - eapply Forall_impl; [|exact H7]. intros e. now apply to_be_saved_extend.
Qed.

(** Both sides are concatenations of the same lists. *)
Ltac perm_step :=
  match goal with
  | |- Permutation [] [] => constructor
  | |- Permutation (?a ++ ?L)%list (?a ++ ?R)%list =>
      apply Permutation_app_head
  | |- Permutation (?a ++ ?L)%list (?b ++ ?a ++ ?R)%list =>
      rewrite (Permutation_app_swap_app b a R); apply Permutation_app_head
  | |- Permutation (?a ++ ?L)%list (?b ++ ?c ++ ?a ++ ?R)%list =>
      rewrite (app_assoc b c (a ++ R)%list),
        (Permutation_app_swap_app (b ++ c)%list a R), <- (app_assoc b c R);
      apply Permutation_app_head
  | |- Permutation (?a ++ ?L)%list (?b ++ ?c ++ ?d ++ ?a ++ ?R)%list =>
      rewrite (app_assoc c d (a ++ R)%list),
        (app_assoc b (c ++ d)%list (a ++ R)%list),
        (Permutation_app_swap_app (b ++ c ++ d)%list a R),
        <- (app_assoc b (c ++ d)%list R), <- (app_assoc c d R);
      apply Permutation_app_head
  | |- Permutation (?a ++ ?L)%list (?b ++ ?c ++ ?d ++ ?e ++ ?a ++ ?R)%list =>
      rewrite (app_assoc d e (a ++ R)%list),
        (app_assoc c (d ++ e)%list (a ++ R)%list),
        (app_assoc b (c ++ d ++ e)%list (a ++ R)%list),
        (Permutation_app_swap_app (b ++ c ++ d ++ e)%list a R),
        <- (app_assoc b (c ++ d ++ e)%list R),
        <- (app_assoc c (d ++ e)%list R), <- (app_assoc d e R);
      apply Permutation_app_head
  end.

Ltac perm :=
  rewrite <- ?app_assoc, ?app_nil_r; cbn [app];
  repeat match goal with
         | |- context [?x :: ?l] =>
             lazymatch l with
             | [] => fail
             | _ => change (x :: l) with ([x] ++ l)%list
             end
         end;
  match goal with
  | |- Permutation ?L ?R =>
      rewrite <- (app_nil_r L), <- (app_nil_r R); rewrite <- ?app_assoc
  end;
  repeat perm_step; cbn [app]; try reflexivity.

Lemma firstn_next (X : Type) (k : nat) (l rest : list X) (x : X) :
  skipn k l = x :: rest ->
  firstn (S k) l = (firstn k l ++ [x])%list /\ skipn (S k) l = rest.
Proof.
  revert l. induction k as [|k IH]; intros l H.
  - cbn in H. subst l. split; reflexivity.
  - destruct l as [|y l]; [discriminate|]. cbn [skipn] in H.
    destruct (IH l H) as [H1 H2]. split; [|exact H2].
    change (firstn (S (S k)) (y :: l)) with (y :: firstn (S k) l).
    now rewrite H1.
Qed.

Lemma same_tid (l : list RasterIndexCalculatorTask.t) a b :
  NoDup (map tid l) -> In a l -> In b l -> tid a = tid b -> a = b.
Proof.
  induction l as [|x l IH]; intros Hn Ha Hb E; [destruct Ha|].
  inversion Hn as [|? ? Hx Hn']; subst.
  destruct Ha as [->|Ha], Hb as [->|Hb]; auto.
  - exfalso. apply Hx. rewrite E. now apply in_map.
  - exfalso. apply Hx. rewrite <- E. now apply in_map.
Qed.

Lemma find_task_some id l task :
  find_task id l = Some task -> In task l /\ tid task = id.
Proof.
  unfold find_task. intros H. apply find_some in H as [H1 H2].
  split; [exact H1 | now apply Nat.eqb_eq].
Qed.

Lemma active_distinct budget table made L s :
  NoDup (map tid made) -> traced_object budget table made L s ->
  NoDup (map tid (active_tasks s)) /\
  forall task, In task (active_tasks s) -> In task made.
Proof.
  intros Hn H. pose proof (traced_all _ _ _ _ _ H) as Hp. split.
  - apply (Permutation_map tid), Permutation_sym in Hp.
    pose proof (Permutation_NoDup Hp Hn) as Hd.
    unfold flight in Hd. rewrite !map_app in Hd.
    apply NoDup_app_remove_l in Hd. now apply NoDup_app_remove_r in Hd.
  - intros task Hin. apply (Permutation_in _ Hp).
    apply in_or_app. right. unfold flight. apply in_or_app. now left.
Qed.

(** The sweep. *)
Lemma transfer_from_traced budget table made (passes : nat) :
  NoDup (map tid made) ->
  (forall task r, In task made -> finished table (tid task) = Some r ->
     exists ev elapsed, r = RasterIndexCalculatorTask.run task ev elapsed) ->
  forall i s L,
    traced_object budget table made L s ->
    exists L',
      traced_object budget table made L' (transfer_from passes i table s).
Proof.
  intros Hn Htab. induction passes as [|passes IH]; intros i s L H;
    [now exists L|].
  cbn [transfer_from].
  destruct (nth_error (active_tasks s) i) as [task|] eqn:En; [|now exists L].
  destruct (finished table (tid task)) as [r|] eqn:Ef; [|now apply (IH _ _ L)].
  destruct (active_distinct _ _ _ _ _ Hn H) as [Hd Hm].
  pose proof (nth_error_In _ _ En) as Hin.
  pose proof (remove_perm task _ Hd Hin) as Hx.
  destruct (Htab task r (Hm _ Hin) Ef) as (ev & elapsed & Hrun).
  destruct H as [H1 H2 H3 H4 H5 H6 H7].
  assert (Hg : gt (total_memory_usage task) budget = false).
  { rewrite Forall_forall in H6. now apply H6. }
  assert (H6' : Forall (fun x => gt (total_memory_usage x) budget = false)
                  (remove task (active_tasks s))).
  { now apply MemoryFacts.remove_forall. }
  unfold flight in H4.
  assert (H4' : Permutation
                  (map fst (settled L)
                   ++ (task :: remove task (active_tasks s))
                   ++ map fst (saving_tasks_queue s) ++ map fst (queued L)
                   ++ map (fun x => fst (fst x)) (saved L)) made)
    by (rewrite Hx; exact H4).
  clear H4 Hx.
  destruct (String.eqb_spec (calculation_status r) "success") as [Es|Es].
  - apply (IH _ _ L). constructor; cbn; try assumption.
    + unfold flight. cbn. rewrite <- H4', map_app. cbn [map fst]. perm.
    + rewrite <- app_assoc. apply Forall_app in H7 as [H7a H7b].
      apply Forall_app. split; [exact H7a|].
      apply Forall_app. split; [|exact H7b].
      constructor; [|constructor]. cbn. repeat split; eauto.
  - apply (IH _ _ {| settled := settled L ++ [(task, r)];
                     queued := queued L; saved := saved L |}).
    constructor; cbn; try assumption.
    + now rewrite H1, map_app.
    + unfold flight. cbn. rewrite <- H4', map_app. cbn [map fst]. perm.
    + apply Forall_app. split; [exact H5|]. constructor; [|constructor].
      cbn. right. split; [exact Hg|]. exists r.
      split; [exact Ef|]. split; [eauto|]. left. auto.
Qed.

(** The hand-over to the save worker. *)
Lemma save_traced budget table made L s :
  traced_object budget table made L s ->
  traced_object budget table made
    {| settled := settled L; queued := queued L ++ saving_tasks_queue s;
       saved := saved L |}
    (save_rasters_from_memory_to_disk s).
Proof.
  intros [H1 H2 H3 H4 H5 H6 H7]. unfold flight in H4.
  constructor; cbn; try assumption.
  - rewrite H2, map_app. reflexivity.
  - unfold flight. cbn. rewrite <- H4, map_app. perm.
  - apply Forall_app in H7 as [H7a H7b]. apply Forall_app in H7b as [H7b H7c].
    rewrite <- app_assoc. repeat (apply Forall_app; split); assumption.
Qed.

(** The collection of the saved rasters. *)
Lemma get_saved_traced budget table made L s :
  traced_object budget table made L s ->
  traced_object budget table made
    {| settled :=
         settled L
         ++ map (fun x =>
                   (fst (fst x),
                    RasterSaveTask.with_saving_status (snd (fst x))
                      (saving_text (snd x)))) (saved L);
       queued := queued L; saved := [] |}
    (get_saved_rasters s).
Proof.
  intros [H1 H2 H3 H4 H5 H6 H7]. unfold flight in H4.
  destruct (SweepFacts.get_saved_rasters_spec s)
    as (G1 & _ & G3 & G4 & G5 & G6).
  constructor; cbn [settled queued saved].
  - rewrite G1, H1, H3, !map_app, !map_map. reflexivity.
  - now rewrite G5.
  - now rewrite G6.
  - unfold flight. cbn [settled queued saved map]. rewrite G3, G4, <- H4.
    rewrite map_app, map_map. cbn [fst]. perm.
  - apply Forall_app. split; [exact H5|].
    apply Forall_app in H7 as [_ H7]. apply Forall_app in H7 as [_ H7].
    rewrite Forall_map. rewrite Forall_map in H7.
    eapply Forall_impl; [|exact H7]. intros [[task r] c]. cbn.
    intros (Hg & Hf & Hs & Hrun). right. split; [exact Hg|].
    exists r. split; [exact Hf|]. split; [exact Hrun|]. right.
    split; [exact Hs|]. now exists c.
  - now rewrite G3.
  - rewrite G4. cbn [map]. rewrite app_nil_r.
    apply Forall_app in H7 as [H7a H7b]. apply Forall_app in H7b as [H7b _].
    apply Forall_app. split; assumption.
Qed.

(** A pass of the save worker. *)
Lemma run_pass_traced budget table made L s conversion save_task :
  traced_object budget table made L s ->
  RasterSaveTask.run_pass conversion (raster_save_task s) = Some save_task ->
  exists L',
    traced_object budget table made L' (set_raster_save_task save_task s).
Proof.
  intros [H1 H2 H3 H4 H5 H6 H7]. unfold RasterSaveTask.run_pass.
  destruct (RasterSaveTask.running (raster_save_task s)); [|discriminate].
  destruct (RasterSaveTask.task_queue (raster_save_task s))
    as [|item queue] eqn:Eq; [discriminate|].
  intros E; inversion E; subst save_task; clear E.
  unfold flight in H4.
  destruct (queued L) as [|tr rest] eqn:El; [discriminate|].
  cbn [map] in H2. inversion H2; subst item queue.
  exists {| settled := settled L; queued := rest;
            saved := saved L ++ [(tr, conversion)] |}.
  constructor; cbn; try assumption.
  - reflexivity.
  - rewrite H3, map_app. reflexivity.
  - unfold flight. cbn. rewrite <- H4, map_app. cbn [map fst]. perm.
  - rewrite map_app. cbn [map fst].
    apply Forall_app in H7 as [H7a H7b]. apply Forall_app in H7b as [H7b H7c].
    inversion H7b as [|? ? Htr Hrest]; subst.
    repeat (apply Forall_app; split); try assumption.
    constructor; [exact Htr | constructor].
Qed.

(** One more task from the generator. *)
Lemma traced_next P all g task g' :
  (exists bound, remaining_tasks bound P g = Returns (skipn (created g) all)) ->
  next P g = Returns (Some (task, g')) ->
  created g' = S (created g) /\
  firstn (created g') all = (firstn (created g) all ++ [task])%list /\
  exists bound,
    remaining_tasks bound P g' = Returns (skipn (created g') all).
Proof.
  intros [bound Hb] En.
  pose proof (GeneratorFacts.next_yields _ _ _ _ En) as Y.
  pose proof (yields_created _ _ _ _ Y) as Hc.
  destruct bound as [|bound]; cbn [remaining_tasks] in Hb; rewrite En in Hb;
    [discriminate|].
  destruct (remaining_tasks bound P g') as [rest| |] eqn:Er;
    cbn [bind] in Hb; try discriminate.
  inversion Hb as [Hs]. symmetry in Hs.
  destruct (firstn_next _ _ _ _ _ Hs) as [H1 H2].
  rewrite Hc. split; [reflexivity|]. split; [exact H1|].
  exists bound. now rewrite H2.
Qed.

Lemma in_firstn_more (X : Type) (k : nat) (l : list X) (x y : X) :
  firstn (S k) l = (firstn k l ++ [y])%list ->
  In x (firstn k l) -> In x (firstn (S k) l).
Proof. intros -> H. apply in_or_app. now left. Qed.

Lemma in_firstn (X : Type) (k : nat) (l : list X) (x : X) :
  In x (firstn k l) -> In x l.
Proof.
  intros H. rewrite <- (firstn_skipn k l). apply in_or_app. now left.
Qed.

Lemma nodup_firstn (k : nat) (l : list RasterIndexCalculatorTask.t) :
  NoDup (map tid l) -> NoDup (map tid (firstn k l)).
Proof.
  intros H. rewrite <- (firstn_skipn k l), map_app in H.
  now apply NoDup_app_remove_r in H.
Qed.

Lemma traced_execute_step P s all w :
  NoDup (map tid all) ->
  traced P s all w -> traced P s all (execute_step P w).
Proof.
  intros Hn [Hb Hg Hs Ht [L HL]].
  pose proof (BudgetFacts.execute_step_setup P w) as Hsame.
  assert (Hb' : max_memory_usage (self (execute_step P w))
                = max_memory_usage s)
    by (rewrite (same_budget _ _ Hsame); exact Hb).
  destruct (RunFacts.execute_step_effect P w)
    as [E1 E2 E3 E4|task Ep En Eg E1 E3 E4|task Ep En Eg E1 E3 E4
        |E1 E2 E3 E4|E1 E2 E3 E4|E1 E2 E3 E4].
  - constructor; rewrite ?E2, ?E3, ?E4, ?E1; auto. now exists L.
  - destruct (traced_next _ _ _ _ _ Hg En) as (Hc & Hf & Hg').
    constructor; rewrite ?E3, ?E4; auto.
    + intros x Hx. rewrite Hc. apply (in_firstn_more _ _ _ _ task).
      * now rewrite <- Hc.
      * now apply Hs.
    + rewrite Hf, E1.
      exists {| settled := settled L ++ [(task, rejection task)];
                queued := queued L; saved := saved L |}.
      destruct HL as [H1 H2 H3 H4 H5 H6 H7]. unfold flight in H4.
      constructor; cbn; try assumption.
      * now rewrite H1, map_app.
      * unfold flight. cbn. rewrite <- H4, map_app. cbn [map fst]. perm.
      * apply Forall_app. split; [exact H5|]. constructor; [|constructor].
        cbn. left. split; [|reflexivity]. now rewrite <- Hb.
  - destruct (traced_next _ _ _ _ _ Hg En) as (Hc & Hf & Hg').
    constructor; rewrite ?E3, ?E4; auto.
    + intros x Hx. rewrite Hf.
      apply in_app_or in Hx as [Hx|Hx]; apply in_or_app; auto.
    + rewrite Hf, E1. exists L.
      destruct HL as [H1 H2 H3 H4 H5 H6 H7]. unfold flight in H4.
      constructor; cbn; try assumption.
      * unfold flight. cbn. rewrite <- H4. perm.
      * apply Forall_app. split; [exact H6|]. constructor; [|constructor].
        now rewrite <- Hb.
  - constructor; rewrite ?E2, ?E3, ?E4; auto. rewrite E1.
    unfold transfer_finished_tasks_to_saving_queue.
    apply (transfer_from_traced _ _ _ _ (nodup_firstn _ _ Hn)) with (L := L);
      [|exact HL].
    intros task r Hin Hf. apply (Ht (tid task) r task Hf); [|reflexivity].
    exact (in_firstn _ _ _ _ Hin).
  - constructor; rewrite ?E2, ?E3, ?E4; auto. rewrite E1.
    eexists. apply save_traced. exact HL.
  - constructor; rewrite ?E2, ?E3, ?E4; auto. rewrite E1.
    eexists. apply get_saved_traced. exact HL.
Qed.

Lemma traced_fire P s all e w w' :
  NoDup (map tid all) ->
  traced P s all w -> fire P e w = Some w' -> traced P s all w'.
Proof.
  intros Hn H. destruct e as [|id ev elapsed|conversion]; cbn [fire].
  - intros E; inversion E; subst. now apply traced_execute_step.
  - destruct (find_task id (submitted w)) as [task|] eqn:Ef; [|discriminate].
    destruct (finished (table w) id) eqn:En; [discriminate|].
    intros E; inversion E; subst; clear E.
    destruct H as [Hb Hg Hs Ht [L HL]].
    destruct (find_task_some _ _ _ Ef) as [Hin Hid].
    constructor; cbn; auto.
    + intros id' r t' Hf Hall Htid. cbn [finished] in Hf.
      destruct (Nat.eqb_spec id' id) as [->|_].
      * inversion Hf; subst r.
        assert (t' = task) as ->; [|eauto].
        apply (same_tid all); auto; [|congruence].
        exact (in_firstn _ _ _ _ (Hs _ Hin)).
      * exact (Ht _ _ _ Hf Hall Htid).
    + exists L. now apply traced_object_extend.
  - destruct (save_task_added w); [|discriminate].
    destruct (RasterSaveTask.run_pass conversion (raster_save_task (self w)))
      as [save_task|] eqn:Er; [|discriminate].
    intros E; inversion E; subst; clear E.
    destruct H as [Hb Hg Hs Ht [L HL]].
    constructor; cbn; auto.
    exact (run_pass_traced _ _ _ _ _ _ _ HL Er).
Qed.

Lemma start_traced P s all :
  fresh s ->
  remaining_tasks (number_of_tasks s) P
    (create_tasks (input_files s) (output_dir s) (self_band_mapping s)
       (selected_indices s)) = Returns all ->
  traced P s all (start s).
Proof.
  intros [F1 F2 F3 F4 F5 F6] H.
  constructor; cbn.
  - reflexivity.
  - now exists (number_of_tasks s).
  - intros task [].
  - intros id r task Hf. discriminate Hf.
  - exists {| settled := []; queued := []; saved := [] |}.
    constructor; cbn; rewrite ?F1, ?F2, ?F3, ?F4; cbn; auto.
    unfold flight. cbn. rewrite F2, F3. constructor.
Qed.

(** The tasks of a generator are numbered from where it stands. *)
Lemma remaining_numbered P (bound : nat) :
  forall g tasks,
    remaining_tasks bound P g = Returns tasks ->
    map tid tasks = seq (created g) (List.length tasks) /\
    List.length tasks = pending g.
Proof.
  induction bound as [|bound IH]; intros g tasks H;
    cbn [remaining_tasks] in H;
    destruct (next P g) as [[[task g']|]| |] eqn:En; try discriminate.
  - inversion H; subst. split; [reflexivity|].
    symmetry. exact (GeneratorFacts.next_stops _ _ En).
  - destruct (remaining_tasks bound P g') as [rest| |] eqn:Er;
      cbn [bind] in H; try discriminate.
    inversion H; subst tasks.
    pose proof (GeneratorFacts.next_yields _ _ _ _ En) as Y.
    destruct (IH _ _ Er) as [H1 H2].
    rewrite (yields_created _ _ _ _ Y) in H1. cbn.
    rewrite H1, (yields_tid _ _ _ _ Y), H2, (yields_pending _ _ _ _ Y).
    split; reflexivity.
  - inversion H; subst. split; [reflexivity|].
    symmetry. exact (GeneratorFacts.next_stops _ _ En).
Qed.

Lemma reachable_traced P s all w :
  fresh s ->
  remaining_tasks (number_of_tasks s) P
    (create_tasks (input_files s) (output_dir s) (self_band_mapping s)
       (selected_indices s)) = Returns all ->
  reachable P s w -> traced P s all w.
Proof.
  intros Hf Hall [events Hr].
  assert (Hn : NoDup (map tid all)).
  { rewrite (proj1 (remaining_numbered _ _ _ _ Hall)). apply seq_NoDup. }
  apply (CountFacts.run_invariant P (traced P s all)
           (fun e w w' => traced_fire P s all e w w' Hn) events
           (start s) w); [|exact Hr].
  now apply start_traced.
Qed.

(** When [execute] has returned, the results are the entries of the tasks,
    one for each. *)
Lemma returned_traced P s all w :
  fresh s ->
  remaining_tasks (number_of_tasks s) P
    (create_tasks (input_files s) (output_dir s) (self_band_mapping s)
       (selected_indices s)) = Returns all ->
  reachable P s w -> at_place w = Returned ->
  exists entries,
    results (self w) = map snd entries /\
    Permutation (map fst entries) all /\
    Forall (fun e => entry_for (max_memory_usage s) (table w) (fst e) (snd e))
      entries.
Proof.
  intros Hf Hall Hr Hp.
  destruct (reachable_traced P s all w Hf Hall Hr) as [_ _ _ _ [L HL]].
  pose proof (CountFacts.reachable_counted P s w Hf Hr) as C.
  pose proof (counted_returned _ _ _ C Hp) as H1.
  pose proof (counted_past _ _ _ C) as H2. rewrite Hp in H2.
  specialize (H2 eq_refl).
  pose proof (counted_created _ _ _ C) as H3.
  pose proof (counted_pending _ _ _ C) as H4.
  pose proof (counted_number _ _ _ C) as H5.
  destruct (remaining_numbered _ _ _ _ Hall) as [_ Hlen].
  unfold pending in Hlen. cbn in Hlen.
  unfold in_flight in H3.
  assert (Ha : active_tasks (self w) = [])
    by (apply length_zero_iff_nil; lia).
  assert (Hq : saving_tasks_queue (self w) = [])
    by (apply length_zero_iff_nil; lia).
  assert (Ht : RasterSaveTask.task_queue (raster_save_task (self w)) = [])
    by (apply length_zero_iff_nil; lia).
  assert (Hb : RasterSaveTask.saved_rasters (raster_save_task (self w)) = [])
    by (apply length_zero_iff_nil; lia).
  destruct HL as [T1 T2 T3 T4 T5 _ _].
  rewrite Ht in T2. rewrite Hb in T3.
  symmetry in T2, T3. apply map_eq_nil in T2, T3.
  unfold flight in T4. rewrite Ha, Hq, T2, T3 in T4. cbn in T4.
  rewrite app_nil_r in T4.
  rewrite firstn_all2 in T4 by lia.
  exists (settled L). auto.
Qed.

End TraceFacts.

(** ** Runs for every outcome of the tasks *)

Module LiveMore.

Import PyStr RasterIndexCalculatorTask RasterIndexCalculator SchedulerSpec
       GeneratorFacts CountFacts MemoryFacts LiveFacts TraceSpec.

(** From a state with nothing in flight, the next task is taken, ends as
    [ev] says and, when it is to be saved, is saved as [conversion] says;
    its entry is recorded before the task after it is taken. *)
Lemma idle_task_any P w task g (ev : evaluation) (elapsed : Q)
    (conversion : option string) :
  idle w ->
  next P (task_generator w) = Returns (Some (task, g)) ->
  (0 < max_memory_usage (self w))%Q \/ (0 < max_active_tasks (self w))%Z ->
  exists events w',
    run P events w = Some w' /\ idle w' /\ task_generator w' = g /\
    same_setup (self w) (self w') /\
    results (self w')
    = (results (self w)
       ++ [entry_when (max_memory_usage (self w)) ev elapsed conversion
             task])%list.
Proof.
  intros [Hp Hadd Ha Hv Hq Hm Hs Ht] En Hcfg.
  pose proof (next_yields _ _ _ _ En) as [Yc Yt _ _ _ _ _].
  destruct w as [s0 g0 added sub tb pl].
  destruct s0 as [ins sel bm out res mx cap act sav mem num prog pstep save].
  cbn in Hp, Hadd, Ha, Hv, Hq, Hm, Hs, Ht, En, Hcfg, Yc, Yt. subst.
  unfold entry_when. cbn [self max_memory_usage].
  destruct (gt (total_memory_usage task) mx) eqn:Eg.
  - exists [Control]. eexists. cbn. rewrite En, Eg. split; [reflexivity|].
    split; [|split; [reflexivity | split; [constructor; reflexivity|]]].
    + constructor; cbn; auto.
      * intros x Hx. specialize (Hs x Hx). lia.
      * intros x Hx. specialize (Ht x Hx). lia.
    + reflexivity.
  - assert (Hf : find_task (tid task) (sub ++ [task]) = Some task).
    { apply find_task_new. intros x Hx. specialize (Hs x Hx). lia. }
    assert (Hn : finished tb (tid task) = None).
    { apply finished_new. intros x Hx. specialize (Ht x Hx). lia. }
    set (w0 := {| self := {| input_files := ins; selected_indices := sel;
                   self_band_mapping := bm; output_dir := out; results := res;
                   max_memory_usage := mx; max_active_tasks := cap;
                   active_tasks := []; saving_tasks_queue := [];
                   memory_usage := mem; number_of_tasks := num;
                   progress := prog; progress_step := pstep;
                   raster_save_task := RasterSaveTask.init |};
                 task_generator := g0; save_task_added := true;
                 submitted := sub; table := tb; at_place := NextTask |}).
    set (entry :=
           if String.eqb
                (calculation_status
                   (RasterIndexCalculatorTask.run task ev elapsed)) "success"
           then RasterSaveTask.with_saving_status
                  (RasterIndexCalculatorTask.run task ev elapsed)
                  (SaveWorker.saving_text conversion)
           else RasterIndexCalculatorTask.run task ev elapsed).
    assert (Hpre : exists pre w6,
              run P pre w0 = Some w6 /\ at_place w6 = WaitIf /\
              idle (goto NextTask w6) /\ task_generator w6 = g /\
              same_setup (self w0) (self w6) /\
              results (self w6) = (res ++ [entry])%list).
    { destruct ev as [|lastError|e].
      - exists [Control; TaskFinishes (tid task) Success elapsed; Control;
                Control; SaveWorker conversion; Control].
        eexists. split.
        + unfold w0. cbn [run fire].
          cbn [execute_step at_place task_generator self].
          rewrite En. cbn [max_memory_usage]. rewrite Eg.
          cbn [submitted table]. rewrite Hf, Hn.
          cbn. rewrite Nat.eqb_refl. cbn. rewrite Nat.eqb_refl. cbn.
          reflexivity.
        + cbn. split; [reflexivity|].
          split; [|split; [reflexivity|split]].
          * constructor; cbn; auto.
            -- lra.
            -- intros x Hx. apply in_app_or in Hx as [Hx|[<-|[]]];
                 [specialize (Hs x Hx)|]; lia.
            -- intros x [<-|Hx]; [cbn; lia | specialize (Ht x Hx); lia].
          * constructor; reflexivity.
          * unfold entry. cbn. destruct conversion; reflexivity.
      - exists [Control; TaskFinishes (tid task) (Failure lastError) elapsed;
                Control; Control; Control].
        eexists. split.
        + unfold w0. cbn [run fire].
          cbn [execute_step at_place task_generator self].
          rewrite En. cbn [max_memory_usage]. rewrite Eg.
          cbn [submitted table]. rewrite Hf, Hn.
          cbn. rewrite Nat.eqb_refl. cbn. rewrite Nat.eqb_refl. cbn.
          reflexivity.
        + cbn. split; [reflexivity|].
          split; [|split; [reflexivity|split]].
          * constructor; cbn; auto.
            -- lra.
            -- intros x Hx. apply in_app_or in Hx as [Hx|[<-|[]]];
                 [specialize (Hs x Hx)|]; lia.
            -- intros x [<-|Hx]; [cbn; lia | specialize (Ht x Hx); lia].
          * constructor; reflexivity.
          * reflexivity.
      - exists [Control; TaskFinishes (tid task) (Crash e) elapsed;
                Control; Control; Control].
        eexists. split.
        + unfold w0. cbn [run fire].
          cbn [execute_step at_place task_generator self].
          rewrite En. cbn [max_memory_usage]. rewrite Eg.
          cbn [submitted table]. rewrite Hf, Hn.
          cbn. rewrite Nat.eqb_refl. cbn. rewrite Nat.eqb_refl. cbn.
          reflexivity.
        + cbn. split; [reflexivity|].
          split; [|split; [reflexivity|split]].
          * constructor; cbn; auto.
            -- lra.
            -- intros x Hx. apply in_app_or in Hx as [Hx|[<-|[]]];
                 [specialize (Hs x Hx)|]; lia.
            -- intros x [<-|Hx]; [cbn; lia | specialize (Ht x Hx); lia].
          * constructor; reflexivity.
          * reflexivity. }
    destruct Hpre as (pre & w6 & Hrun & Hplace & Hidle & Hgen & Hsame & Hres).
    assert (Hboth : over_both (self w6)
                    && none_finished (table w6) (self w6) = false).
    { apply andb_false_iff. left. unfold over_both.
      destruct Hidle as [_ _ Ha6 _ _ Hm6 _ _]. cbn in Ha6, Hm6.
      destruct Hsame as [_ _ _ Hb Hc]. cbn in Hb, Hc.
      rewrite Ha6, Hb, Hc. cbn [List.length Z.of_nat].
      destruct Hcfg as [Hmx|Hcap].
      - now rewrite (ge_zero_false _ _ Hm6 Hmx).
      - apply andb_false_iff. right. apply Z.leb_gt. exact Hcap. }
    destruct (over_either (self w6)) eqn:Ee.
    + exists (pre ++ [Control; Control])%list, (goto NextTask w6).
      split; [|auto].
      rewrite run_app, Hrun. cbn [run fire]. unfold execute_step at 2.
      rewrite Hplace, Ee. unfold execute_step.
      cbn [goto at_place self table]. now rewrite Hboth.
    + exists (pre ++ [Control])%list, (goto NextTask w6).
      split; [|auto].
      rewrite run_app, Hrun. cbn [run fire]. unfold execute_step.
      now rewrite Hplace, Ee.
Qed.

Lemma idle_returns_any P s (ev : nat -> evaluation) (elapsed : nat -> Q)
    (conversion : nat -> option string) (bound : nat) :
  forall w tasks,
    idle w -> counted P s w ->
    (0 < max_memory_usage (self w))%Q \/ (0 < max_active_tasks (self w))%Z ->
    remaining_tasks bound P (task_generator w) = Returns tasks ->
    exists events w',
      run P events w = Some w' /\ at_place w' = Returned /\
      results (self w')
      = (results (self w)
         ++ map (fun task =>
                   entry_when (max_memory_usage (self w)) (ev (tid task))
                     (elapsed (tid task)) (conversion (tid task)) task)
              tasks)%list.
Proof.
  induction bound as [|bound IH]; intros w tasks Hi Hc Hcfg Hr;
    cbn [remaining_tasks] in Hr;
    destruct (next P (task_generator w)) as [[[task g]|]|e|] eqn:En;
    try discriminate.
  1, 3: (exists [Control; Control; Control], (goto Returned w);
         inversion Hr; subst tasks;
         split; [|split; [reflexivity | cbn; now rewrite app_nil_r]];
         destruct Hi as [Hp _ Ha Hv Hq _ _ _];
         pose proof (next_stops _ _ En) as Hz;
         destruct Hc as [_ _ _ Hn Hcr Hpe _ _ _ _ _ _];
         unfold in_flight in Hcr; rewrite Ha, Hv, Hq in Hcr; cbn in Hcr;
         assert (Hlt : (List.length (results (self w))
                        <? number_of_tasks (self w))%nat = false)
           by (apply Nat.ltb_ge; lia);
         assert (E1 : execute_step P w = goto ActiveWhile w)
           by (unfold execute_step; now rewrite Hp, En);
         assert (E2 : execute_step P (goto ActiveWhile w)
                      = goto ResultsWhile w)
           by (unfold execute_step; cbn [goto at_place self];
               now rewrite Ha);
         assert (E3 : execute_step P (goto ResultsWhile w)
                      = goto Returned w)
           by (unfold execute_step; cbn [goto at_place self];
               now rewrite Hlt);
         cbn [run fire]; now rewrite E1, E2, E3).
  destruct (remaining_tasks bound P g) as [rest| |] eqn:Er; try discriminate.
  cbn [bind] in Hr. inversion Hr; subst tasks.
  destruct (idle_task_any P w task g (ev (tid task)) (elapsed (tid task))
              (conversion (tid task)) Hi En Hcfg)
    as (ev1 & w1 & Hrun1 & Hi1 & Hg1 & Hsame & Hres1).
  assert (Hc1 : counted P s w1)
    by exact (run_invariant P (counted P s) (counted_fire P s) ev1 w w1
                Hc Hrun1).
  pose proof (same_budget _ _ Hsame) as Hb.
  pose proof (same_cap _ _ Hsame) as Hcap.
  destruct (IH w1 rest Hi1 Hc1) as (ev2 & w2 & Hrun2 & Hp2 & Hres2).
  - now rewrite Hb, Hcap.
  - now rewrite Hg1.
  - exists (ev1 ++ ev2)%list, w2. split; [|split; [exact Hp2|]].
    + now rewrite run_app, Hrun1.
    + rewrite Hres2, Hres1, Hb, <- app_assoc. reflexivity.
Qed.

(** The run up to the exception of the generator. *)
Lemma idle_raises P s (bound : nat) :
  forall w e,
    idle w -> counted P s w ->
    (0 < max_memory_usage (self w))%Q \/ (0 < max_active_tasks (self w))%Z ->
    remaining_tasks bound P (task_generator w) = Raises e ->
    exists events w', run P events w = Some w' /\ at_place w' = Raised e.
Proof.
  induction bound as [|bound IH]; intros w e Hi Hc Hcfg Hr;
    cbn [remaining_tasks] in Hr;
    destruct (next P (task_generator w)) as [[[task g]|]|e'|] eqn:En;
    try discriminate.
  1, 3: (inversion Hr; subst e';
         exists [Control], (goto (Raised e) w); split; [|reflexivity];
         cbn [run fire]; unfold execute_step;
         now rewrite (idle_place _ Hi), En).
  destruct (remaining_tasks bound P g) as [rest|e'|] eqn:Er;
    cbn [bind] in Hr; try discriminate.
  inversion Hr; subst e'.
  destruct (idle_task P w task g Hi En Hcfg)
    as (ev1 & w1 & Hrun1 & Hi1 & Hg1 & Hsame).
  assert (Hc1 : counted P s w1)
    by exact (run_invariant P (counted P s) (counted_fire P s) ev1 w w1
                Hc Hrun1).
  destruct (IH w1 e Hi1 Hc1) as (ev2 & w2 & Hrun2 & Hp2).
  - destruct Hsame as [_ _ _ Hb Hcap]. now rewrite Hb, Hcap.
  - now rewrite Hg1.
  - exists (ev1 ++ ev2)%list, w2. split; [|exact Hp2].
    now rewrite run_app, Hrun1.
Qed.

(** The first step of [execute] on valid indices. *)
Lemma first_step_idle P s :
  fresh s -> validate_indices (selected_indices s) = Returns tt ->
  idle (execute_step P (start s)) /\
  counted P s (execute_step P (start s)) /\
  self (execute_step P (start s)) = s /\
  task_generator (execute_step P (start s))
  = create_tasks (input_files s) (output_dir s) (self_band_mapping s)
      (selected_indices s).
Proof.
  intros Hf Hv.
  pose proof (start_counted P s Hf) as Hc0.
  assert (Hw1 : execute_step P (start s)
                = {| self := s;
                     task_generator :=
                       create_tasks (input_files s) (output_dir s)
                         (self_band_mapping s) (selected_indices s);
                     save_task_added := true; submitted := [];
                     table := []; at_place := NextTask |}).
  { unfold execute_step. cbn [start at_place self]. now rewrite Hv. }
  split; [|split; [now apply counted_execute_step|]].
  - rewrite Hw1. destruct Hf as [Hr Ha Hs Hq Hm Hn].
    constructor; cbn; auto; try (intros x []). now rewrite Hm.
  - rewrite Hw1. split; reflexivity.
Qed.

End LiveMore.

(** ** Where the doubles are exact *)

Module RangeFacts.

Import PyStr RasterIndexCalculatorTask RasterIndexCalculator SchedulerSpec
  RunSpec DoubleRange.

Lemma in_units_add (a b : Q) (n k : Z) :
  in_units a n -> in_units b k -> in_units (a + b) (n + k).
Proof.
  unfold in_units. intros -> ->. rewrite inject_Z_plus. field.
  discriminate.
Qed.

Lemma in_units_sub (a b : Q) (n k : Z) :
  in_units a n -> in_units b k -> in_units (a - b) (n - k).
Proof.
  unfold in_units. intros -> ->.
  unfold Z.sub. rewrite inject_Z_plus, inject_Z_opp. field. discriminate.
Qed.

Lemma in_units_nonneg (a : Q) (n : Z) :
  in_units a n -> (0 <= a)%Q -> (0 <= n)%Z.
Proof.
  unfold in_units. intros E H. rewrite E in H.
  apply (Qmult_le_compat_r _ _ (inject_Z (2 ^ 20))) in H; [|discriminate].
  rewrite Qmult_0_l in H.
  unfold Qdiv in H. rewrite <- Qmult_assoc, (Qmult_comm (/ _)) in H.
  rewrite Qmult_inv_r, Qmult_1_r in H by discriminate.
  change 0%Q with (inject_Z 0) in H. now rewrite <- Zle_Qle in H.
Qed.

Lemma task_units_nonneg (raster : QgsRasterLayer) :
  (0 <= task_units raster)%Z.
Proof. apply N2Z.is_nonneg. Qed.

Lemma files_units_nonneg P indices files :
  (0 <= files_units P indices files)%Z.
Proof.
  induction files as [|f files IH]; cbn [files_units]; [lia|].
  destruct (load P f) as [r|]; [|lia].
  pose proof (task_units_nonneg r). nia.
Qed.

Lemma pending_units_nonneg P g : (0 <= pending_units P g)%Z.
Proof.
  unfold pending_units. pose proof (files_units_nonneg P
    (List.length (gen_selected_indices g)) (files_left g)).
  destruct (opened g) as [o|]; [|lia].
  pose proof (task_units_nonneg (opened_layer o)). nia.
Qed.

Lemma ranged_weaken (limit limit' : Z) (s : t) :
  (limit <= limit')%Z -> ranged limit s -> ranged limit' s.
Proof.
  intros Hl [(n & Hn & Hb) H2 H3 H4 H5]. constructor; try assumption.
  exists n. split; [exact Hn | lia].
Qed.

(** The sweep. *)
Lemma transfer_from_ranged (table : progress_table) (passes : nat) :
  forall i s limit, ranged limit s ->
    ranged limit (transfer_from passes i table s).
Proof.
  induction passes as [|passes IH]; intros i s limit H; [exact H|].
  cbn [transfer_from].
  destruct (nth_error (active_tasks s) i) as [task|] eqn:En; [|exact H].
  destruct (finished table (tid task)) as [r|]; [|now apply IH].
  apply IH. destruct H as [(n & Hn & Hb) H2 H3 H4 H5].
  assert (Hw : whole (total_memory_usage task)).
  { rewrite Forall_forall in H2. apply H2. exact (nth_error_In _ _ En). }
  destruct (String.eqb (calculation_status r) "success");
    constructor; cbn; try assumption;
    try (now apply MemoryFacts.remove_forall).
  - now exists n.
  - apply Forall_app. split; [exact H3|]. constructor; [exact Hw|constructor].
  - destruct Hw as (k & Hk & Hu). exists (n - k)%Z.
    split; [now apply in_units_sub | lia].
Qed.

(** The collection of the saved rasters. *)
Lemma take_saved_ranged (saved : list RasterSaveTask.saved_raster) :
  forall s limit,
    Forall (fun r => whole (RasterSaveTask.total_saved_size r)) saved ->
    (exists n, in_units (memory_usage s) n /\ (n <= limit)%Z) ->
    exists n,
      in_units (memory_usage (fold_left take_saved saved s)) n /\
      (n <= limit)%Z.
Proof.
  induction saved as [|x saved IH]; intros s limit Hs H; [exact H|].
  cbn [fold_left]. inversion Hs as [|? ? Hx Hrest]; subst.
  apply IH; [exact Hrest|].
  destruct H as (n & Hn & Hb). destruct Hx as (k & Hk & Hu).
  exists (n - k)%Z. cbn. split; [now apply in_units_sub | lia].
Qed.

Lemma get_saved_ranged (s : t) (limit : Z) :
  ranged limit s -> ranged limit (get_saved_rasters s).
Proof.
  intros [H1 H2 H3 H4 H5].
  destruct (SweepFacts.get_saved_rasters_spec s)
    as (_ & _ & G3 & G4 & G5 & G6).
  constructor; rewrite ?G3, ?G4, ?G5, ?G6; try assumption; [|constructor].
  unfold get_saved_rasters. cbn [RasterSaveTask.get_and_reset_saved_rasters].
  now apply take_saved_ranged.
Qed.

Lemma save_ranged (s : t) (limit : Z) :
  ranged limit s -> ranged limit (save_rasters_from_memory_to_disk s).
Proof.
  intros [H1 H2 H3 H4 H5]. constructor; cbn; try assumption.
  - constructor.
  - apply Forall_app. split; [exact H4|]. rewrite Forall_map. exact H3.
Qed.

Lemma run_pass_ranged (s : t) (limit : Z) conversion save_task :
  ranged limit s ->
  RasterSaveTask.run_pass conversion (raster_save_task s) = Some save_task ->
  ranged limit (set_raster_save_task save_task s).
Proof.
  intros [H1 H2 H3 H4 H5]. unfold RasterSaveTask.run_pass.
  destruct (RasterSaveTask.running (raster_save_task s)); [|discriminate].
  destruct (RasterSaveTask.task_queue (raster_save_task s))
    as [|item queue] eqn:Eq; [discriminate|].
  intros E; inversion E; subst save_task; clear E.
  inversion H4 as [|? ? Hi Hq]; subst.
  constructor; cbn; try assumption.
  apply Forall_app. split; [exact H5|]. constructor; [exact Hi|constructor].
Qed.

(** One more task from the generator. *)
Lemma next_units P g task g' :
  (forall o, opened g = Some o ->
     opened_memory_usage o = total_of (opened_layer o) /\
     bandCount (opened_layer o) <> 0%N) ->
  next P g = Returns (Some (task, g')) ->
  exists k,
    (0 <= k)%Z /\ in_units (total_memory_usage task) k /\
    pending_units P g = (pending_units P g' + k)%Z /\
    forall o, opened g' = Some o ->
      opened_memory_usage o = total_of (opened_layer o) /\
      bandCount (opened_layer o) <> 0%N.
Proof.
  intros Ho H.
  assert (Outer :
    (match opened g with
     | Some o => indices_left o = []
     | None => True
     end) ->
    next_file P g (files_left g) = Returns (Some (task, g')) ->
    exists k,
      (0 <= k)%Z /\ in_units (total_memory_usage task) k /\
      pending_units P g = (pending_units P g' + k)%Z /\
      forall o, opened g' = Some o ->
        opened_memory_usage o = total_of (opened_layer o) /\
        bandCount (opened_layer o) <> 0%N).
  { intros Hopen Hn.
    destruct (GeneratorMore.next_file_step _ _ _ _ _ Hn)
      as (f & files' & layer & index & rest & Ef & Es & Hload & Hbands
          & Hm & Eg).
    destruct (GeneratorMore.make_task_fields _ _ _ _ _ _ _ Hm)
      as (_ & _ & _ & _ & Hto & _).
    exists (task_units layer).
    split; [apply task_units_nonneg|]. split; [|split].
    - unfold in_units. rewrite Hto.
      exact (GeneratorMore.total_is_task_size layer Hbands).
    - unfold pending_units. rewrite Ef, Eg. cbn [opened files_left
        gen_selected_indices indices_left opened_layer files_units].
      rewrite Hload, Es. cbn [List.length].
      destruct (opened g) as [o|]; [rewrite Hopen; cbn [List.length]|]; lia.
    - subst g'. cbn. intros o Eo. inversion Eo; subst o. cbn. auto. }
  unfold next in H.
  destruct (opened g) as [o|] eqn:Eo; [|now apply Outer].
  destruct (indices_left o) as [|index rest] eqn:Ei; [now apply Outer|].
  destruct (Ho o eq_refl) as [Hmem Hbands].
  destruct (make_task P g (input_file_name o) (opened_layer o)
              (opened_memory_usage o) index) as [t0| |] eqn:Em;
    cbn [bind] in H; try discriminate.
  unfold yield in H. inversion H; subst t0 g'. clear H.
  destruct (GeneratorMore.make_task_fields _ _ _ _ _ _ _ Em)
    as (_ & _ & _ & _ & Hto & _).
  exists (task_units (opened_layer o)).
  split; [apply task_units_nonneg|]. split; [|split].
  - unfold in_units. rewrite Hto, Hmem.
    exact (GeneratorMore.total_is_task_size _ Hbands).
  - unfold pending_units. cbn. rewrite Eo, Ei. cbn [List.length]. lia.
  - cbn. intros o' E'. inversion E'; subst o'. cbn. auto.
Qed.

Lemma in_range_execute_step P bound w :
  in_range P bound w -> in_range P bound (execute_step P w).
Proof.
  intros [Hr Ho].
  destruct (RunFacts.execute_step_effect P w)
    as [E1 E2 E3 E4|task Ep En Eg E1 E3 E4|task Ep En Eg E1 E3 E4
        |E1 E2 E3 E4|E1 E2 E3 E4|E1 E2 E3 E4].
  - constructor; rewrite E2; [now rewrite E1 | exact Ho].
  - destruct (next_units _ _ _ _ Ho En) as (k & Hk & Hu & Hp & Ho').
    constructor; [|exact Ho']. rewrite E1.
    apply (ranged_weaken (bound - pending_units P (task_generator w)));
      [lia|].
    destruct Hr as [H1 H2 H3 H4 H5]. constructor; cbn; assumption.
  - destruct (next_units _ _ _ _ Ho En) as (k & Hk & Hu & Hp & Ho').
    constructor; [|exact Ho']. rewrite E1.
    destruct Hr as [(n & Hn & Hb) H2 H3 H4 H5].
    constructor; cbn; try assumption.
    + exists (n + k)%Z. split; [now apply in_units_add | lia].
    + apply Forall_app. split; [exact H2|].
      constructor; [now exists k | constructor].
  - constructor; rewrite E2; [|exact Ho]. rewrite E1.
    now apply transfer_from_ranged.
  - constructor; rewrite E2; [|exact Ho]. rewrite E1.
    now apply save_ranged.
  - constructor; rewrite E2; [|exact Ho]. rewrite E1.
    now apply get_saved_ranged.
Qed.

Lemma in_range_fire P bound e w w' :
  in_range P bound w -> fire P e w = Some w' -> in_range P bound w'.
Proof.
  intros H. destruct e as [|id ev elapsed|conversion]; cbn [fire].
  - intros E; inversion E; subst. now apply in_range_execute_step.
  - destruct (find_task id (submitted w)); [|discriminate].
    destruct (finished (table w) id); [discriminate|].
    intros E; inversion E; subst; clear E. destruct H. now constructor.
  - destruct (save_task_added w); [|discriminate].
    destruct (RasterSaveTask.run_pass conversion (raster_save_task (self w)))
      as [save_task|] eqn:Er; [|discriminate].
    intros E; inversion E; subst; clear E. destruct H as [Hr Ho].
    constructor; cbn; [|exact Ho].
    exact (run_pass_ranged _ _ _ _ Hr Er).
Qed.

Lemma reachable_in_range P s w :
  fresh s -> reachable P s w ->
  in_range P
    (files_units P (List.length (selected_indices s)) (input_files s)) w.
Proof.
  intros Hf [events Hr].
  apply (CountFacts.run_invariant P _ (in_range_fire P _) events
           (start s) w); [|exact Hr].
  destruct Hf as [F1 F2 F3 F4 F5 F6].
  constructor; cbn; [|discriminate].
  unfold pending_units. cbn. rewrite Z.sub_diag.
  constructor; rewrite ?F2, ?F3, ?F4; try constructor.
  exists 0%Z. split; [|lia]. unfold in_units. rewrite F5. reflexivity.
Qed.

(** The memory counter of a run is a whole number of bytes, at most the
    bytes of all its tasks. *)
Lemma memory_in_range P s w :
  fresh s -> reachable P s w ->
  exists n,
    (0 <= n
     <= files_units P (List.length (selected_indices s)) (input_files s))%Z
    /\ in_units (memory_usage (self w)) n.
Proof.
  intros Hf Hr.
  destruct (reachable_in_range P s w Hf Hr) as [[(n & Hn & Hb) _ _ _ _] _].
  destruct (MemoryFacts.reachable_accounted P s w Hf Hr) as [B _].
  pose proof (MemoryFacts.balanced_nonneg _ _ B) as H0.
  pose proof (pending_units_nonneg P (task_generator w)).
  exists n. split; [|exact Hn].
  split; [exact (in_units_nonneg _ _ Hn H0) | lia].
Qed.

End RangeFacts.

(** ** When the inputs are not valid *)

Module AbortFacts.

Import PyStr RasterIndexCalculatorTask RasterIndexCalculator SchedulerSpec
  RunSpec TraceSpec.

(** With an unsupported index a run is at its start or has raised. *)
Lemma unsupported_fire P s e ev w w' :
  validate_indices (selected_indices s) = Raises e ->
  counted P s w /\ (at_place w = Start \/ at_place w = Raised e) ->
  fire P ev w = Some w' ->
  counted P s w' /\ (at_place w' = Start \/ at_place w' = Raised e).
Proof.
  intros Hv [C Hp] Hf.
  split; [exact (CountFacts.counted_fire P s ev w w' C Hf)|].
  destruct ev as [|id r elapsed|conversion]; cbn [fire] in Hf.
  - inversion Hf; subst w'; clear Hf. right. unfold execute_step.
    destruct Hp as [Hp|Hp]; rewrite Hp; [|exact Hp].
    rewrite (counted_selected _ _ _ C), Hv. reflexivity.
  - destruct (find_task id (submitted w)); [|discriminate].
    destruct (finished (table w) id); [discriminate|].
    inversion Hf; subst w'. exact Hp.
  - destruct (save_task_added w); [|discriminate].
    destruct (RasterSaveTask.run_pass conversion (raster_save_task (self w)));
      [|discriminate].
    inversion Hf; subst w'. exact Hp.
Qed.

Lemma unsupported_stays P s e w :
  fresh s -> validate_indices (selected_indices s) = Raises e ->
  reachable P s w -> at_place w = Start \/ at_place w = Raised e.
Proof.
  intros Hf Hv [events Hr].
  apply (CountFacts.run_invariant P
           (fun w => counted P s w
                     /\ (at_place w = Start \/ at_place w = Raised e))
           (fun ev w w' => unsupported_fire P s e ev w w' Hv) events
           (start s) w); [|exact Hr].
  split; [now apply CountFacts.start_counted | now left].
Qed.

(** A run that returns has opened every input file. *)
Lemma returned_all_loaded P s w :
  fresh s -> selected_indices s <> [] ->
  reachable P s w -> at_place w = Returned ->
  forall f, In f (input_files s) -> load P f <> None.
Proof.
  intros Hf Hne Hr Hp.
  pose proof (CountFacts.reachable_counted P s w Hf Hr) as C.
  pose proof (counted_past _ _ _ C) as H2. rewrite Hp in H2.
  specialize (H2 eq_refl).
  destruct (counted_files _ _ _ C) as (op & Hop & Hov).
  pose proof (counted_generator _ _ _ C) as Hg.
  unfold pending in H2. rewrite Hg in H2.
  destruct (files_left (task_generator w)) as [|f0 l] eqn:El.
  - rewrite app_nil_r in Hop. rewrite Hop. exact Hov.
  - destruct (selected_indices s); [congruence|]. cbn in H2. lia.
Qed.

(** The files that follow change nothing before the generator comes to
    them. *)
Lemma next_file_followed P g more files :
  match next_file P g files with
  | Returns (Some (task, g')) =>
      next_file P (followed_by more g) (files ++ more)
      = Returns (Some (task, followed_by more g'))
  | Returns None =>
      next_file P (followed_by more g) (files ++ more)
      = next_file P (followed_by more g) more
  | Raises e => next_file P (followed_by more g) (files ++ more) = Raises e
  | Diverges => next_file P (followed_by more g) (files ++ more) = Diverges
  end.
Proof.
  induction files as [|f files IH]; [reflexivity|].
  cbn [app next_file].
  destruct (load_raster_layer P f) as [raster|e|]; cbn [bind];
    [|reflexivity|reflexivity].
  destruct (N.eqb (bandCount raster) 0); cbn [bind]; [reflexivity|].
  change (gen_selected_indices (followed_by more g))
    with (gen_selected_indices g).
  destruct (gen_selected_indices g) as [|index rest]; [exact IH|].
  change (make_task P (followed_by more g)) with (make_task P g).
  destruct (make_task P g (file_stem P f) raster _ index) as [task|e|];
    cbn [bind]; reflexivity.
Qed.

Lemma next_followed P g more :
  match next P g with
  | Returns (Some (task, g')) =>
      next P (followed_by more g) = Returns (Some (task, followed_by more g'))
  | Returns None =>
      next P (followed_by more g) = next_file P (followed_by more g) more
  | Raises e => next P (followed_by more g) = Raises e
  | Diverges => next P (followed_by more g) = Diverges
  end.
Proof.
  unfold next.
  change (opened (followed_by more g)) with (opened g).
  change (files_left (followed_by more g)) with (files_left g ++ more)%list.
  destruct (opened g) as [o|]; [|apply next_file_followed].
  destruct (indices_left o) as [|index rest]; [apply next_file_followed|].
  change (make_task P (followed_by more g)) with (make_task P g).
  destruct (make_task P g (input_file_name o) (opened_layer o)
              (opened_memory_usage o) index) as [task|e|];
    cbn [bind]; reflexivity.
Qed.

(** When the generator yields all the tasks of the files it has, and a
    file that is no raster follows, it raises for that file after these
    tasks. *)
Lemma remaining_then_invalid P file more (bound : nat) :
  load P file = None ->
  forall g tasks,
    remaining_tasks bound P g = Returns tasks ->
    remaining_tasks bound P (followed_by (file :: more) g)
    = Raises (QgsProcessingException ("Invalid raster file: " ++ file)).
Proof.
  intros Hl. induction bound as [|bound IH]; intros g tasks H;
    cbn [remaining_tasks] in H |- *;
    pose proof (next_followed P g (file :: more)) as Hn;
    destruct (next P g) as [[[task g']|]|e|]; try discriminate;
    rewrite Hn.
  - cbn [next_file]. unfold load_raster_layer. rewrite Hl. reflexivity.
  - destruct (remaining_tasks bound P g') as [rest|e|] eqn:Er;
      cbn [bind] in H; try discriminate.
    rewrite (IH _ _ Er). reflexivity.
  - cbn [next_file]. unfold load_raster_layer. rewrite Hl. reflexivity.
Qed.

End AbortFacts.

(** ** Bookkeeping in every state of a run *)

(** X20.  No task is lost or counted twice: in every state of a run of
    [execute] on the object the constructor returns, the results recorded
    and the tasks in flight (active, waiting to be saved, in the queue of
    the save worker, or saved and not collected) are as many as the tasks
    the generator has made, and these and the tasks it has still to make
    are [len(input_files)] times the number of selected indices. *)
Theorem every_task_accounted_for (P : platform) (input_files : list string)
    (selected_indices : string) (band_mapping : dict Z) (output_dir : string)
    (max_memory_usage : Q) (max_active_tasks : Z) (s : t) (w : process) :
  init input_files selected_indices band_mapping output_dir max_memory_usage
    max_active_tasks = Returns s ->
  reachable P s w ->
  (List.length (results (self w)) + in_flight (self w)
   = created (task_generator w))%nat /\
  (created (task_generator w) + pending (task_generator w)
   = List.length input_files
     * List.length (split "," selected_indices))%nat /\
  number_of_tasks (self w)
  = (List.length input_files * List.length (split "," selected_indices))%nat.
Proof.
  intros Hinit Hr.
  destruct (LiveFacts.init_fresh _ _ _ _ _ _ _ Hinit) as (Hf & Hi & Hs & _).
  pose proof (CountFacts.reachable_counted P s w Hf Hr) as C.
  rewrite <- Hi, <- Hs.
  split; [exact (counted_created _ _ _ C)|].
  split; [exact (counted_pending _ _ _ C) | exact (counted_number _ _ _ C)].
Qed.

Lemma every_task_accounted_for_witness :
  (List.length (results (self MoreSamples.both_saved_end))
   + in_flight (self MoreSamples.both_saved_end)
   = created (task_generator MoreSamples.both_saved_end))%nat /\
  (created (task_generator MoreSamples.both_saved_end)
   + pending (task_generator MoreSamples.both_saved_end)
   = List.length ["a.tif"]
     * List.length (split "," "Rnorm,ExG_wernette"))%nat /\
  number_of_tasks (self MoreSamples.both_saved_end)
  = (List.length ["a.tif"]
     * List.length (split "," "Rnorm,ExG_wernette"))%nat.
Proof.
  apply (every_task_accounted_for Samples.files ["a.tif"]
           "Rnorm,ExG_wernette" Samples.bands "out" (1024 # 1) 5
           Samples.two_indices MoreSamples.both_saved_end).
  - reflexivity.
  - exists Samples.both_saved. vm_compute. reflexivity.
Defined.

(** X21.  The memory counter is exact where the doubles of the source
    are: when the sizes of all the tasks of a run of [execute] on the object
    the constructor returns add up to at most [2^53] bytes, then in every
    state of the run [memory_usage] is the sum of the sizes of the tasks in
    flight, that is of the active tasks, of the tasks waiting to be saved,
    of the items in the queue of the save worker and of the records in its
    completion buffer, and it is a whole number of bytes between 0 and
    [2^53]. *)
Theorem memory_usage_is_in_flight_total (P : platform)
    (input_files : list string) (selected_indices : string)
    (band_mapping : dict Z) (output_dir : string) (max_memory_usage : Q)
    (max_active_tasks : Z) (s : t) (w : process) :
  init input_files selected_indices band_mapping output_dir max_memory_usage
    max_active_tasks = Returns s ->
  double_exact P s ->
  reachable P s w ->
  (memory_usage (self w)
   == total (map total_memory_usage (active_tasks (self w)))
      + total (map (fun tr => total_memory_usage (fst tr))
                 (saving_tasks_queue (self w)))
      + total (map RasterSaveTask.estimated_size
                 (RasterSaveTask.task_queue (raster_save_task (self w))))
      + total (map RasterSaveTask.total_saved_size
                 (RasterSaveTask.saved_rasters
                    (raster_save_task (self w)))))%Q /\
  exists n, (0 <= n <= 2 ^ 53)%Z /\ in_units (memory_usage (self w)) n.
Proof.
  intros Hinit Hd Hr.
  destruct (LiveFacts.init_fresh _ _ _ _ _ _ _ Hinit) as (Hf & _).
  destruct (MemoryFacts.reachable_accounted P s w Hf Hr) as [B _].
  split; [exact (balanced_memory _ _ B)|].
  destruct (RangeFacts.memory_in_range P s w Hf Hr) as (n & Hn & Hu).
  exists n. split; [|exact Hu]. unfold double_exact in Hd. lia.
Qed.

Lemma memory_usage_is_in_flight_total_witness :
  (memory_usage (self MoreSamples.one_in_flight)
   == total (map total_memory_usage
               (active_tasks (self MoreSamples.one_in_flight)))
      + total (map (fun tr => total_memory_usage (fst tr))
                 (saving_tasks_queue (self MoreSamples.one_in_flight)))
      + total (map RasterSaveTask.estimated_size
                 (RasterSaveTask.task_queue
                    (raster_save_task (self MoreSamples.one_in_flight))))
      + total (map RasterSaveTask.total_saved_size
                 (RasterSaveTask.saved_rasters
                    (raster_save_task (self MoreSamples.one_in_flight)))))%Q /\
  exists n,
    (0 <= n <= 2 ^ 53)%Z /\
    in_units (memory_usage (self MoreSamples.one_in_flight)) n.
Proof.
  apply (memory_usage_is_in_flight_total Samples.files ["a.tif"]
           "Rnorm,ExG_wernette" Samples.bands "out" (1024 # 1) 5
           Samples.two_indices MoreSamples.one_in_flight).
  - reflexivity.
  - unfold double_exact. vm_compute. discriminate.
  - exists (firstn 3 Samples.both_saved). vm_compute. reflexivity.
Defined.

(** X22.  With at least one input file the constructor returns, whatever
    the selection: the number of tasks is positive, since even an empty
    selection text counts as one index, and nothing is recorded or reserved
    yet. *)
Theorem constructor_counts_tasks (input_files : list string)
    (selected_indices : string) (band_mapping : dict Z) (output_dir : string)
    (max_memory_usage : Q) (max_active_tasks : Z) :
  input_files <> [] ->
  exists s,
    init input_files selected_indices band_mapping output_dir
      max_memory_usage max_active_tasks = Returns s /\
    RasterIndexCalculator.selected_indices s = split "," selected_indices /\
    number_of_tasks s
    = (List.length input_files
       * List.length (split "," selected_indices))%nat /\
    (0 < number_of_tasks s)%nat /\
    results s = [] /\ active_tasks s = [] /\
    (memory_usage s == 0)%Q /\ (progress s == 0)%Q.
Proof.
  intros Hne. unfold init, calculate_progress_step.
  pose proof (GeneratorFacts.split_nonempty "," selected_indices) as Hs.
  destruct input_files as [|f files]; [congruence|].
  destruct (split "," selected_indices) as [|x l]; [congruence|].
  cbn [List.length Nat.mul Nat.add]. cbn [bind].
  eexists. split; [reflexivity|].
  cbn [RasterIndexCalculator.selected_indices number_of_tasks progress_step
       results active_tasks memory_usage progress].
  repeat (split; [reflexivity || lia|]). reflexivity.
Qed.

Lemma constructor_counts_tasks_witness :
  exists s,
    init ["a.tif"] "" Samples.bands "out" (1024 # 1) 5 = Returns s /\
    RasterIndexCalculator.selected_indices s = split "," "" /\
    number_of_tasks s
    = (List.length ["a.tif"] * List.length (split "," ""))%nat /\
    (0 < number_of_tasks s)%nat /\
    results s = [] /\ active_tasks s = [] /\
    (memory_usage s == 0)%Q /\ (progress s == 0)%Q.
Proof.
  apply (constructor_counts_tasks ["a.tif"] "" Samples.bands "out"
           (1024 # 1) 5).
  discriminate.
Defined.

(** * The results of a run, invalid inputs and the memory counter *)

Import TraceSpec DoubleRange.

(** ** One result for every task *)

(** C1.  On the object the constructor returns, every run of [execute]
    that returns has recorded exactly [len(input_files)] times the number of
    selected indices results.  When the generator yields the tasks [tasks]
    without raising, these are as many, and the results of a run that
    returns are one entry for each of them: the rejection for a task above
    the budget; for a task that was admitted, the result its calculation
    has left, as it is when the calculation failed and with the saving
    status of the save worker when it succeeded.  And when, moreover, the
    selected indices are supported and the budget or the cap is positive,
    then whatever the calculation of each task and the conversion of each
    raster do, there is a run that returns with the entries of the tasks
    for these outcomes, in the order of the tasks. *)
Theorem results_complete (P : platform) (input_files : list string)
    (selected_indices : string) (band_mapping : dict Z) (output_dir : string)
    (max_memory_usage : Q) (max_active_tasks : Z) (s : t) :
  init input_files selected_indices band_mapping output_dir max_memory_usage
    max_active_tasks = Returns s ->
  (forall w, reachable P s w -> at_place w = Returned ->
     List.length (results (self w))
     = (List.length input_files
        * List.length (split "," selected_indices))%nat) /\
  (forall tasks,
     remaining_tasks (number_of_tasks s) P
       (create_tasks (RasterIndexCalculator.input_files s)
          (RasterIndexCalculator.output_dir s) (self_band_mapping s)
          (RasterIndexCalculator.selected_indices s)) = Returns tasks ->
     List.length tasks
     = (List.length input_files
        * List.length (split "," selected_indices))%nat /\
     (forall w, reachable P s w -> at_place w = Returned ->
        exists entries,
          results (self w) = map snd entries /\
          Permutation (map fst entries) tasks /\
          Forall (fun e =>
                    entry_for max_memory_usage (table w) (fst e) (snd e))
            entries) /\
     (validate_indices (RasterIndexCalculator.selected_indices s)
      = Returns tt ->
      (0 < max_memory_usage)%Q \/ (0 < max_active_tasks)%Z ->
      forall (ev : nat -> evaluation) (elapsed : nat -> Q)
             (conversion : nat -> option string),
        exists w,
          reachable P s w /\ at_place w = Returned /\
          results (self w)
          = map (fun task =>
                   entry_when max_memory_usage (ev (tid task))
                     (elapsed (tid task)) (conversion (tid task)) task)
              tasks)).
Proof.
  intros Hinit.
  destruct (LiveFacts.init_fresh _ _ _ _ _ _ _ Hinit)
    as (Hf & Hi & Hs & Hb & Hc).
  split.
  - intros w Hr Hp.
    pose proof (CountFacts.reachable_counted P s w Hf Hr) as C.
    pose proof (counted_returned _ _ _ C Hp) as H1.
    pose proof (counted_past _ _ _ C) as H2. rewrite Hp in H2.
    specialize (H2 eq_refl).
    pose proof (counted_created _ _ _ C) as H3.
    pose proof (counted_pending _ _ _ C) as H4.
    pose proof (counted_number _ _ _ C) as H5.
    rewrite Hi, Hs in *. lia.
  - intros tasks Ht. split; [|split].
    + destruct (TraceFacts.remaining_numbered _ _ _ _ Ht) as [_ Hl].
      rewrite Hl. unfold pending. cbn. now rewrite Hi, Hs.
    + intros w Hr Hp. rewrite <- Hb.
      exact (TraceFacts.returned_traced P s tasks w Hf Ht Hr Hp).
    + intros Hv Hcfg ev elapsed conversion.
      destruct (LiveMore.first_step_idle P s Hf Hv) as (Hidle & C & Hself & Hg).
      rewrite <- Hg in Ht.
      destruct (LiveMore.idle_returns_any P s ev elapsed conversion
                  (number_of_tasks s) (execute_step P (start s)) tasks
                  Hidle C)
        as (events & w' & Hrun & Hp & Hres); [|exact Ht|].
      * now rewrite Hself, Hb, Hc.
      * exists w'. split; [|split; [exact Hp|]].
        -- exists (Control :: events). exact Hrun.
        -- rewrite Hres, Hself, Hb, (fresh_results _ Hf). reflexivity.
Qed.

Lemma sample_inputs_valid : valid_inputs Samples.files Samples.two_indices.
Proof. split; [reflexivity|]. eexists. vm_compute. reflexivity. Defined.

Lemma results_complete_witness :
  exists w,
    reachable Samples.files Samples.two_indices w /\ at_place w = Returned /\
    List.length (results (self w)) = 2 /\
    map calculation_status (results (self w)) = ["success"; "error"] /\
    map saving_status (results (self w)) = [Some "error - disk full"; None].
Proof.
  destruct (results_complete Samples.files ["a.tif"] "Rnorm,ExG_wernette"
              Samples.bands "out" (1024 # 1) 5 Samples.two_indices eq_refl)
    as [Hall Hsome].
  destruct sample_inputs_valid as [Hv [tasks Ht]].
  destruct (Hsome tasks Ht) as (_ & _ & Hrun).
  destruct (Hrun Hv (or_introl eq_refl)
              (fun id => if Nat.eqb id 0 then Success else Failure "no data")
              (fun _ => 1%Q) (fun _ => Some "disk full"))
    as (w & Hr & Hp & Hres).
  exists w. split; [exact Hr|]. split; [exact Hp|].
  split; [exact (Hall w Hr Hp)|].
  rewrite Hres. vm_compute in Ht. inversion Ht; subst tasks.
  split; vm_compute; reflexivity.
Defined.

(** ** Inputs that are not valid *)

(** C3, as the code has it.  An unsupported index name makes the first
    step of [execute] raise, and in a run that raised for it no task has
    been submitted and no result recorded.  An invalid raster file makes
    the run raise when the generator comes to open it: the files before it
    are valid, and the tasks submitted and the results recorded are of
    those files only (tasks are numbered file by file).

    That the run does raise: a step that asks the generator for a task
    ends the run with the exception the generator raises.  With an
    unsupported index every state of every run is the start or the raise
    of [ValueError], with no task submitted and no result recorded.  With
    an input file that is no raster no run returns, and when the selected
    indices are supported, the budget or the cap is positive and the
    generator yields the tasks of the files before that file without
    raising, there is a run that raises [QgsProcessingException] for that
    file; in general, there is a run that raises what the generator raises
    after the tasks it yields. *)
Theorem invalid_input_aborts (P : platform) (input_files : list string)
    (selected_indices : string) (band_mapping : dict Z) (output_dir : string)
    (max_memory_usage : Q) (max_active_tasks : Z) (s : t) :
  init input_files selected_indices band_mapping output_dir max_memory_usage
    max_active_tasks = Returns s ->
  ((exists index, In index (split "," selected_indices) /\
                  dict_mem indices_formulas index = false) ->
   exists msg, at_place (execute_step P (start s)) = Raised (ValueError msg))
  /\
  (forall w, reachable P s w ->
    (forall msg, at_place w = Raised (ValueError msg) ->
       submitted w = [] /\ results (self w) = []) /\
    (forall msg, at_place w = Raised (QgsProcessingException msg) ->
       exists before file after,
         input_files = (before ++ file :: after)%list /\
         (forall f, In f before -> load P f <> None) /\
         load P file = None /\
         msg = "Invalid raster file: " ++ file /\
         (forall task, In task (submitted w) ->
            (tid task
             < List.length before
               * List.length (split "," selected_indices))%nat) /\
         (List.length (results (self w))
          <= List.length before
             * List.length (split "," selected_indices))%nat))
  /\
  (forall w e,
     at_place w = NextTask -> next P (task_generator w) = Raises e ->
     execute_step P w = goto (Raised e) w)
  /\
  ((exists index, In index (split "," selected_indices) /\
                  dict_mem indices_formulas index = false) ->
   forall w, reachable P s w ->
     (at_place w = Start \/
      exists msg, at_place w = Raised (ValueError msg)) /\
     submitted w = [] /\ results (self w) = [])
  /\
  (forall before file after,
     input_files = (before ++ file :: after)%list ->
     load P file = None ->
     (forall w, reachable P s w -> at_place w <> Returned) /\
     (validate_indices (RasterIndexCalculator.selected_indices s)
      = Returns tt ->
      (0 < max_memory_usage)%Q \/ (0 < max_active_tasks)%Z ->
      forall bound tasks,
        remaining_tasks bound P
          (create_tasks before (RasterIndexCalculator.output_dir s)
             (self_band_mapping s)
             (RasterIndexCalculator.selected_indices s)) = Returns tasks ->
        exists w,
          reachable P s w /\
          at_place w
          = Raised (QgsProcessingException ("Invalid raster file: " ++ file))))
  /\
  (validate_indices (RasterIndexCalculator.selected_indices s) = Returns tt ->
   (0 < max_memory_usage)%Q \/ (0 < max_active_tasks)%Z ->
   forall bound e,
     remaining_tasks bound P
       (create_tasks (RasterIndexCalculator.input_files s)
          (RasterIndexCalculator.output_dir s) (self_band_mapping s)
          (RasterIndexCalculator.selected_indices s)) = Raises e ->
     exists w, reachable P s w /\ at_place w = Raised e).
Proof.
  intros Hinit.
  destruct (LiveFacts.init_fresh _ _ _ _ _ _ _ Hinit)
    as (Hf & Hi & Hs & Hb & Hc).
  assert (Hraise :
            validate_indices (RasterIndexCalculator.selected_indices s)
            = Returns tt ->
            (0 < max_memory_usage)%Q \/ (0 < max_active_tasks)%Z ->
            forall bound e,
              remaining_tasks bound P
                (create_tasks (RasterIndexCalculator.input_files s)
                   (RasterIndexCalculator.output_dir s) (self_band_mapping s)
                   (RasterIndexCalculator.selected_indices s)) = Raises e ->
              exists w, reachable P s w /\ at_place w = Raised e).
  { intros Hv Hcfg bound e He.
    destruct (LiveMore.first_step_idle P s Hf Hv)
      as (Hidle & C & Hself & Hg).
    rewrite <- Hg in He.
    destruct (LiveMore.idle_raises P s bound (execute_step P (start s)) e
                Hidle C)
      as (events & w' & Hrun & Hp); [now rewrite Hself, Hb, Hc|exact He|].
    exists w'. split; [|exact Hp]. exists (Control :: events). exact Hrun. }
  assert (Hstates :
            forall w, reachable P s w ->
              (forall msg, at_place w = Raised (ValueError msg) ->
                 submitted w = [] /\ results (self w) = []) /\
              (forall msg, at_place w = Raised (QgsProcessingException msg) ->
                 exists before file after,
                   input_files = (before ++ file :: after)%list /\
                   (forall f, In f before -> load P f <> None) /\
                   load P file = None /\
                   msg = "Invalid raster file: " ++ file /\
                   (forall task, In task (submitted w) ->
                      (tid task
                       < List.length before
                         * List.length (split "," selected_indices))%nat) /\
                   (List.length (results (self w))
                    <= List.length before
                       * List.length (split "," selected_indices))%nat)).
  { intros w Hr.
    pose proof (CountFacts.reachable_counted P s w Hf Hr) as C.
    pose proof (counted_created _ _ _ C) as Hcr.
    pose proof (counted_submitted _ _ _ C) as Hsub.
    split.
    + intros msg Hp.
      destruct (counted_raised _ _ _ C _ Hp) as [[_ Hz]|Hn];
        [|now apply GeneratorFacts.next_not_value_error in Hn].
      split.
      * destruct (submitted w) as [|task l]; [reflexivity|].
        specialize (Hsub task (or_introl eq_refl)). lia.
      * destruct (results (self w)); [reflexivity|]. cbn in Hcr. lia.
    + intros msg Hp.
      destruct (counted_raised _ _ _ C _ Hp) as [[Hv _]|Hn].
      { apply GeneratorFacts.validate_indices_raises in Hv
          as (x & _ & _ & Hx). discriminate Hx. }
      destruct (GeneratorFacts.next_invalid _ _ _ Hn)
        as (sk & f & rest & Hfl & Hsk & Hload & Hmsg & Hz & Hpe).
      destruct (counted_files _ _ _ C) as (op & Hop & Hov).
      pose proof (counted_pending _ _ _ C) as Hpend.
      pose proof (counted_generator _ _ _ C) as Hg.
      rewrite Hpe, Hg, Hop, Hfl in Hpend.
      rewrite Hg in Hz. rewrite Hi, Hfl in Hop. rewrite Hs in *.
      exists (op ++ sk)%list, f, rest.
      split; [now rewrite <- app_assoc|].
      split; [intros x Hx; apply in_app_or in Hx as [Hx|Hx]; auto|].
      split; [exact Hload|]. split; [exact Hmsg|].
      rewrite !length_app in Hpend. rewrite length_app.
      assert (Hcreated : created (task_generator w)
                         = (List.length op
                            * List.length (split "," selected_indices))%nat)
        by nia.
      split.
      * intros task Ht. specialize (Hsub task Ht). nia.
      * nia. }
  split; [|split; [exact Hstates|split; [|split; [|split; [|exact Hraise]]]]].
  - intros Hex. rewrite <- Hs in Hex.
    destruct (GeneratorFacts.validate_indices_unsupported _ Hex) as [msg Hm].
    exists msg. unfold execute_step. cbn [start at_place self].
    now rewrite Hm.
  - intros w e Hp En. unfold execute_step. now rewrite Hp, En.
  - intros Hex w Hr. rewrite <- Hs in Hex.
    destruct (GeneratorFacts.validate_indices_unsupported _ Hex) as [msg Hm].
    destruct (AbortFacts.unsupported_stays P s _ w Hf Hm Hr) as [Hp|Hp].
    + split; [now left|].
      pose proof (CountFacts.reachable_counted P s w Hf Hr) as C.
      pose proof (counted_created _ _ _ C) as Hcr.
      pose proof (counted_submitted _ _ _ C) as Hsub.
      pose proof (counted_start _ _ _ C Hp) as Hz.
      split.
      * destruct (submitted w) as [|task l]; [reflexivity|].
        specialize (Hsub task (or_introl eq_refl)). lia.
      * destruct (results (self w)); [reflexivity|]. cbn in Hcr. lia.
    + split; [right; now exists msg|].
      exact (proj1 (Hstates w Hr) msg Hp).
  - intros before file after Hfiles Hload. split.
    + intros w Hr Hp.
      apply (AbortFacts.returned_all_loaded P s w Hf) with (f := file);
        try assumption.
      * rewrite Hs. apply GeneratorFacts.split_nonempty.
      * rewrite Hi, Hfiles. apply in_or_app. right. now left.
    + intros Hv Hcfg bound tasks Ht.
      apply (Hraise Hv Hcfg bound).
      rewrite Hi, Hfiles.
      exact (AbortFacts.remaining_then_invalid P file after bound Hload
               _ tasks Ht).
Qed.

Lemma invalid_input_aborts_witness :
  (exists msg,
     at_place (execute_step Samples.files
                 (start (Samples.calculator ["a.tif"] ["Rnorm"; "Nope"]
                           (1024 # 1) 5)))
     = Raised (ValueError msg)) /\
  forall w,
    reachable Samples.files
      (Samples.calculator ["a.tif"] ["Rnorm"; "Nope"] (1024 # 1) 5) w ->
    (at_place w = Start \/
     exists msg, at_place w = Raised (ValueError msg)) /\
    submitted w = [] /\ results (self w) = [].
Proof.
  assert (Hex : exists index,
             In index (split "," "Rnorm,Nope") /\
             dict_mem indices_formulas index = false).
  { exists "Nope". split; [right; left; reflexivity | reflexivity]. }
  destruct (invalid_input_aborts Samples.files ["a.tif"] "Rnorm,Nope"
              Samples.bands "out" (1024 # 1) 5
              (Samples.calculator ["a.tif"] ["Rnorm"; "Nope"] (1024 # 1) 5)
              eq_refl)
    as (H1 & _ & _ & H4 & _).
  split; [exact (H1 Hex) | exact (H4 Hex)].
Defined.

(** C3, as stated, fails: with a valid file before an invalid one the
    task of the first file has been submitted when the run raises for the
    second. *)
Lemma invalid_raster_found_late :
  init ["a.tif"; "b.tif"] "Rnorm" Samples.bands "out" (1024 # 1) 5
  = Returns Samples.two_files /\
  load Samples.files "b.tif" = None /\
  exists w,
    reachable Samples.files Samples.two_files w /\
    at_place w = Raised (QgsProcessingException "Invalid raster file: b.tif")
    /\ map tid (submitted w) = [0].
Proof.
  split; [reflexivity|]. split; [reflexivity|].
  exists (Samples.state_after Samples.files Samples.second_file_opened
            Samples.two_files).
  split; [|split; vm_compute; reflexivity].
  exists Samples.second_file_opened. vm_compute. reflexivity.
Qed.

(** ** The memory counter *)

(** C5, as the code has it.  When the sizes of all the tasks of a run add
    up to at most [2^53] bytes, the doubles of the source hold every size
    and every value of the memory counter exactly, and then, in every
    state of every run of [execute] on the object the constructor returns,
    the memory counter is not negative: it is a whole number of bytes
    between 0 and [2^53]. *)
Theorem memory_usage_never_negative (P : platform)
    (input_files : list string) (selected_indices : string)
    (band_mapping : dict Z) (output_dir : string) (max_memory_usage : Q)
    (max_active_tasks : Z) (s : t) (w : process) :
  init input_files selected_indices band_mapping output_dir max_memory_usage
    max_active_tasks = Returns s ->
  double_exact P s ->
  reachable P s w ->
  (0 <= memory_usage (self w))%Q /\
  exists n, (0 <= n <= 2 ^ 53)%Z /\ in_units (memory_usage (self w)) n.
Proof.
  intros Hinit Hd Hr.
  destruct (LiveFacts.init_fresh _ _ _ _ _ _ _ Hinit) as (Hf & _).
  destruct (MemoryFacts.reachable_accounted P s w Hf Hr) as [Hb _].
  split; [exact (MemoryFacts.balanced_nonneg _ _ Hb)|].
  destruct (RangeFacts.memory_in_range P s w Hf Hr) as (n & Hn & Hu).
  exists n. split; [|exact Hu]. unfold double_exact in Hd. lia.
Qed.

Lemma sample_run_happens :
  reachable Samples.files Samples.two_indices
    (Samples.state_after Samples.files Samples.both_saved
       Samples.two_indices).
Proof. exists Samples.both_saved. vm_compute. reflexivity. Defined.

Lemma memory_usage_never_negative_witness :
  (0 <= memory_usage
          (self (Samples.state_after Samples.files Samples.both_saved
                   Samples.two_indices)))%Q /\
  exists n,
    (0 <= n <= 2 ^ 53)%Z /\
    in_units
      (memory_usage
         (self (Samples.state_after Samples.files Samples.both_saved
                  Samples.two_indices))) n.
Proof.
  apply (memory_usage_never_negative Samples.files ["a.tif"]
           "Rnorm,ExG_wernette" Samples.bands "out" (1024 # 1) 5
           Samples.two_indices _ eq_refl).
  - unfold double_exact. vm_compute. discriminate.
  - exact sample_run_happens.
Defined.

(** C5, as stated, fails: above [2^53] bytes the doubles round.  Take a
    raster of 2147483647 by 2147483647 pixels with three bands of eight
    bytes and the sample raster, a budget above both sizes and a cap of two
    tasks or more.  Both tasks are admitted; adding the small size to the
    large one rounds, so that when the large task has failed and its size
    is taken off, the counter is at 0.03125 megabytes, less than the size
    of the small task; when that task has failed too the counter is
    negative. *)
Lemma memory_usage_negative_in_doubles :
  PrimFloat.eqb
    (Doubles.memory_usage_after (firstn 3 Doubles.two_failures)
       (Doubles.of_int 0))
    (Doubles.nearest 1 (-5)) = true /\
  PrimFloat.ltb (Doubles.nearest 1 (-5))
    (Doubles.total_memory_usage Samples.raster) = true /\
  PrimFloat.ltb
    (Doubles.memory_usage_after Doubles.two_failures (Doubles.of_int 0))
    (Doubles.of_int 0) = true.
Proof. repeat split; vm_compute; reflexivity. Qed.
